(** * A shallow embedding of the propositional prover of [main.py]

    The development follows the source file top to bottom: the formula
    data model with its commutative-aware equality and hash, the printer,
    the recursive-descent parser, the normalizer, the pattern matcher with
    substitution, and the depth-bounded proof search with its cache.

    Python values are modelled as follows.
    - [str] is [string] (characters are code points below 256).
    - [int] is [Z]; list indices produced by [enumerate] are [nat].
    - A [Formula] object is a record with the three fields of the
      dataclass; [children] is a list, so nodes of any arity exist, as in
      Python.  Indexing a list out of range raises [IndexError].
    - [None] is [None] of an [option].
    - A raised exception is the [Raise] outcome of [result]. *)

From Stdlib Require Import ZArith Lia Bool List Ascii.
From Stdlib Require String.
From stdpp Require Import base option list strings gmap pretty.

Open Scope Z_scope.

(** ** Exceptions and the error monad *)

Inductive exn : Type :=
| IndexError
| RuntimeError (msg : string).

Inductive result (A : Type) : Type :=
| Ok (a : A)
| Raise (e : exn).
Arguments Ok {A} a.
Arguments Raise {A} e.

Definition bind {A B : Type} (m : result A) (k : A -> result B) : result B :=
  match m with
  | Ok a => k a
  | Raise e => Raise e
  end.

Notation "'let*' x ':=' m 'in' k" := (bind m (fun x => k))
  (at level 10, x name, m at level 200, k at level 200).

(** Python's [a and b] on booleans: [b] is evaluated only when [a] is true. *)
Definition and_then (a : result bool) (b : result bool) : result bool :=
  let* x := a in if x then b else Ok false.

(** ** The formula data model *)

Inductive FormulaType : Type := AND | OR | NOT | IMPL | VAR.

Global Instance FormulaType_eq_dec : EqDecision FormulaType.
Proof. solve_decision. Defined.

Definition FormulaType_eqb (a b : FormulaType) : bool := bool_decide (a = b).

(** [self.type.name] *)
Definition type_name (t : FormulaType) : string :=
  match t with
  | AND => "AND" | OR => "OR" | NOT => "NOT" | IMPL => "IMPL" | VAR => "VAR"
  end.

#[warnings="-register-all"]
Inductive Formula : Type :=
  mkFormula { type : FormulaType; children : list Formula; value : string }.

(** [l[i]] on a Python list. *)
Definition index {A : Type} (l : list A) (i : nat) : result A :=
  match nth_error l i with
  | Some a => Ok a
  | None => Raise IndexError
  end.

(** [is_equal] on two formulas that are not [None].  The recursion is on
    [f1]; its children are reached by pattern matching, [f2.children[i]] by
    [index].  The order of evaluation is the source's: the direct match is
    computed with a short-circuit [and], then the swapped match, then their
    disjunction. *)
Fixpoint is_equal_formula (f1 f2 : Formula) {struct f1} : result bool :=
  match f1 with
  | mkFormula t1 ch1 v1 =>
    if negb (FormulaType_eqb t1 (type f2)) then Ok false else
    match t1 with
    | VAR => Ok (String.eqb v1 (value f2))
    | NOT =>
      match ch1 with
      | a :: _ => let* b := index (children f2) 0 in is_equal_formula a b
      | [] => Raise IndexError
      end
    | AND | OR =>
      let* direct_match :=
        match ch1 with
        | a0 :: rest =>
          and_then (let* b0 := index (children f2) 0 in is_equal_formula a0 b0)
                   match rest with
                   | a1 :: _ => let* b1 := index (children f2) 1 in is_equal_formula a1 b1
                   | [] => Raise IndexError
                   end
        | [] => Raise IndexError
        end in
      let* swapped_match :=
        match ch1 with
        | a0 :: rest =>
          and_then (let* b1 := index (children f2) 1 in is_equal_formula a0 b1)
                   match rest with
                   | a1 :: _ => let* b0 := index (children f2) 0 in is_equal_formula a1 b0
                   | [] => Raise IndexError
                   end
        | [] => Raise IndexError
        end in
      Ok (direct_match || swapped_match)
    | IMPL =>
      match ch1 with
      | a0 :: rest =>
        and_then (let* b0 := index (children f2) 0 in is_equal_formula a0 b0)
                 match rest with
                 | a1 :: _ => let* b1 := index (children f2) 1 in is_equal_formula a1 b1
                 | [] => Raise IndexError
                 end
      | [] => Raise IndexError
      end
    end
  end.

(** [is_equal(f1, f2)], where either argument may be [None]. *)
Definition is_equal (f1 f2 : option Formula) : result bool :=
  match f1, f2 with
  | None, None => Ok true
  | None, Some _ | Some _, None => Ok false
  | Some a, Some b => is_equal_formula a b
  end.

(** The construction helpers of the source.  [Impl] and [Not] leave [value]
    at the dataclass default, the empty string. *)
Definition Var (name : string) : Formula := mkFormula VAR [] name.
Definition Impl (left right : Formula) : Formula := mkFormula IMPL [left; right] "".
Definition Not (f : Formula) : Formula := mkFormula NOT [f] "".

(** ** Well-formed formulas

    The arity invariant of the data model: a variable has no child, a
    negation exactly one, a binary connective exactly two. *)
Fixpoint well_formed (f : Formula) : bool :=
  match f with
  | mkFormula t ch _ =>
    match t, ch with
    | VAR, [] => true
    | NOT, [c] => well_formed c
    | (AND | OR | IMPL), [l; r] => well_formed l && well_formed r
    | _, _ => false
    end
  end.

Definition is_binary (t : FormulaType) : bool :=
  match t with
  | AND | OR | IMPL => true
  | NOT | VAR => false
  end.

Inductive wf_view : Formula -> Prop :=
| view_var v : wf_view (mkFormula VAR [] v)
| view_not c v :
    well_formed c = true -> wf_view (mkFormula NOT [c] v)
| view_bin t l r v :
    is_binary t = true -> well_formed l = true -> well_formed r = true ->
    wf_view (mkFormula t [l; r] v).

(** The boolean read off a run of [is_equal]; an exception reads as [false]. *)
Definition equal (a b : Formula) : bool :=
  match is_equal_formula a b with
  | Ok true => true
  | _ => false
  end.


(** ** Hashing

    [hash] is Python's builtin.  Its value on a string, on an integer and
    on a tuple (a function of the hashes of the tuple's items) is left
    open: whatever these three functions are, the results below hold. *)
Class PyHash : Type := {
  hash_str : string -> Z;
  hash_int : Z -> Z;
  hash_tuple : list Z -> Z
}.

(** [sorted] on a list of integers. *)
Fixpoint insert_sorted (x : Z) (l : list Z) : list Z :=
  match l with
  | [] => [x]
  | y :: l' => if (x <=? y) then x :: l else y :: insert_sorted x l'
  end.

Definition sorted (l : list Z) : list Z := fold_right insert_sorted [] l.

Section Hash.
Context `{PyHash}.

(** [Formula.__hash__].  The hashes of all children are computed first,
    left to right, for every node that is not a variable. *)
Fixpoint hash_formula (f : Formula) : result Z :=
  match f with
  | mkFormula t ch v =>
    if FormulaType_eqb t VAR then
      Ok (hash_tuple [hash_str "VAR"; hash_str v])
    else
      let* children_hash :=
        (fix hash_children (l : list Formula) : result (list Z) :=
           match l with
           | [] => Ok []
           | child :: l' =>
             let* h := hash_formula child in
             let* hs := hash_children l' in
             Ok (h :: hs)
           end) ch in
      if FormulaType_eqb t NOT then
        let* h0 := index children_hash 0 in
        Ok (hash_tuple [hash_str "NOT"; hash_int h0])
      else if FormulaType_eqb t AND || FormulaType_eqb t OR then
        let child_hashes := sorted children_hash in
        Ok (hash_tuple [hash_str (type_name t);
                        hash_tuple (map hash_int child_hashes)])
      else
        let* h0 := index children_hash 0 in
        let* h1 := index children_hash 1 in
        Ok (hash_tuple [hash_str (type_name t); hash_int h0; hash_int h1])
  end.

(** The hashes of the items of a tuple of formulas, left to right. *)
Fixpoint hash_formulas (l : list Formula) : result (list Z) :=
  match l with
  | [] => Ok []
  | f :: l' =>
    let* h := hash_formula f in
    let* hs := hash_formulas l' in
    Ok (h :: hs)
  end.
End Hash.

(** ** Printer *)

Definition type2str (formula_type : FormulaType) : string :=
  match formula_type with
  | AND => "and"
  | OR => "or"
  | NOT => "not"
  | IMPL => "implies"
  | VAR => ""
  end.

Definition str2type (formula_type : string) : FormulaType :=
  if String.eqb formula_type "and" then AND
  else if String.eqb formula_type "or" then OR
  else if String.eqb formula_type "not" then NOT
  else if String.eqb formula_type "implies" then IMPL
  else VAR.

Fixpoint formula2str (formula : Formula) : result string :=
  match formula with
  | mkFormula t ch v =>
    match t with
    | VAR => Ok v
    | NOT =>
      match ch with
      | c0 :: _ =>
        let* s0 := formula2str c0 in
        Ok ("(" +:+ type2str t +:+ " " +:+ s0 +:+ ")")
      | [] => Raise IndexError
      end
    | IMPL | AND | OR =>
      match ch with
      | c0 :: rest =>
        let* s0 := formula2str c0 in
        match rest with
        | c1 :: _ =>
          let* s1 := formula2str c1 in
          Ok ("(" +:+ type2str t +:+ " " +:+ s0 +:+ " " +:+ s1 +:+ ")")
        | [] => Raise IndexError
        end
      | [] => Raise IndexError
      end
    end
  end.

(** ** Parser

    The state of a [Parser] object: [pos], and the text from [pos] on
    ([formula_str[pos:]]), so that [pos < len] reads "the unread text is
    not empty" and [formula_str[pos]] is its first character. *)
Record Parser : Type := mkParser { pos : nat; unread : string }.

(** [Parser(formula_str)] *)
Definition Parser_init (formula_str : string) : Parser := mkParser 0 formula_str.

(** [str.isspace] on one character, for code points below 256. *)
Definition isspace (c : ascii) : bool :=
  let n := Ascii.N_of_ascii c in
  ((9 <=? n) && (n <=? 13) || (28 <=? n) && (n <=? 32) || (n =? 133) || (n =? 160))%N.

(** [c in "()"] for a one-character string [c]. *)
Definition is_paren (c : ascii) : bool :=
  Ascii.eqb c "("%char || Ascii.eqb c ")"%char.

Fixpoint skip_whitespace_from (pos : nat) (s : string) : Parser :=
  match s with
  | String c s' => if isspace c then skip_whitespace_from (S pos) s' else mkParser pos s
  | EmptyString => mkParser pos s
  end.

Definition skip_whitespace (self : Parser) : Parser :=
  skip_whitespace_from (pos self) (unread self).

(** The [while self.pos != self.len] loop of [read_token]. *)
Fixpoint read_word (token : string) (pos : nat) (s : string) : string * Parser :=
  match s with
  | String c s' =>
    if Ascii.eqb c " "%char || is_paren c then (token, mkParser pos s)
    else read_word (token +:+ String c "") (S pos) s'
  | EmptyString => (token, mkParser pos s)
  end.

Definition read_token (self : Parser) : string * Parser :=
  let self := skip_whitespace self in
  match unread self with
  | EmptyString => ("", self)
  | String c s' =>
    if is_paren c then (String c "", mkParser (S (pos self)) s')
    else read_word "" (pos self) (unread self)
  end.

(** The message of the exception raised where [")"] was expected. *)
Definition expected_close (self : Parser) : exn :=
  RuntimeError ("wrong syntax: expected ) at " +:+ pretty (Z.of_nat (pos self) - 1)).

Definition unexpected_end : exn :=
  RuntimeError "wrong syntax: unexpected end of formula".

(** Computations that may run out of fuel ([None]) or raise. *)
Definition fbind {A B : Type} (m : option (result A))
    (k : A -> option (result B)) : option (result B) :=
  match m with
  | Some (Ok a) => k a
  | Some (Raise e) => Some (Raise e)
  | None => None
  end.

Notation "'let+' x ':=' m 'in' k" := (fbind m (fun x => k))
  (at level 10, x pattern, m at level 200, k at level 200).

(** [read_token] followed by the check [close_paren != ")"]. *)
Definition read_close {A : Type} (self : Parser) (a : A) : option (result (A * Parser)) :=
  let (close_paren, self) := read_token self in
  if negb (String.eqb close_paren ")") then Some (Raise (expected_close self))
  else Some (Ok (a, self)).

(** [Parser.parse_formula].  [fuel] bounds the depth of the recursion; the
    last branch of the source's [match formula_type] is not reachable, for
    [str2type] returns one of the five types. *)
Fixpoint parse_formula (fuel : nat) (self : Parser) : option (result (Formula * Parser)) :=
  match fuel with
  | O => None
  | S fuel =>
    let (token, self) := read_token self in
    if String.eqb token "(" then
      let (op_token, self) := read_token self in
      let formula_type := str2type op_token in
      match formula_type with
      | NOT =>
        let+ (child, self) := parse_formula fuel self in
        read_close self (mkFormula formula_type [child] (type2str formula_type))
      | AND | OR | IMPL =>
        let+ (left_child, self) := parse_formula fuel self in
        let+ (right_child, self) := parse_formula fuel self in
        read_close self
          (mkFormula formula_type [left_child; right_child] (type2str formula_type))
      | VAR =>
        let var := mkFormula formula_type [] op_token in
        read_close self var
      end
    else
      if String.eqb token "" then Some (Raise unexpected_end)
      else Some (Ok (mkFormula VAR [] token, self))
  end.

(** [Parser(text).parse_formula()], with fuel for every character. *)
Definition parse (text : string) : option (result Formula) :=
  let+ (formula, _) := parse_formula (S (String.length text)) (Parser_init text) in
  Some (Ok formula).

(** Names the parser reads back as they are: not empty, and no character
    that is white space or a parenthesis. *)
Definition name_char (c : ascii) : bool := negb (isspace c) && negb (is_paren c).

Fixpoint all_name_chars (s : string) : bool :=
  match s with
  | EmptyString => true
  | String c s' => name_char c && all_name_chars s'
  end.

Definition valid_name (name : string) : bool :=
  negb (String.eqb name "") && all_name_chars name.

Fixpoint names_valid (f : Formula) : bool :=
  match f with
  | mkFormula t ch v =>
    match t with
    | VAR => valid_name v
    | _ => forallb names_valid ch
    end
  end.

(** What may follow a token: the end of the text, a space or a
    parenthesis. *)
Definition delimited (rest : string) : bool :=
  match rest with
  | EmptyString => true
  | String c _ => Ascii.eqb c " "%char || is_paren c
  end.

(** [len(formula_str)], from the state of the parser. *)
Definition text_length (self : Parser) : nat :=
  (pos self + String.length (unread self))%nat.

(** The printed text of a well-formed formula with valid names parses back
    to an equal formula, whatever follows it after a delimiter; and when
    the closing parenthesis of a compound formula is missing at the end of
    the text, the parser raises. *)
Definition parses_back (f : Formula) (s : string) (g : Formula) (n : nat) : Prop :=
  (forall fuel p rest, (n <= fuel)%nat -> delimited rest = true ->
     parse_formula fuel (mkParser p (s +:+ rest)) =
     Some (Ok (g, mkParser (p + String.length s) rest))) /\
  (type f <> VAR ->
   exists body, s = body +:+ ")" /\
     forall fuel p, (n <= fuel)%nat ->
       parse_formula fuel (mkParser p body) =
       Some (Raise (expected_close (mkParser (p + String.length body) "")))).


(** ** Normalizer *)

(** [normalize_formula] on a formula that is not [None]. *)
Fixpoint normalize_formula_node (formula : Formula) : result Formula :=
  match formula with
  | mkFormula t ch v =>
    match t with
    | AND =>
      match ch with
      | c0 :: rest =>
        let* left_child := normalize_formula_node c0 in
        match rest with
        | c1 :: _ =>
          let* right_child := normalize_formula_node c1 in
          let new_right := mkFormula NOT [right_child] (type2str NOT) in
          let impl_formula := mkFormula IMPL [left_child; new_right] (type2str IMPL) in
          Ok (mkFormula NOT [impl_formula] (type2str NOT))
        | [] => Raise IndexError
        end
      | [] => Raise IndexError
      end
    | OR =>
      match ch with
      | c0 :: rest =>
        let* left_child := normalize_formula_node c0 in
        match rest with
        | c1 :: _ =>
          let* right_child := normalize_formula_node c1 in
          let new_left := mkFormula NOT [left_child] (type2str NOT) in
          Ok (mkFormula IMPL [new_left; right_child] (type2str IMPL))
        | [] => Raise IndexError
        end
      | [] => Raise IndexError
      end
    | _ => Ok formula
    end
  end.

(** [normalize_formula(formula)]; [not formula] holds of [None] only, a
    [Formula] object being always truthy. *)
Definition normalize_formula (formula : option Formula) : result (option Formula) :=
  match formula with
  | None => Ok None
  | Some f => let* g := normalize_formula_node f in Ok (Some g)
  end.

(** ** Pattern matching and substitution *)

Fixpoint copy_formula (f : Formula) : Formula :=
  match f with
  | mkFormula t ch v => mkFormula t (map copy_formula ch) v
  end.

(** [match_pattern(pattern, target, substitution)].  The dictionary is
    passed and returned; the default [None] of the source stands for the
    empty dictionary.  [None] as a result is "no match". *)
Fixpoint match_pattern (pattern target : Formula)
    (substitution : gmap string Formula) : result (option (gmap string Formula)) :=
  match pattern with
  | mkFormula pt pch var_name =>
    if FormulaType_eqb pt VAR then
      match substitution !! var_name with
      | Some bound =>
        let* same := is_equal (Some bound) (Some target) in
        if negb same then Ok None else Ok (Some substitution)
      | None => Ok (Some (<[var_name := copy_formula target]> substitution))
      end
    else if negb (FormulaType_eqb pt (type target)) then Ok None
    else if FormulaType_eqb pt NOT then
      match pch, children target with
      | [p0], [t0] => match_pattern p0 t0 substitution
      | _, _ => Ok None
      end
    else if is_binary pt then
      match pch, children target with
      | [p0; p1], [t0; t1] =>
        let* substitution := match_pattern p0 t0 substitution in
        match substitution with
        | None => Ok None
        | Some substitution => match_pattern p1 t1 substitution
        end
      | _, _ => Ok None
      end
    else Ok None
  end.

Fixpoint apply_substitution (pattern : Formula)
    (substitution : gmap string Formula) : Formula :=
  match pattern with
  | mkFormula t ch v =>
    if FormulaType_eqb t VAR then
      match substitution !! v with
      | Some bound => copy_formula bound
      | None => Var v
      end
    else
      mkFormula t (map (fun child => apply_substitution child substitution) ch) v
  end.

(** ** Proofs and the proof cache *)

(** A proof is a Python list of tagged tuples; [prove] builds lists of one
    tuple. *)
#[warnings="-register-all"]
Inductive ProofStep : Type :=
| hypothesis (i : nat) (target : Formula)
| deduction (left right : Formula) (proof_right : list ProofStep)
| mp (i : nat) (proof_left : list ProofStep) (target : Formula)
| axiom (axiom_idx : nat) (substitution : gmap string Formula) (target : Formula).

(** The key [(target, tuple(hypotheses), depth)]. *)
Record CacheKey : Type :=
  mkKey { key_target : Formula; key_hypotheses : list Formula; key_depth : Z }.

(** [==] on two tuples of formulas: items are compared with [is_equal],
    left to right, up to the first difference; then the lengths.  Python
    takes two items that are the same object for equal without calling
    [is_equal]; on well-formed formulas [is_equal] says the same, being
    reflexive there. *)
Fixpoint tuple_eq (v w : list Formula) : result bool :=
  match v, w with
  | x :: v', y :: w' =>
    let* k := is_equal (Some x) (Some y) in
    if k then tuple_eq v' w' else Ok false
  | [], [] => Ok true
  | _, _ => Ok false
  end.

Definition key_eq (k1 k2 : CacheKey) : result bool :=
  let* t := is_equal (Some (key_target k1)) (Some (key_target k2)) in
  if negb t then Ok false else
  let* h := tuple_eq (key_hypotheses k1) (key_hypotheses k2) in
  if negb h then Ok false else
  Ok (key_depth k1 =? key_depth k2).

(** An entry of the dictionary: the key's hash, the key, the value. *)
Record CacheEntry : Type :=
  mkEntry { me_hash : Z; me_key : CacheKey; me_value : list ProofStep }.

Section Dict.
Context `{PyHash}.

Definition hash_key (k : CacheKey) : result Z :=
  let* ht := hash_formula (key_target k) in
  let* hs := hash_formulas (key_hypotheses k) in
  Ok (hash_tuple [ht; hash_tuple hs; hash_int (key_depth k)]).

(** The entry of [cache] that a lookup of [key] (of hash [h]) finds: one
    with the same hash and an equal key.  The stored key is the left
    operand of the comparison.  Entries are kept in the order of their
    insertion; at most one entry is equal to a well-formed key, so the
    order of the probes does not show. *)
Fixpoint dict_find (cache : list CacheEntry) (h : Z) (key : CacheKey)
    : result (option CacheEntry) :=
  match cache with
  | [] => Ok None
  | e :: cache' =>
    if me_hash e =? h then
      let* same := key_eq (me_key e) key in
      if same then Ok (Some e) else dict_find cache' h key
    else dict_find cache' h key
  end.

(** [cache.get(key)]: [key in cache] followed by [cache[key]]. *)
Definition dict_get (cache : list CacheEntry) (key : CacheKey)
    : result (option (list ProofStep)) :=
  let* h := hash_key key in
  let* e := dict_find cache h key in
  Ok (me_value <$> e).

Fixpoint dict_replace (cache : list CacheEntry) (h : Z) (key : CacheKey)
    (v : list ProofStep) : result (option (list CacheEntry)) :=
  match cache with
  | [] => Ok None
  | e :: cache' =>
    let* same := (if me_hash e =? h then key_eq (me_key e) key else Ok false) in
    if same then Ok (Some (mkEntry (me_hash e) (me_key e) v :: cache'))
    else
      let* r := dict_replace cache' h key v in
      Ok (cons e <$> r)
  end.

(** [cache[key] = v]: the value of an equal key is replaced, a new key is
    added. *)
Definition dict_set (cache : list CacheEntry) (key : CacheKey) (v : list ProofStep)
    : result (list CacheEntry) :=
  let* h := hash_key key in
  let* r := dict_replace cache h key v in
  match r with
  | Some cache' => Ok cache'
  | None => Ok (cache ++ [mkEntry h key v])
  end.
End Dict.

(** Well-formed keys and caches: the formulas of every key satisfy the
    arity invariant. *)
Definition key_well_formed (k : CacheKey) : bool :=
  well_formed (key_target k) && forallb well_formed (key_hypotheses k).

Definition cache_well_formed (cache : list CacheEntry) : bool :=
  forallb (fun e => key_well_formed (me_key e)) cache.

(** Every binding of a substitution is a well-formed formula. *)
Definition bindings_well_formed (s : gmap string Formula) : Prop :=
  map_Forall (fun _ f => well_formed f = true) s.


(** ** The prover *)

Record Prover : Type :=
  mkProver { proof_cache : list CacheEntry; axioms : list Formula }.

Definition axiom_texts : list string :=
  [ "(implies A (implies B A))";
    "(implies (implies A (implies B C)) (implies (implies A B) (implies A C)))";
    "(implies (implies (not B) (not A)) (implies (implies (not B) A) B))";
    "(implies A A)" ].

Fixpoint parse_all (texts : list string) : option (result (list Formula)) :=
  match texts with
  | [] => Some (Ok [])
  | ax :: texts' =>
    let+ f := parse ax in
    let+ fs := parse_all texts' in
    Some (Ok (f :: fs))
  end.

(** [Prover()] *)
Definition Prover_init : option (result Prover) :=
  let+ parsed := parse_all axiom_texts in
  Some (Ok (mkProver [] parsed)).

(** A computation that raises or returns, as one that cannot run out of
    fuel. *)
Definition lift {A : Type} (m : result A) : option (result A) := Some m.

(** The first loop of [prove]: the index of the first hypothesis equal to
    [target], counting from [i]. *)
Fixpoint find_hypothesis (hypotheses : list Formula) (target : Formula) (i : nat)
    : result (option nat) :=
  match hypotheses with
  | [] => Ok None
  | hyp :: rest =>
    let* same := is_equal (Some hyp) (Some target) in
    if same then Ok (Some i) else find_hypothesis rest target (S i)
  end.

(** The last loop of [prove]: the first axiom, counting from [axiom_idx],
    that matches [target], with its number (from 1) and the substitution. *)
Fixpoint match_axioms (axioms : list Formula) (target : Formula) (axiom_idx : nat)
    : result (option (nat * gmap string Formula)) :=
  match axioms with
  | [] => Ok None
  | ax :: rest =>
    let* substitution := match_pattern ax target ∅ in
    match substitution with
    | Some substitution => Ok (Some ((axiom_idx + 1)%nat, substitution))
    | None => match_axioms rest target (S axiom_idx)
    end
  end.

(** The test of the modus ponens loop,
    [hyp.type == FormulaType.IMPL and hyp.children[1] == target]. *)
Definition detaches (hyp target : Formula) : result bool :=
  if FormulaType_eqb (type hyp) IMPL then
    let* conclusion := index (children hyp) 1 in
    is_equal (Some conclusion) (Some target)
  else Ok false.

Section Prove.
Context `{PyHash}.

(** [self.proof_cache[cache_key] = proof] *)
Definition remember (self : Prover) (cache_key : CacheKey) (proof : list ProofStep)
    : result Prover :=
  let* cache := dict_set (proof_cache self) cache_key proof in
  Ok (mkProver cache (axioms self)).

(** The modus ponens loop of [prove] over the hypotheses from index [i]
    on; [prove_left self left] is the recursive call
    [self.prove(left, hypotheses, depth + 1, max_depth)]. *)
Fixpoint mp_loop
    (prove_left : Prover -> Formula -> option (result (option (list ProofStep) * Prover)))
    (self : Prover) (rest : list Formula) (i : nat) (target : Formula)
    : option (result (option (nat * list ProofStep) * Prover)) :=
  match rest with
  | [] => Some (Ok (None, self))
  | hyp :: rest' =>
    let+ applies := lift (detaches hyp target) in
    if applies : bool then
      let+ left_ := lift (index (children hyp) 0) in
      let+ (proof_left, self) := prove_left self left_ in
      match proof_left with
      | Some proof_left => Some (Ok (Some (i, proof_left), self))
      | None => mp_loop prove_left self rest' (S i) target
      end
    else mp_loop prove_left self rest' (S i) target
  end.

(** [Prover.prove].  [fuel] bounds the depth of the recursion.  The
    result is the returned proof ([None] for "no proof found") and the
    prover with its cache as the call leaves it. *)
Fixpoint prove (fuel : nat) (self : Prover) (target : Formula)
    (hypotheses : list Formula) (depth max_depth : Z)
    : option (result (option (list ProofStep) * Prover)) :=
  match fuel with
  | O => None
  | S fuel =>
    let cache_key := mkKey target hypotheses depth in
    let+ cached := lift (dict_get (proof_cache self) cache_key) in
    match cached with
    | Some proof => Some (Ok (Some proof, self))
    | None =>
      if depth >? max_depth then Some (Ok (None, self)) else
      let+ found := lift (find_hypothesis hypotheses target 0) in
      match found with
      | Some i =>
        let proof := [hypothesis i target] in
        let+ self := lift (remember self cache_key proof) in
        Some (Ok (Some proof, self))
      | None =>
        let+ (deduced, self) :=
          if FormulaType_eqb (type target) IMPL then
            let+ left_ := lift (index (children target) 0) in
            let+ right_ := lift (index (children target) 1) in
            let new_hypotheses := hypotheses ++ [left_] in
            let+ (proof_right, self) :=
              prove fuel self right_ new_hypotheses (depth + 1) max_depth in
            match proof_right with
            | Some proof_right =>
              Some (Ok (Some [deduction left_ right_ proof_right], self))
            | None => Some (Ok (None, self))
            end
          else Some (Ok (None, self)) in
        match deduced with
        | Some proof =>
          let+ self := lift (remember self cache_key proof) in
          Some (Ok (Some proof, self))
        | None =>
          let+ (detached, self) :=
            mp_loop (fun self left_ => prove fuel self left_ hypotheses (depth + 1) max_depth)
                    self hypotheses 0 target in
          match detached with
          | Some (i, proof_left) =>
            let proof := [mp i proof_left target] in
            let+ self := lift (remember self cache_key proof) in
            Some (Ok (Some proof, self))
          | None =>
            let+ matched := lift (match_axioms (axioms self) target 0) in
            match matched with
            | Some (axiom_idx, substitution) =>
              let proof := [axiom axiom_idx substitution target] in
              let+ self := lift (remember self cache_key proof) in
              Some (Ok (Some proof, self))
            | None => Some (Ok (None, self))
            end
          end
        end
      end
    end
  end.

(** Fuel that lets [prove] reach every depth up to [max_depth] and the
    call that is refused beyond it. *)
Definition prove_fuel (depth max_depth : Z) : nat :=
  S (Z.to_nat (max_depth + 1 - depth)).
End Prove.

(** ** Well-formed prover states and results *)

Definition prover_well_formed (self : Prover) : Prop :=
  cache_well_formed (proof_cache self) = true.

(** A result that is not an exception and leaves a well-formed cache and
    the same axioms. *)
Definition safe_result {A : Type} (self : Prover) (res : result (A * Prover)) : Prop :=
  exists a self', res = Ok (a, self') /\
                  prover_well_formed self' /\ axioms self' = axioms self.


(** ** Running the prover on a text *)

(** A hash for the examples: any three functions do. *)
Definition sample_hash : PyHash :=
  {| hash_str := fun s => Z.of_nat (String.length s);
     hash_int := fun z => z;
     hash_tuple := fun l => fold_right (fun x acc => x + 31 * acc) 7 l |}.

(** The prover that [Prover()] returns: an empty cache and the four parsed
    axioms. *)
Definition initial_prover : Prover :=
  Eval vm_compute in
    match Prover_init with
    | Some (Ok p) => p
    | _ => mkProver [] []
    end.

(** [Prover().prove(Parser(text).parse_formula())]: the proof returned for
    the parsed formula, with no hypotheses, [depth = 0] and
    [max_depth = 1000]. *)
Definition prove_text `{PyHash} (text : string)
    : option (result (option (list ProofStep))) :=
  let+ self := Prover_init in
  let+ target := parse text in
  let+ (proof, _) := prove (prove_fuel 0 1000) self target [] 0 1000 in
  Some (Ok proof).

(** The same query twice on one prover: first with [max_depth = 1000],
    then with [max_depth = 0], both at [depth = 1]. *)
Definition prove_again `{PyHash} : option (result (option (list ProofStep))) :=
  let+ self := Prover_init in
  let+ (_, self) := prove (prove_fuel 1 1000) self (Var "A") [Var "A"] 1 1000 in
  let+ (proof, _) := prove (prove_fuel 1 0) self (Var "A") [Var "A"] 1 0 in
  Some (Ok proof).




(** ** Sample formulas *)

(** Three texts of the same disjunction, with operands swapped at two
    depths. *)
Definition or_and_not : Formula :=
  mkFormula OR [mkFormula AND [Var "A"; Var "B"] "and"; mkFormula NOT [Var "C"] "not"] "or".
Definition or_not_and : Formula :=
  mkFormula OR [mkFormula NOT [Var "C"] "not"; mkFormula AND [Var "A"; Var "B"] "and"] "or".
Definition or_not_and_swapped : Formula :=
  mkFormula OR [mkFormula NOT [Var "C"] "not"; mkFormula AND [Var "B"; Var "A"] "and"] "or".

(** The pattern and the target of the test suite. *)
Definition pattern_k : Formula := Impl (Var "P") (Impl (Var "Q") (Var "P")).
Definition target_k : Formula := Impl (Var "A") (Impl (Not (Var "B")) (Var "A")).
Definition subst_k : gmap string Formula :=
  <["Q" := Not (Var "B")]> (<["P" := Var "A"]> ∅).


(** ** The rules of the search, one hypothesis at a time *)



(** ** Truth values

    The classical reading of the five connectives, under a valuation of
    the variable names.  It is what the deduction rule, modus ponens and
    the four axioms of the prover are sound for, and what the encodings of
    the normalizer keep. *)
Fixpoint eval (v : string -> bool) (f : Formula) : bool :=
  match f with
  | mkFormula t ch name =>
    match t, ch with
    | VAR, _ => v name
    | NOT, c :: _ => negb (eval v c)
    | AND, l :: r :: _ => eval v l && eval v r
    | OR, l :: r :: _ => eval v l || eval v r
    | IMPL, l :: r :: _ => implb (eval v l) (eval v r)
    | _, _ => false
    end
  end.

(** [target] is true under every valuation that makes all of [hypotheses]
    true. *)
Definition entails (hypotheses : list Formula) (target : Formula) : Prop :=
  forall v, forallb (eval v) hypotheses = true -> eval v target = true.

Definition tautology (f : Formula) : Prop := forall v, eval v f = true.

(** The valuation that reads a bound name as the truth value of its
    binding. *)
Definition subst_valuation (v : string -> bool) (s : gmap string Formula)
    : string -> bool :=
  fun name =>
    match s !! name with
    | Some bound => eval v bound
    | None => v name
    end.

(** Every key of the cache is a true sequent. *)
Definition cache_sound (cache : list CacheEntry) : Prop :=
  Forall (fun e => entails (key_hypotheses (me_key e)) (key_target (me_key e))) cache.

(** ** The entry point

    [main()] with its text [exp] as a parameter: parse, normalize, prove
    on a fresh prover.  The value is the proof that [main] prints.  A parsed
    formula is not [None], so the normalizer is entered at the node. *)
Definition main_with `{PyHash} (exp : string)
    : option (result (option (list ProofStep))) :=
  let+ f := parse exp in
  let+ f := lift (normalize_formula_node f) in
  let+ self := Prover_init in
  let+ (proof, _) := prove (prove_fuel 0 1000) self f [] 0 1000 in
  Some (Ok proof).

Definition main `{PyHash} : option (result (option (list ProofStep))) :=
  main_with "(implies A A)".

(** A result of the search that is not an exception, leaves a well-formed
    cache of true sequents and the same axioms, and whose proof, when there
    is one, stands for a true sequent. *)
Definition sound_result {A : Type} (self : Prover) (hypotheses : list Formula)
    (target : Formula) (res : result (option A * Prover)) : Prop :=
  exists r self',
    res = Ok (r, self') /\
    prover_well_formed self' /\ cache_sound (proof_cache self') /\
    axioms self' = axioms self /\
    (r <> None -> entails hypotheses target).

(** Every variable of [pattern] has a binding in [s]. *)
Fixpoint variables_bound (pattern : Formula) (s : gmap string Formula) : bool :=
  match pattern with
  | mkFormula t ch name =>
    match t with
    | VAR => bool_decide (is_Some (s !! name))
    | _ => forallb (fun child => variables_bound child s) ch
    end
  end.

(** Characters that the loop of [read_token] takes into a token: all but
    the space and the parentheses. *)
Definition word_char (c : ascii) : bool :=
  negb (Ascii.eqb c " "%char || is_paren c).

Fixpoint all_word_chars (s : string) : bool :=
  match s with
  | EmptyString => true
  | String c s' => word_char c && all_word_chars s'
  end.

(** A token as [read_token] reads it after the white space: it starts with
    a character that is no white space, and goes on with characters other
    than the space and the parentheses. *)
Definition is_word (w : string) : bool :=
  match w with
  | EmptyString => false
  | String c _ => negb (isspace c) && all_word_chars w
  end.

(** [cache'] is [cache] followed by new entries, whose keys have depth [d]
    at least. *)
Definition cache_extended_from (d : Z) (cache cache' : list CacheEntry) : Prop :=
  exists added,
    cache' = cache ++ added /\
    Forall (fun e => d <= key_depth (me_key e)) added.

(** A text of white space only. *)
Fixpoint all_space (s : string) : bool :=
  match s with
  | EmptyString => true
  | String c s' => isspace c && all_space s'
  end.

(** The parser [self] on a text with [k] more characters before it. *)
Definition shift (k : nat) (self : Parser) : Parser :=
  mkParser (k + pos self) (unread self).

(** Two results of the parser that differ by [k] in the position only:
    the same value, or an exception on both sides. *)
Definition same_parse {A : Type} (k : nat) (r r' : option (result (A * Parser)))
    : Prop :=
  match r, r' with
  | Some (Ok (a, st)), Some (Ok (a', st')) => a' = a /\ st' = shift k st
  | Some (Raise _), Some (Raise _) => True
  | None, None => True
  | _, _ => False
  end.
(** * Properties of the embedding *)

Lemma well_formed_view f : well_formed f = true -> wf_view f.
Proof.
  destruct f as [t ch v].
  destruct t, ch as [|a [|b [|c ch]]]; simpl; try discriminate; intros H;
    try (apply andb_prop in H as [? ?]); constructor; auto.
Qed.

Lemma view_well_formed f : wf_view f -> well_formed f = true.
Proof.
  destruct 1 as [v|c v Hc|t l r v Ht Hl Hr]; simpl; auto.
  destruct t; try discriminate; rewrite Hl, Hr; reflexivity.
Qed.

(** Induction over well-formed formulas. *)
Lemma well_formed_ind (P : Formula -> Prop) :
  (forall v, P (mkFormula VAR [] v)) ->
  (forall c v, well_formed c = true -> P c -> P (mkFormula NOT [c] v)) ->
  (forall t l r v, is_binary t = true ->
     well_formed l = true -> well_formed r = true ->
     P l -> P r -> P (mkFormula t [l; r] v)) ->
  forall f, well_formed f = true -> P f.
Proof.
  intros Hvar Hnot Hbin.
  fix IH 1.
  intros [t ch v] Hwf.
  destruct t, ch as [|a [|b [|c ch]]]; simpl in Hwf; try discriminate;
    try (apply andb_prop in Hwf as [Ha Hb]);
    first [ apply Hvar
          | apply Hnot; [assumption | apply IH; assumption]
          | apply Hbin; [reflexivity | assumption | assumption
                        | apply IH; assumption | apply IH; assumption] ].
Qed.

(** [wf_induction a H] performs induction over well-formed formulas on [a], where
    [H : well_formed a = true]; the goal must not depend on other facts
    about [a]. *)
Ltac wf_induction a H :=
  pattern a; revert a H; apply well_formed_ind.

(** ** Equality on well-formed formulas *)

Lemma is_equal_var v f2 :
  is_equal_formula (mkFormula VAR [] v) f2 =
  Ok (FormulaType_eqb VAR (type f2) && String.eqb v (value f2)).
Proof. simpl. destruct (FormulaType_eqb VAR (type f2)); reflexivity. Qed.

Lemma is_equal_mismatch t1 ch1 v1 f2 :
  t1 <> type f2 -> is_equal_formula (mkFormula t1 ch1 v1) f2 = Ok false.
Proof.
  intros H. simpl. unfold FormulaType_eqb.
  rewrite bool_decide_eq_false_2 by assumption. reflexivity.
Qed.

Lemma is_equal_not a v b w :
  is_equal_formula (mkFormula NOT [a] v) (mkFormula NOT [b] w) =
  is_equal_formula a b.
Proof. reflexivity. Qed.

Lemma is_equal_impl a0 a1 v b0 b1 w :
  is_equal_formula (mkFormula IMPL [a0; a1] v) (mkFormula IMPL [b0; b1] w) =
  and_then (is_equal_formula a0 b0) (is_equal_formula a1 b1).
Proof. reflexivity. Qed.

Lemma is_equal_and a0 a1 v b0 b1 w :
  is_equal_formula (mkFormula AND [a0; a1] v) (mkFormula AND [b0; b1] w) =
  let* d := and_then (is_equal_formula a0 b0) (is_equal_formula a1 b1) in
  let* s := and_then (is_equal_formula a0 b1) (is_equal_formula a1 b0) in
  Ok (d || s).
Proof. reflexivity. Qed.

Lemma is_equal_or a0 a1 v b0 b1 w :
  is_equal_formula (mkFormula OR [a0; a1] v) (mkFormula OR [b0; b1] w) =
  let* d := and_then (is_equal_formula a0 b0) (is_equal_formula a1 b1) in
  let* s := and_then (is_equal_formula a0 b1) (is_equal_formula a1 b0) in
  Ok (d || s).
Proof. reflexivity. Qed.

(** On well-formed formulas [is_equal] raises nothing. *)
Lemma is_equal_total a :
  well_formed a = true ->
  forall b, well_formed b = true -> is_equal_formula a b = Ok (equal a b).
Proof.
  intros Ha. wf_induction a Ha;
    [intros v|intros c v Hc IHc|intros t l r v Ht Hl Hr IHl IHr];
    intros b Hb; unfold equal.
  - rewrite is_equal_var. destruct (_ && _); reflexivity.
  - destruct (well_formed_view b Hb) as [w|d w Hd|u l' r' w Hu Hl' Hr'].
    + rewrite is_equal_mismatch by discriminate. reflexivity.
    + rewrite is_equal_not, (IHc d Hd). destruct (equal c d); reflexivity.
    + rewrite is_equal_mismatch by (simpl; destruct u; discriminate). reflexivity.
  - destruct (well_formed_view b Hb) as [w|d w Hd|u l' r' w Hu Hl' Hr'].
    + rewrite is_equal_mismatch by (simpl; destruct t; discriminate). reflexivity.
    + rewrite is_equal_mismatch by (simpl; destruct t; discriminate). reflexivity.
    + destruct (decide (t = u)) as [<-|Hne];
        [|rewrite is_equal_mismatch by exact Hne; reflexivity].
      destruct t; try discriminate;
        rewrite ?is_equal_and, ?is_equal_or, ?is_equal_impl;
        rewrite !IHl, !IHr by assumption;
        simpl; repeat (destruct (equal _ _); simpl); reflexivity.
Qed.

Lemma equal_type a b : equal a b = true -> type a = type b.
Proof.
  unfold equal. destruct a as [t ch v].
  destruct (decide (t = type b)) as [->|Hne]; [reflexivity|].
  rewrite is_equal_mismatch by exact Hne. discriminate.
Qed.

Lemma equal_var v w :
  equal (mkFormula VAR [] v) (mkFormula VAR [] w) = String.eqb v w.
Proof. unfold equal. simpl. destruct (String.eqb v w); reflexivity. Qed.

Lemma equal_not a v b w :
  equal (mkFormula NOT [a] v) (mkFormula NOT [b] w) = equal a b.
Proof. reflexivity. Qed.

Section EqualBinary.
Variables a0 a1 b0 b1 : Formula.
Hypothesis Ha0 : well_formed a0 = true.
Hypothesis Ha1 : well_formed a1 = true.
Hypothesis Hb0 : well_formed b0 = true.
Hypothesis Hb1 : well_formed b1 = true.

Lemma equal_impl v w :
  equal (mkFormula IMPL [a0; a1] v) (mkFormula IMPL [b0; b1] w) =
  equal a0 b0 && equal a1 b1.
Proof.
  unfold equal at 1. rewrite is_equal_impl.
  rewrite !is_equal_total by assumption. simpl.
  repeat (destruct (equal _ _); simpl); reflexivity.
Qed.

Lemma equal_and v w :
  equal (mkFormula AND [a0; a1] v) (mkFormula AND [b0; b1] w) =
  (equal a0 b0 && equal a1 b1) || (equal a0 b1 && equal a1 b0).
Proof.
  unfold equal at 1. rewrite is_equal_and.
  rewrite !is_equal_total by assumption. simpl.
  repeat (destruct (equal _ _); simpl); reflexivity.
Qed.

Lemma equal_or v w :
  equal (mkFormula OR [a0; a1] v) (mkFormula OR [b0; b1] w) =
  (equal a0 b0 && equal a1 b1) || (equal a0 b1 && equal a1 b0).
Proof.
  unfold equal at 1. rewrite is_equal_or.
  rewrite !is_equal_total by assumption. simpl.
  repeat (destruct (equal _ _); simpl); reflexivity.
Qed.
End EqualBinary.

Lemma equal_refl a : well_formed a = true -> equal a a = true.
Proof.
  intros Ha. wf_induction a Ha;
    [intros v|intros c v Hc IHc|intros t l r v Ht Hl Hr IHl IHr].
  - rewrite equal_var. apply String.eqb_refl.
  - rewrite equal_not. exact IHc.
  - destruct t; try discriminate;
      rewrite ?equal_and, ?equal_or, ?equal_impl by assumption;
      rewrite IHl, IHr; reflexivity.
Qed.

Lemma equal_mismatch a b : type a <> type b -> equal a b = false.
Proof.
  intros H. destruct (equal a b) eqn:E; [|reflexivity].
  apply equal_type in E. contradiction.
Qed.

Lemma equal_sym a :
  well_formed a = true ->
  forall b, well_formed b = true -> equal a b = equal b a.
Proof.
  intros Ha. wf_induction a Ha;
    [intros v|intros c v Hc IHc|intros t l r v Ht Hl Hr IHl IHr];
    intros b Hb;
    destruct (well_formed_view b Hb) as [w|d w Hd|u l' r' w Hu Hl' Hr'];
    try (rewrite !equal_mismatch
           by (simpl; repeat match goal with
                             | x : FormulaType |- _ => destruct x
                             end; discriminate);
         reflexivity).
  - rewrite !equal_var. apply String.eqb_sym.
  - rewrite !equal_not. apply IHc, Hd.
  - destruct (decide (t = u)) as [<-|Hne];
      [|rewrite !equal_mismatch by (simpl; congruence); reflexivity].
    destruct t; try discriminate;
      rewrite ?equal_and, ?equal_or, ?equal_impl by assumption;
      rewrite ?(IHl l'), ?(IHl r'), ?(IHr l'), ?(IHr r') by assumption;
      destruct (equal l' l), (equal r' r), (equal l' r), (equal r' l);
      reflexivity.
Qed.

Lemma equal_trans a :
  well_formed a = true ->
  forall b c, well_formed b = true -> well_formed c = true ->
  equal a b = true -> equal b c = true -> equal a c = true.
Proof.
  intros Ha. wf_induction a Ha;
    [intros v|intros k v Hk IHk|intros t l r v Ht Hl Hr IHl IHr];
    intros b c Hb Hc E1 E2;
    pose proof (equal_type _ _ E1) as T1; pose proof (equal_type _ _ E2) as T2;
    destruct (well_formed_view b Hb) as [w|d w Hd|u l' r' w Hu Hl' Hr'];
    destruct (well_formed_view c Hc) as [x|e x He|s l2 r2 x Hs Hl2 Hr2];
    simpl in T1, T2; subst; try discriminate.
  - rewrite equal_var in *.
    apply String.eqb_eq in E1, E2. apply String.eqb_eq. congruence.
  - rewrite equal_not in *. apply (IHk d e); assumption.
  - assert (Ll : forall y z, well_formed y = true -> well_formed z = true ->
               equal l y = true -> equal y z = true -> equal l z = true)
      by (intros y z ? ? ? ?; apply (IHl y z); assumption).
    assert (Lr : forall y z, well_formed y = true -> well_formed z = true ->
               equal r y = true -> equal y z = true -> equal r z = true)
      by (intros y z ? ? ? ?; apply (IHr y z); assumption).
    clear IHl IHr.
    destruct s; try discriminate;
      rewrite ?equal_and, ?equal_or, ?equal_impl in * by assumption;
      repeat match goal with
             | H : _ || _ = true |- _ => apply orb_prop in H as [H|H]
             | H : _ && _ = true |- _ => apply andb_prop in H as [? ?]
             end;
      repeat match goal with
             | H1 : equal ?p ?q = true, H2 : equal ?q ?s = true |- _ =>
               lazymatch goal with
               | _ : equal p s = true |- _ => fail
               | _ => first [ assert (equal p s = true) by (apply (Ll q s); assumption)
                            | assert (equal p s = true) by (apply (Lr q s); assumption) ]
               end
             end;
      repeat match goal with
             | H : equal _ _ = true |- _ => rewrite H
             end;
      simpl; rewrite ?orb_true_r; reflexivity.
Qed.

(** ** Hashing agrees with equality *)

Lemma sorted_pair_comm (x y : Z) : sorted [x; y] = sorted [y; x].
Proof.
  unfold sorted; simpl.
  destruct (x <=? y) eqn:E1, (y <=? x) eqn:E2; try reflexivity.
  - apply Z.leb_le in E1, E2. assert (x = y) by lia. subst. reflexivity.
  - apply Z.leb_gt in E1, E2. lia.
Qed.

Section HashLemmas.
Context `{PyHash}.

Lemma hash_formula_var v :
  hash_formula (mkFormula VAR [] v) = Ok (hash_tuple [hash_str "VAR"; hash_str v]).
Proof. reflexivity. Qed.

Lemma hash_formula_not c v :
  hash_formula (mkFormula NOT [c] v) =
  let* h := hash_formula c in Ok (hash_tuple [hash_str "NOT"; hash_int h]).
Proof. simpl. destruct (hash_formula c); reflexivity. Qed.

Lemma hash_formula_and l r v :
  hash_formula (mkFormula AND [l; r] v) =
  let* hl := hash_formula l in
  let* hr := hash_formula r in
  Ok (hash_tuple [hash_str "AND"; hash_tuple (map hash_int (sorted [hl; hr]))]).
Proof. simpl. destruct (hash_formula l), (hash_formula r); reflexivity. Qed.

Lemma hash_formula_or l r v :
  hash_formula (mkFormula OR [l; r] v) =
  let* hl := hash_formula l in
  let* hr := hash_formula r in
  Ok (hash_tuple [hash_str "OR"; hash_tuple (map hash_int (sorted [hl; hr]))]).
Proof. simpl. destruct (hash_formula l), (hash_formula r); reflexivity. Qed.

Lemma hash_formula_impl l r v :
  hash_formula (mkFormula IMPL [l; r] v) =
  let* hl := hash_formula l in
  let* hr := hash_formula r in
  Ok (hash_tuple [hash_str "IMPL"; hash_int hl; hash_int hr]).
Proof. simpl. destruct (hash_formula l), (hash_formula r); reflexivity. Qed.

(** A well-formed formula has a hash. *)
Lemma hash_formula_total a :
  well_formed a = true -> exists h, hash_formula a = Ok h.
Proof.
  intros Ha. wf_induction a Ha;
    [intros v|intros c v Hc [h IHc]|intros t l r v Ht Hl Hr [hl IHl] [hr IHr]].
  - eexists. apply hash_formula_var.
  - eexists. rewrite hash_formula_not, IHc. reflexivity.
  - destruct t; try discriminate; eexists;
      rewrite ?hash_formula_and, ?hash_formula_or, ?hash_formula_impl, IHl, IHr;
      reflexivity.
Qed.

Lemma hash_formulas_total l :
  forallb well_formed l = true -> exists hs, hash_formulas l = Ok hs.
Proof.
  induction l as [|a l IH]; simpl; intros Hl.
  - eexists; reflexivity.
  - apply andb_prop in Hl as [Ha Hl].
    destruct (hash_formula_total a Ha) as [h ->], (IH Hl) as [hs ->].
    eexists; reflexivity.
Qed.

Lemma equal_hash a :
  well_formed a = true ->
  forall b, well_formed b = true -> equal a b = true ->
  hash_formula a = hash_formula b.
Proof.
  intros Ha. wf_induction a Ha;
    [intros v|intros c v Hc IHc|intros t l r v Ht Hl Hr IHl IHr];
    intros b Hb E; pose proof (equal_type _ _ E) as T;
    destruct (well_formed_view b Hb) as [w|d w Hd|u l' r' w Hu Hl' Hr'];
    simpl in T; subst; try discriminate.
  - rewrite equal_var in E. apply String.eqb_eq in E. subst. reflexivity.
  - rewrite equal_not in E. rewrite !hash_formula_not, (IHc d Hd E). reflexivity.
  - destruct (hash_formula_total l Hl) as [hl El], (hash_formula_total r Hr) as [hr Er].
    destruct u; try discriminate;
      rewrite ?equal_and, ?equal_or, ?equal_impl in E by assumption;
      rewrite ?hash_formula_and, ?hash_formula_or, ?hash_formula_impl;
      repeat match goal with
             | H : _ || _ = true |- _ => apply orb_prop in H as [H|H]
             | H : _ && _ = true |- _ => apply andb_prop in H as [? ?]
             end;
      repeat match goal with
             | E : equal l ?x = true |- _ =>
               rewrite <- (IHl x) by assumption; clear E
             | E : equal r ?x = true |- _ =>
               rewrite <- (IHr x) by assumption; clear E
             end;
      rewrite El, Er; cbn [bind]; rewrite ?(sorted_pair_comm hr hl); reflexivity.
Qed.
End HashLemmas.

(** ** The normalizer *)

Lemma normalize_formula_and a b rest v :
  normalize_formula_node (mkFormula AND (a :: b :: rest) v) =
  let* na := normalize_formula_node a in
  let* nb := normalize_formula_node b in
  Ok (mkFormula NOT [mkFormula IMPL [na; mkFormula NOT [nb] "not"] "implies"] "not").
Proof. reflexivity. Qed.

Lemma normalize_formula_or a b rest v :
  normalize_formula_node (mkFormula OR (a :: b :: rest) v) =
  let* na := normalize_formula_node a in
  let* nb := normalize_formula_node b in
  Ok (mkFormula IMPL [mkFormula NOT [na] "not"; nb] "implies").
Proof. reflexivity. Qed.

(** On a well-formed formula the normalizer raises nothing and returns a
    well-formed formula. *)
Lemma normalize_formula_total f :
  well_formed f = true ->
  exists g, normalize_formula_node f = Ok g /\ well_formed g = true.
Proof.
  intros Hf. wf_induction f Hf;
    [intros v|intros c v Hc _|intros t l r v Ht Hl Hr [nl [El Wl]] [nr [Er Wr]]].
  - eexists; split; reflexivity.
  - eexists; split; [reflexivity|exact Hc].
  - destruct t; try discriminate.
    + rewrite normalize_formula_and, El, Er. eexists; split; [reflexivity|].
      simpl. rewrite Wl, Wr. reflexivity.
    + rewrite normalize_formula_or, El, Er. eexists; split; [reflexivity|].
      simpl. rewrite Wl, Wr. reflexivity.
    + eexists; split; [reflexivity|]. simpl. rewrite Hl, Hr. reflexivity.
Qed.

(** ** Matching and substitution *)

(** Induction over all formulas, whatever the number of children. *)
Lemma Formula_children_ind (P : Formula -> Prop) :
  (forall t ch v, Forall P ch -> P (mkFormula t ch v)) ->
  forall f, P f.
Proof.
  intros Hnode. fix IH 1. intros [t ch v]. apply Hnode.
  induction ch as [|c ch IHch]; constructor; [apply IH|exact IHch].
Qed.

Lemma copy_formula_id f : copy_formula f = f.
Proof.
  induction f as [t ch v IH] using Formula_children_ind. simpl. f_equal.
  induction IH as [|c ch Hc _ IHch]; simpl; [reflexivity|].
  rewrite Hc, IHch. reflexivity.
Qed.

Lemma well_formed_children_not t0 w :
  well_formed (mkFormula NOT [t0] w) = true -> well_formed t0 = true.
Proof. simpl. tauto. Qed.

Lemma well_formed_children_bin t t0 t1 w :
  well_formed (mkFormula t [t0; t1] w) = true ->
  is_binary t = true /\ well_formed t0 = true /\ well_formed t1 = true.
Proof.
  destruct t; simpl; try discriminate; intros Hw;
    apply andb_prop in Hw as [? ?]; auto.
Qed.

Lemma equal_binary t a0 a1 b0 b1 v w :
  is_binary t = true ->
  well_formed a0 = true -> well_formed a1 = true ->
  well_formed b0 = true -> well_formed b1 = true ->
  equal a0 b0 = true -> equal a1 b1 = true ->
  equal (mkFormula t [a0; a1] v) (mkFormula t [b0; b1] w) = true.
Proof.
  intros Ht ? ? ? ? E0 E1.
  destruct t; try discriminate;
    rewrite ?equal_and, ?equal_or, ?equal_impl by assumption;
    rewrite E0, E1; reflexivity.
Qed.

(** The invariant of a successful match: the substitution only grows, its
    bindings stay well-formed, it fixes the instance of the pattern, and
    that instance is equal to the target. *)
Lemma match_pattern_sound pattern :
  forall target s s',
  well_formed target = true ->
  bindings_well_formed s ->
  match_pattern pattern target s = Ok (Some s') ->
  bindings_well_formed s' /\
  s ⊆ s' /\
  (forall s'', s' ⊆ s'' -> apply_substitution pattern s'' = apply_substitution pattern s') /\
  well_formed (apply_substitution pattern s') = true /\
  equal (apply_substitution pattern s') target = true.
Proof.
  induction pattern as [pt pch name IH] using Formula_children_ind.
  intros target s s' Ht Hs Hm.
  destruct (decide (pt = VAR)) as [->|Hvar].
  - (* a pattern variable *)
    simpl in Hm |- *. destruct (s !! name) as [bound|] eqn:Eb.
    + pose proof (Hs _ _ Eb) as Hb. simpl in Hb.
      rewrite (is_equal_total _ Hb _ Ht) in Hm. simpl in Hm.
      destruct (equal bound target) eqn:E; simpl in Hm; [|discriminate].
      injection Hm as <-. repeat split; auto.
      * intros s'' Hsub. rewrite (lookup_weaken _ _ _ _ Eb Hsub), Eb. reflexivity.
      * rewrite Eb, copy_formula_id. exact Hb.
      * rewrite Eb, copy_formula_id. exact E.
    + injection Hm as <-. rewrite copy_formula_id.
      repeat split.
      * apply map_Forall_insert_2; assumption.
      * apply insert_subseteq; assumption.
      * intros s'' Hsub.
        assert (Hl : s'' !! name = Some target)
          by (eapply lookup_weaken; [apply lookup_insert_eq|exact Hsub]).
        rewrite Hl, lookup_insert_eq. reflexivity.
      * rewrite lookup_insert_eq, copy_formula_id. exact Ht.
      * rewrite lookup_insert_eq, copy_formula_id. apply equal_refl, Ht.
  - (* a connective *)
    assert (Hnv : FormulaType_eqb pt VAR = false)
      by (apply bool_decide_eq_false_2; exact Hvar).
    cbn [match_pattern apply_substitution] in Hm |- *. rewrite Hnv in Hm |- *.
    destruct (FormulaType_eqb pt (type target)) eqn:Et; simpl in Hm; [|discriminate].
    apply bool_decide_eq_true_1 in Et. destruct target as [tt tch w].
    simpl in Et; subst tt. simpl in Hm.
    destruct (FormulaType_eqb pt NOT) eqn:En.
    + apply bool_decide_eq_true_1 in En; subst pt.
      destruct pch as [|p0 [|? ?]]; try discriminate.
      destruct tch as [|t0 [|? ?]]; try discriminate.
      apply Forall_cons in IH as [IH0 _].
      pose proof (well_formed_children_not _ _ Ht) as Ht0.
      destruct (IH0 t0 s s' Ht0 Hs Hm) as (W & Sub & Stable & Wa & Ea).
      repeat split; auto.
      * intros s'' Hsub. simpl. rewrite (Stable s'' Hsub). reflexivity.
    + destruct (is_binary pt) eqn:Eb; [|discriminate].
      destruct pch as [|p0 [|p1 [|? ?]]]; try discriminate.
      destruct tch as [|t0 [|t1 [|? ?]]]; try discriminate.
      apply Forall_cons in IH as [IH0 IH]. apply Forall_cons in IH as [IH1 _].
      destruct (well_formed_children_bin _ _ _ _ Ht) as (_ & Ht0 & Ht1).
      destruct (match_pattern p0 t0 s) as [[s1|]|] eqn:E0; simpl in Hm; try discriminate.
      destruct (IH0 t0 s s1 Ht0 Hs E0) as (W1 & Sub1 & Stable1 & Wa1 & Ea1).
      destruct (IH1 t1 s1 s' Ht1 W1 Hm) as (W2 & Sub2 & Stable2 & Wa2 & Ea2).
      repeat split; auto.
      * etrans; eassumption.
      * intros s'' Hsub. simpl.
        rewrite (Stable1 s'') by (etrans; eassumption).
        rewrite (Stable1 s' Sub2), (Stable2 s'' Hsub). reflexivity.
      * simpl. rewrite (Stable1 s' Sub2).
        destruct pt; try discriminate; simpl; rewrite Wa1, Wa2; reflexivity.
      * simpl. rewrite (Stable1 s' Sub2).
        apply equal_binary; assumption.
Qed.

(** ** Strings *)

Lemma append_cons c s t : String c s +:+ t = String c (s +:+ t).
Proof. reflexivity. Qed.

Lemma append_nil_r s : s +:+ "" = s.
Proof. induction s as [|c s IH]; [reflexivity|]. rewrite append_cons, IH. reflexivity. Qed.

Lemma append_assoc s t u : (s +:+ t) +:+ u = s +:+ (t +:+ u).
Proof. induction s as [|c s IH]; [reflexivity|]. rewrite !append_cons, IH. reflexivity. Qed.

Lemma length_append s t :
  String.length (s +:+ t) = (String.length s + String.length t)%nat.
Proof.
  induction s as [|c s IH]; [reflexivity|].
  rewrite append_cons. simpl. rewrite IH. reflexivity.
Qed.

(** ** The tokenizer *)

Lemma name_char_not_space c : name_char c = true -> isspace c = false.
Proof. unfold name_char. destruct (isspace c); [discriminate|reflexivity]. Qed.

Lemma name_char_not_paren c : name_char c = true -> is_paren c = false.
Proof.
  unfold name_char. destruct (is_paren c); [|reflexivity].
  rewrite andb_false_r. discriminate.
Qed.

Lemma isspace_space : isspace " " = true.
Proof. reflexivity. Qed.

Lemma name_char_not_blank c : name_char c = true -> Ascii.eqb c " " = false.
Proof.
  intros Hc. destruct (Ascii.eqb c " ") eqn:E; [|reflexivity].
  apply Ascii.eqb_eq in E. subst c. discriminate.
Qed.

(** The loop of [read_token] reads a name up to the delimiter after it. *)
Lemma read_word_name name : forall token pos rest,
  all_name_chars name = true -> delimited rest = true ->
  read_word token pos (name +:+ rest) =
  (token +:+ name, mkParser (pos + String.length name) rest).
Proof.
  induction name as [|c name IH]; intros token pos rest Hn Hr.
  - rewrite append_nil_r, Nat.add_0_r. simpl.
    destruct rest as [|d rest]; [reflexivity|].
    simpl in Hr |- *. rewrite Hr. reflexivity.
  - simpl in Hn. apply andb_prop in Hn as [Hc Hn].
    rewrite append_cons. simpl.
    rewrite (name_char_not_blank c Hc), (name_char_not_paren c Hc). simpl.
    rewrite (IH _ _ _ Hn Hr), append_assoc, append_cons.
    f_equal. f_equal. lia.
Qed.

Lemma read_token_name name n rest :
  valid_name name = true -> delimited rest = true ->
  read_token (mkParser n (name +:+ rest)) =
  (name, mkParser (n + String.length name) rest).
Proof.
  unfold valid_name. intros Hv Hr. apply andb_prop in Hv as [Hne Hn].
  destruct name as [|c name]; [discriminate|].
  pose proof Hn as Hn'. simpl in Hn'. apply andb_prop in Hn' as [Hc _].
  unfold read_token, skip_whitespace. rewrite append_cons.
  cbn [pos unread skip_whitespace_from].
  rewrite (name_char_not_space c Hc). cbn [pos unread].
  rewrite (name_char_not_paren c Hc).
  rewrite <- append_cons. apply (read_word_name _ "" n rest Hn Hr).
Qed.

Lemma read_token_open pos s :
  read_token (mkParser pos (String "(" s)) = ("(", mkParser (S pos) s).
Proof. reflexivity. Qed.

Lemma read_token_close pos s :
  read_token (mkParser pos (String ")" s)) = (")", mkParser (S pos) s).
Proof. reflexivity. Qed.

Lemma read_token_blank pos s :
  read_token (mkParser pos (String " " s)) = read_token (mkParser (S pos) s).
Proof. reflexivity. Qed.

Lemma read_token_end pos :
  read_token (mkParser pos "") = ("", mkParser pos "").
Proof. reflexivity. Qed.

Lemma parse_formula_blank fuel pos s :
  parse_formula fuel (mkParser pos (String " " s)) =
  parse_formula fuel (mkParser (S pos) s).
Proof. destruct fuel; [reflexivity|]. simpl. rewrite read_token_blank. reflexivity. Qed.

(** ** Parsing printed formulas *)

Lemma valid_name_type2str t : t <> VAR -> valid_name (type2str t) = true.
Proof. destruct t; try reflexivity. congruence. Qed.

Lemma str2type_type2str t : str2type (type2str t) = t.
Proof. destruct t; reflexivity. Qed.

Lemma read_close_close {A : Type} n rest (a : A) :
  read_close (mkParser n (")" +:+ rest)) a = Some (Ok (a, mkParser (S n) rest)).
Proof. reflexivity. Qed.

Lemma read_close_end {A : Type} n (a : A) :
  read_close (mkParser n "") a = Some (Raise (expected_close (mkParser n ""))).
Proof. reflexivity. Qed.

(** The two tokens that open a compound formula. *)
Lemma parse_formula_open fuel n t body :
  t <> VAR ->
  parse_formula (S fuel) (mkParser n ("(" +:+ type2str t +:+ " " +:+ body)) =
  let self := mkParser (n + 2 + String.length (type2str t)) body in
  match t with
  | NOT =>
    let+ (child, self) := parse_formula fuel self in
    read_close self (mkFormula t [child] (type2str t))
  | _ =>
    let+ (left_child, self) := parse_formula fuel self in
    let+ (right_child, self) := parse_formula fuel self in
    read_close self (mkFormula t [left_child; right_child] (type2str t))
  end.
Proof.
  intros Ht. cbn [parse_formula].
  change ("(" +:+ type2str t +:+ " " +:+ body)
    with (String "(" (type2str t +:+ String " " body)).
  rewrite read_token_open. cbn [String.eqb Ascii.eqb Bool.eqb].
  rewrite (read_token_name (type2str t) (S n) (String " " body) (valid_name_type2str t Ht) eq_refl).
  rewrite (str2type_type2str t).
  rewrite parse_formula_blank.
  replace (S (S n + String.length (type2str t)))
    with (n + 2 + String.length (type2str t))%nat by lia.
  destruct t; try reflexivity. congruence.
Qed.

Lemma parse_formula_print f :
  well_formed f = true -> names_valid f = true ->
  exists s g n,
    formula2str f = Ok s /\ well_formed g = true /\ equal g f = true /\
    parses_back f s g n.
Proof.
  intros Hf. wf_induction f Hf;
    [intros v|intros c v Hc IHc|intros t l r v Ht Hl Hr IHl IHr]; intros Hn.
  - (* a variable *)
    exists v, (mkFormula VAR [] v), 1%nat. simpl in Hn.
    split; [reflexivity|]. split; [reflexivity|].
    split; [rewrite equal_var; apply String.eqb_refl|].
    split; [|intros Hv; contradiction Hv; reflexivity].
    intros [|fuel] p rest Hfuel Hrest; [lia|].
    cbn [parse_formula]. rewrite (read_token_name _ _ _ Hn Hrest).
    unfold valid_name in Hn. apply andb_prop in Hn as [Hne Hall].
    destruct (String.eqb v "(") eqn:E.
    { apply String.eqb_eq in E. subst v. discriminate. }
    destruct (String.eqb v ""); [discriminate|]. reflexivity.
  - (* a negation *)
    simpl in Hn. rewrite andb_true_r in Hn.
    destruct (IHc Hn) as (s0 & g0 & n0 & Es & Wg & Eg & Hp & _).
    exists ("(" +:+ type2str NOT +:+ " " +:+ s0 +:+ ")"),
           (mkFormula NOT [g0] (type2str NOT)), (S n0).
    split; [simpl; rewrite Es; reflexivity|].
    split; [exact Wg|]. split; [rewrite equal_not; exact Eg|].
    assert (Hopen : forall fuel p tail, (n0 <= fuel)%nat -> delimited tail = true ->
              parse_formula (S fuel)
                (mkParser p ("(" +:+ type2str NOT +:+ " " +:+ s0 +:+ tail)) =
              read_close (mkParser (p + 5 + String.length s0) tail)
                         (mkFormula NOT [g0] (type2str NOT))).
    { intros fuel p tail Hfuel Htail.
      rewrite parse_formula_open by discriminate. cbn zeta.
      rewrite (Hp fuel _ tail Hfuel Htail). cbn [fbind].
      f_equal. f_equal. simpl. lia. }
    split.
    + intros [|fuel] p rest Hfuel Hrest; [lia|].
      rewrite !append_assoc, Hopen by (reflexivity || lia).
      rewrite read_close_close. do 4 f_equal.
      rewrite !length_append. simpl. lia.
    + intros _. exists ("(" +:+ type2str NOT +:+ " " +:+ s0). split.
      { rewrite !append_assoc. reflexivity. }
      intros [|fuel] p Hfuel; [lia|].
      rewrite <- (append_nil_r s0) at 1. rewrite Hopen by (reflexivity || lia).
      rewrite read_close_end. do 4 f_equal.
      rewrite !length_append. simpl. lia.
  - (* a binary connective *)
    assert (Hv : t <> VAR) by (destruct t; discriminate).
    assert (Hn' : names_valid l = true /\ names_valid r = true).
    { destruct t; try discriminate; simpl in Hn; rewrite andb_true_r in Hn;
        apply andb_prop in Hn; exact Hn. }
    destruct Hn' as [Hnl Hnr].
    destruct (IHl Hnl) as (s0 & g0 & n0 & Es0 & Wg0 & Eg0 & Hp0 & _).
    destruct (IHr Hnr) as (s1 & g1 & n1 & Es1 & Wg1 & Eg1 & Hp1 & _).
    exists ("(" +:+ type2str t +:+ " " +:+ s0 +:+ " " +:+ s1 +:+ ")"),
           (mkFormula t [g0; g1] (type2str t)), (S (Nat.max n0 n1)).
    split; [destruct t; try discriminate; simpl; rewrite Es0, Es1; reflexivity|].
    split; [destruct t; try discriminate; simpl; rewrite Wg0, Wg1; reflexivity|].
    split; [apply equal_binary; assumption|].
    assert (Hopen : forall fuel p tail, (Nat.max n0 n1 <= fuel)%nat -> delimited tail = true ->
              parse_formula (S fuel)
                (mkParser p ("(" +:+ type2str t +:+ " " +:+ s0 +:+ " " +:+ s1 +:+ tail)) =
              read_close
                (mkParser (p + 3 + String.length (type2str t)
                           + String.length s0 + String.length s1) tail)
                (mkFormula t [g0; g1] (type2str t))).
    { intros fuel p tail Hfuel Htail.
      rewrite parse_formula_open by exact Hv. cbn zeta.
      rewrite (Hp0 fuel _ (" " +:+ s1 +:+ tail)) by (reflexivity || lia).
      cbn [fbind].
      change (" " +:+ s1 +:+ tail) with (String " " (s1 +:+ tail)).
      rewrite parse_formula_blank.
      rewrite (Hp1 fuel _ tail) by (assumption || lia). cbn [fbind].
      destruct t; try discriminate; f_equal; f_equal; lia. }
    split.
    + intros [|fuel] p rest Hfuel Hrest; [lia|].
      rewrite !append_assoc, Hopen by (reflexivity || lia).
      rewrite read_close_close. do 4 f_equal.
      rewrite !length_append. simpl. lia.
    + intros _. exists ("(" +:+ type2str t +:+ " " +:+ s0 +:+ " " +:+ s1). split.
      { rewrite !append_assoc. reflexivity. }
      intros [|fuel] p Hfuel; [lia|].
      rewrite <- (append_nil_r s1) at 1. rewrite Hopen by (reflexivity || lia).
      rewrite read_close_end. do 4 f_equal.
      rewrite !length_append. simpl. lia.
Qed.

(** ** The parser on any text *)

Lemma skip_whitespace_from_spec s : forall n,
  text_length (skip_whitespace_from n s) = (n + String.length s)%nat /\
  (n <= pos (skip_whitespace_from n s))%nat.
Proof.
  induction s as [|c s IH]; intros n; simpl.
  - unfold text_length; simpl. lia.
  - destruct (isspace c).
    + destruct (IH (S n)) as [E L]. rewrite E. lia.
    + unfold text_length; simpl. lia.
Qed.

Lemma read_word_spec s : forall token n t st,
  read_word token n s = (t, st) ->
  text_length st = (n + String.length s)%nat /\
  ((t = token /\ pos st = n) \/ (n < pos st)%nat).
Proof.
  induction s as [|c s IH]; intros token n t st; simpl.
  - intros [= <- <-]. unfold text_length; simpl. split; [lia|left; split; reflexivity].
  - destruct (Ascii.eqb c " " || is_paren c).
    + intros [= <- <-]. unfold text_length; simpl. split; [lia|left; split; reflexivity].
    + intros E. apply IH in E as [E L]. split; [lia|]. right. lia.
Qed.

(** A token is read from the unread text only: the length of the text is
    kept, the position does not go back, and it advances when a token is
    found. *)
Lemma read_token_spec self t st :
  read_token self = (t, st) ->
  text_length st = text_length self /\
  (pos self <= pos st)%nat /\
  (t <> "" -> (pos self < pos st)%nat).
Proof.
  unfold read_token, skip_whitespace.
  destruct (skip_whitespace_from_spec (unread self) (pos self)) as [E L].
  destruct (skip_whitespace_from (pos self) (unread self)) as [n s] eqn:Es.
  unfold text_length in E |- *. simpl in *.
  destruct s as [|c s].
  - intros [= <- <-]. simpl in *. split; [lia|]. split; [lia|]. congruence.
  - destruct (is_paren c).
    + intros [= <- <-]. simpl in *. lia.
    + intros Ew. apply read_word_spec in Ew as [Ew [[-> Hp]|Hp]];
        unfold text_length in Ew; simpl in *.
      * split; [lia|]. split; [lia|]. congruence.
      * lia.
Qed.

Lemma read_close_spec {A : Type} self (a : A) :
  (exists st, read_close self a = Some (Ok (a, st)) /\
              text_length st = text_length self /\ (pos self < pos st)%nat) \/
  (exists st, read_close self a = Some (Raise (expected_close st)) /\
              text_length st = text_length self /\ (pos self <= pos st)%nat).
Proof.
  unfold read_close. destruct (read_token self) as [t st] eqn:E.
  apply read_token_spec in E as (E & L & Lt).
  destruct (String.eqb t ")") eqn:Ec; simpl.
  - left. exists st. split; [reflexivity|]. split; [exact E|].
    apply Lt. apply String.eqb_eq in Ec. subst t. discriminate.
  - right. exists st. auto.
Qed.

(** A formula returned by the parser is well-formed; the parser has moved
    forward in the same text. *)
Lemma parse_formula_ok fuel : forall self g st,
  parse_formula fuel self = Some (Ok (g, st)) ->
  well_formed g = true /\
  text_length st = text_length self /\ (pos self < pos st)%nat.
Proof.
  induction fuel as [|fuel IH]; intros self g st; [discriminate|].
  cbn [parse_formula].
  destruct (read_token self) as [token st1] eqn:E1.
  apply read_token_spec in E1 as (T1 & L1 & P1).
  destruct (String.eqb token "(") eqn:Eo.
  - apply String.eqb_eq in Eo. subst token.
    assert (pos self < pos st1)%nat as P by (apply P1; discriminate).
    destruct (read_token st1) as [op_token st2] eqn:E2.
    apply read_token_spec in E2 as (T2 & L2 & _).
    destruct (str2type op_token).
    1, 2, 4:
      destruct (parse_formula fuel st2) as [[[l st3]|?]|] eqn:E3; try discriminate;
      apply IH in E3 as (Wl & T3 & L3); cbn [fbind];
      destruct (parse_formula fuel st3) as [[[r st4]|?]|] eqn:E4; try discriminate;
      apply IH in E4 as (Wr & T4 & L4); cbn [fbind];
      match goal with
      | |- read_close ?s ?a = _ -> _ =>
        destruct (read_close_spec s a) as [(st5 & -> & T5 & L5)|(st5 & -> & _)];
          [|discriminate]
      end;
      intros [= <- <-]; simpl; rewrite Wl, Wr; split; [reflexivity|lia].
    + destruct (parse_formula fuel st2) as [[[c st3]|?]|] eqn:E3; try discriminate.
      apply IH in E3 as (Wc & T3 & L3). cbn [fbind].
      match goal with
      | |- read_close ?s ?a = _ -> _ =>
        destruct (read_close_spec s a) as [(st5 & -> & T5 & L5)|(st5 & -> & _)];
          [|discriminate]
      end.
      intros [= <- <-]. simpl. split; [exact Wc|lia].
    + match goal with
      | |- read_close ?s ?a = _ -> _ =>
        destruct (read_close_spec s a) as [(st5 & -> & T5 & L5)|(st5 & -> & _)];
          [|discriminate]
      end.
      intros [= <- <-]. simpl. split; [reflexivity|lia].
  - destruct (String.eqb token "") eqn:Ee; [discriminate|].
    intros [= <- <-]. split; [reflexivity|]. split; [exact T1|].
    apply P1. apply String.eqb_neq in Ee. exact Ee.
Qed.


(** The parser returns or raises once the fuel exceeds the unread text. *)
Lemma parse_formula_total fuel : forall self,
  (String.length (unread self) < fuel)%nat ->
  exists r, parse_formula fuel self = Some r.
Proof.
  induction fuel as [|fuel IH]; intros self Hfuel; [lia|].
  cbn [parse_formula].
  destruct (read_token self) as [token st1] eqn:E1.
  apply read_token_spec in E1 as (T1 & L1 & P1).
  destruct (String.eqb token "(") eqn:Eo.
  - apply String.eqb_eq in Eo. subst token.
    assert (pos self < pos st1)%nat as P by (apply P1; discriminate).
    destruct (read_token st1) as [op_token st2] eqn:E2.
    apply read_token_spec in E2 as (T2 & L2 & _).
    unfold text_length in *.
    assert (Hclose : forall (a : Formula) st, exists r, read_close st a = Some r).
    { intros a st. destruct (read_close_spec st a) as [(? & -> & _)|(? & -> & _)];
        eexists; reflexivity. }
    destruct (str2type op_token).
    1, 2, 4:
      destruct (IH st2 ltac:(lia)) as [[[l st3]|e3] E3]; rewrite E3; cbn [fbind];
        [|eexists; reflexivity];
      apply parse_formula_ok in E3 as (_ & T3 & L3); unfold text_length in T3;
      destruct (IH st3 ltac:(lia)) as [[[r st4]|e4] E4]; rewrite E4; cbn [fbind];
        [|eexists; reflexivity];
      apply Hclose.
    + destruct (IH st2 ltac:(lia)) as [[[c st3]|e3] E3]; rewrite E3; cbn [fbind];
        [|eexists; reflexivity].
      apply Hclose.
    + apply Hclose.
  - destruct (String.eqb token ""); eexists; reflexivity.
Qed.

(** More fuel does not change a result. *)
Lemma parse_formula_mono fuel : forall self r fuel',
  parse_formula fuel self = Some r -> (fuel <= fuel')%nat ->
  parse_formula fuel' self = Some r.
Proof.
  induction fuel as [|fuel IH]; intros self r fuel' E Hle; [discriminate|].
  destruct fuel' as [|fuel']; [lia|].
  cbn [parse_formula] in E |- *.
  destruct (read_token self) as [token st1].
  destruct (String.eqb token "("); [|exact E].
  destruct (read_token st1) as [op_token st2].
  destruct (str2type op_token).
  1, 2, 4:
    destruct (parse_formula fuel st2) as [[[l st3]|e3]|] eqn:E3; try discriminate;
    rewrite (IH _ _ fuel' E3) by lia; cbn [fbind] in E |- *; [|exact E];
    destruct (parse_formula fuel st3) as [[[r' st4]|e4]|] eqn:E4; try discriminate;
    rewrite (IH _ _ fuel' E4) by lia; cbn [fbind] in E |- *; exact E.
  - destruct (parse_formula fuel st2) as [[[c st3]|e3]|] eqn:E3; try discriminate;
      rewrite (IH _ _ fuel' E3) by lia; cbn [fbind] in E |- *; exact E.
  - exact E.
Qed.

(** [parse] gives the result that any sufficient fuel gives. *)
Lemma parse_any_fuel text fuel r :
  parse_formula fuel (Parser_init text) = Some r ->
  parse_formula (S (String.length text)) (Parser_init text) = Some r.
Proof.
  intros E.
  destruct (parse_formula_total (S (String.length text)) (Parser_init text))
    as [r' E']; [simpl; lia|].
  destruct (Nat.le_ge_cases fuel (S (String.length text))) as [Hle|Hle].
  - apply (parse_formula_mono _ _ _ _ E Hle).
  - rewrite (parse_formula_mono _ _ _ _ E' Hle) in E. congruence.
Qed.

(** The second scenario of the test suite. *)
Example parse_sample :
  parse "(or (and A B) (not C))" =
  Some (Ok (mkFormula OR [mkFormula AND [Var "A"; Var "B"] "and";
                          mkFormula NOT [Var "C"] "not"] "or")).
Proof. reflexivity. Qed.

(** ** The proof cache on well-formed keys *)

Lemma tuple_eq_total v : forall w,
  forallb well_formed v = true -> forallb well_formed w = true ->
  exists b, tuple_eq v w = Ok b.
Proof.
  induction v as [|x v IH]; intros [|y w] Hv Hw; simpl; try (eexists; reflexivity).
  simpl in Hv, Hw. apply andb_prop in Hv as [Hx Hv]. apply andb_prop in Hw as [Hy Hw].
  rewrite (is_equal_total _ Hx _ Hy). simpl.
  destruct (equal x y); [apply IH; assumption|eexists; reflexivity].
Qed.

Lemma key_eq_total k1 k2 :
  key_well_formed k1 = true -> key_well_formed k2 = true ->
  exists b, key_eq k1 k2 = Ok b.
Proof.
  unfold key_well_formed, key_eq. intros H1 H2.
  apply andb_prop in H1 as [T1 L1]. apply andb_prop in H2 as [T2 L2].
  simpl. rewrite (is_equal_total _ T1 _ T2). simpl.
  destruct (equal _ _); simpl; [|eexists; reflexivity].
  destruct (tuple_eq_total _ _ L1 L2) as [b ->]. simpl.
  destruct b; eexists; reflexivity.
Qed.

Section CacheLemmas.
Context `{PyHash}.

Lemma hash_key_total k :
  key_well_formed k = true -> exists h, hash_key k = Ok h.
Proof.
  unfold key_well_formed, hash_key. intros Hk. apply andb_prop in Hk as [Ht Hl].
  destruct (hash_formula_total _ Ht) as [h ->].
  destruct (hash_formulas_total _ Hl) as [hs ->].
  eexists; reflexivity.
Qed.

Lemma dict_find_total cache h key :
  cache_well_formed cache = true -> key_well_formed key = true ->
  exists r, dict_find cache h key = Ok r.
Proof.
  intros Hc Hk. induction cache as [|e cache IH]; simpl; [eexists; reflexivity|].
  simpl in Hc. apply andb_prop in Hc as [He Hc].
  destruct (me_hash e =? h); [|apply IH, Hc].
  destruct (key_eq_total _ _ He Hk) as [b ->]. simpl.
  destruct b; [eexists; reflexivity|apply IH, Hc].
Qed.

Lemma dict_replace_total cache h key v :
  cache_well_formed cache = true -> key_well_formed key = true ->
  exists r, dict_replace cache h key v = Ok r /\
    forall cache', r = Some cache' -> cache_well_formed cache' = true.
Proof.
  intros Hc Hk. induction cache as [|e cache IH]; simpl.
  - eexists; split; [reflexivity|discriminate].
  - simpl in Hc. apply andb_prop in Hc as [He Hc].
    destruct (IH Hc) as (r & Er & Wr).
    assert (Hsame : exists b,
              (if me_hash e =? h then key_eq (me_key e) key else Ok false) = Ok b).
    { destruct (me_hash e =? h); [apply key_eq_total; assumption|eexists; reflexivity]. }
    destruct Hsame as [b ->]. simpl. destruct b.
    + eexists; split; [reflexivity|]. intros cache' [= <-]. simpl.
      rewrite He, Hc. reflexivity.
    + rewrite Er. simpl. eexists; split; [reflexivity|].
      destruct r as [c|]; simpl; [|discriminate].
      intros cache' [= <-]. simpl. rewrite He, (Wr c eq_refl). reflexivity.
Qed.

Lemma dict_get_total cache key :
  cache_well_formed cache = true -> key_well_formed key = true ->
  exists r, dict_get cache key = Ok r.
Proof.
  intros Hc Hk. unfold dict_get.
  destruct (hash_key_total key Hk) as [h ->]. simpl.
  destruct (dict_find_total cache h key Hc Hk) as [r ->]. simpl.
  eexists; reflexivity.
Qed.

Lemma dict_set_total cache key v :
  cache_well_formed cache = true -> key_well_formed key = true ->
  exists cache', dict_set cache key v = Ok cache' /\
                 cache_well_formed cache' = true.
Proof.
  intros Hc Hk. unfold dict_set.
  destruct (hash_key_total key Hk) as [h ->]. simpl.
  destruct (dict_replace_total cache h key v Hc Hk) as (r & -> & Wr). simpl.
  destruct r as [c|]; eexists; split; try reflexivity.
  - apply Wr. reflexivity.
  - unfold cache_well_formed. rewrite forallb_app. simpl.
    fold (cache_well_formed cache). rewrite Hc, Hk. reflexivity.
Qed.

Lemma remember_total self key v :
  cache_well_formed (proof_cache self) = true -> key_well_formed key = true ->
  exists self', remember self key v = Ok self' /\
                cache_well_formed (proof_cache self') = true /\
                axioms self' = axioms self.
Proof.
  intros Hc Hk. unfold remember.
  destruct (dict_set_total _ key v Hc Hk) as (c & -> & Wc). simpl.
  eexists; split; [reflexivity|]. split; [exact Wc|reflexivity].
Qed.
End CacheLemmas.

(** ** The rules of the search on well-formed formulas *)

Lemma find_hypothesis_total hypotheses target : forall i,
  forallb well_formed hypotheses = true -> well_formed target = true ->
  exists r, find_hypothesis hypotheses target i = Ok r.
Proof.
  induction hypotheses as [|hyp rest IH]; intros i Hh Ht; simpl;
    [eexists; reflexivity|].
  simpl in Hh. apply andb_prop in Hh as [Hhyp Hrest].
  rewrite (is_equal_total _ Hhyp _ Ht). simpl.
  destruct (equal hyp target); [eexists; reflexivity|apply IH; assumption].
Qed.

Lemma match_pattern_total pattern : forall target s,
  well_formed target = true -> bindings_well_formed s ->
  exists r, match_pattern pattern target s = Ok r.
Proof.
  induction pattern as [pt pch name IH] using Formula_children_ind.
  intros target s Ht Hs. cbn [match_pattern].
  destruct (FormulaType_eqb pt VAR).
  { destruct (s !! name) as [bound|] eqn:Eb; [|eexists; reflexivity].
    pose proof (Hs _ _ Eb) as Hb. simpl in Hb. unfold is_equal.
    rewrite (is_equal_total _ Hb _ Ht). simpl.
    destruct (equal bound target); eexists; reflexivity. }
  destruct (FormulaType_eqb pt (type target)) eqn:Et; simpl; [|eexists; reflexivity].
  apply bool_decide_eq_true_1 in Et. destruct target as [tt tch w].
  simpl in Et; subst tt. simpl.
  destruct (FormulaType_eqb pt NOT) eqn:En.
  - apply bool_decide_eq_true_1 in En; subst pt.
    destruct pch as [|p0 [|? ?]]; try (eexists; reflexivity).
    destruct tch as [|t0 [|? ?]]; try (eexists; reflexivity).
    apply Forall_cons in IH as [IH0 _].
    apply IH0; [apply (well_formed_children_not _ _ Ht)|exact Hs].
  - destruct (is_binary pt) eqn:Eb; [|eexists; reflexivity].
    destruct pch as [|p0 [|p1 [|? ?]]]; try (eexists; reflexivity).
    destruct tch as [|t0 [|t1 [|? ?]]]; try (eexists; reflexivity).
    apply Forall_cons in IH as [IH0 IH]. apply Forall_cons in IH as [IH1 _].
    destruct (well_formed_children_bin _ _ _ _ Ht) as (_ & Ht0 & Ht1).
    destruct (IH0 t0 s Ht0 Hs) as [r0 E0]. rewrite E0. simpl.
    destruct r0 as [s1|]; [|eexists; reflexivity].
    apply IH1; [exact Ht1|].
    apply (match_pattern_sound p0 t0 s s1 Ht0 Hs E0).
Qed.

Lemma match_axioms_total axioms target : forall i,
  well_formed target = true ->
  exists r, match_axioms axioms target i = Ok r.
Proof.
  induction axioms as [|ax rest IH]; intros i Ht; simpl; [eexists; reflexivity|].
  destruct (match_pattern_total ax target ∅ Ht) as [r ->].
  { intros k f Hk. rewrite lookup_empty in Hk. discriminate. }
  simpl. destruct r; [eexists; reflexivity|apply IH, Ht].
Qed.

(** ** Termination of the search *)

Section ProveLemmas.
Context `{PyHash}.

Lemma mp_loop_total prove_left :
  (forall self left_, exists r, prove_left self left_ = Some r) ->
  forall rest self i target,
  exists r, mp_loop prove_left self rest i target = Some r.
Proof.
  intros Hrec. induction rest as [|hyp rest IH]; intros self i target;
    cbn [mp_loop]; [eexists; reflexivity|].
  unfold lift.
  destruct (detaches hyp target) as [[|]|e];
    cbn [fbind]; [|apply IH|eexists; reflexivity].
  destruct (index (children hyp) 0) as [left_|e]; cbn [fbind];
    [|eexists; reflexivity].
  destruct (Hrec self left_) as [[[[proof_left|] self']|e] ->]; cbn [fbind];
    [eexists; reflexivity|apply IH|eexists; reflexivity].
Qed.

(** With fuel beyond [max_depth + 1 - depth] the search returns or
    raises, from every state of the prover and on every input. *)
Lemma prove_total fuel : forall self target hypotheses depth max_depth,
  (Z.to_nat (max_depth + 1 - depth) < fuel)%nat ->
  exists r, prove fuel self target hypotheses depth max_depth = Some r.
Proof.
  induction fuel as [|fuel IH]; intros self target hypotheses depth max_depth Hfuel;
    [lia|].
  cbn [prove]. unfold lift.
  destruct (dict_get _ _) as [[cached|]|e]; cbn [fbind];
    [eexists; reflexivity| |eexists; reflexivity].
  destruct (depth >? max_depth) eqn:Ed; [eexists; reflexivity|].
  assert (Hd : depth <= max_depth) by lia.
  assert (Hfuel' : (Z.to_nat (max_depth + 1 - (depth + 1)) < fuel)%nat) by lia.
  destruct (find_hypothesis _ _ _) as [[i|]|e]; cbn [fbind];
    [destruct (remember _ _ _); cbn [fbind]; eexists; reflexivity
    | |eexists; reflexivity].
  match goal with
  | |- exists r, fbind ?m _ = Some r => assert (Hded : exists x, m = Some x)
  end.
  { destruct (FormulaType_eqb (type target) IMPL); [|eexists; reflexivity].
    destruct (index (children target) 0) as [left_|e]; cbn [fbind];
      [|eexists; reflexivity].
    destruct (index (children target) 1) as [right_|e]; cbn [fbind];
      [|eexists; reflexivity].
    destruct (IH self right_ (hypotheses ++ [left_]) (depth + 1) max_depth Hfuel')
      as [[[[proof_right|] self']|e] ->]; cbn [fbind]; eexists; reflexivity. }
  destruct Hded as [[[[proof|] self1]|e] ->]; cbn [fbind];
    [destruct (remember _ _ _); cbn [fbind]; eexists; reflexivity
    | |eexists; reflexivity].
  destruct (mp_loop_total
              (fun self left_ => prove fuel self left_ hypotheses (depth + 1) max_depth)
              (fun self left_ => IH self left_ hypotheses (depth + 1) max_depth Hfuel')
              hypotheses self1 0%nat target)
    as [[[[[i proof_left]|] self2]|e] ->]; cbn [fbind];
    [destruct (remember _ _ _); cbn [fbind]; eexists; reflexivity
    | |eexists; reflexivity].
  destruct (match_axioms _ _ _) as [[[axiom_idx substitution]|]|e]; cbn [fbind];
    [destruct (remember _ _ _); cbn [fbind]; eexists; reflexivity
    |eexists; reflexivity|eexists; reflexivity].
Qed.

Lemma mp_loop_mono prove_left prove_left' :
  (forall self left_ r, prove_left self left_ = Some r ->
                        prove_left' self left_ = Some r) ->
  forall rest self i target r,
  mp_loop prove_left self rest i target = Some r ->
  mp_loop prove_left' self rest i target = Some r.
Proof.
  intros Hrec. induction rest as [|hyp rest IH]; intros self i target r;
    cbn [mp_loop]; [auto|].
  unfold lift.
  destruct (detaches hyp target) as [[|]|e];
    cbn [fbind]; [|apply IH|auto].
  destruct (index (children hyp) 0) as [left_|e]; cbn [fbind]; [|auto].
  destruct (prove_left self left_) as [[[[proof_left|] self']|e]|] eqn:E;
    cbn [fbind]; try discriminate;
    rewrite (Hrec _ _ _ E); cbn [fbind]; [auto|apply IH|auto].
Qed.

(** More fuel does not change a result of the search. *)
Lemma prove_mono fuel : forall fuel' self target hypotheses depth max_depth r,
  prove fuel self target hypotheses depth max_depth = Some r ->
  (fuel <= fuel')%nat ->
  prove fuel' self target hypotheses depth max_depth = Some r.
Proof.
  induction fuel as [|fuel IH];
    intros fuel' self target hypotheses depth max_depth r E Hle; [discriminate|].
  destruct fuel' as [|fuel']; [lia|].
  assert (Hle' : (fuel <= fuel')%nat) by lia.
  cbn [prove] in E |- *. unfold lift in *.
  destruct (dict_get _ _) as [[cached|]|e]; cbn [fbind] in E |- *; [exact E| |exact E].
  destruct (depth >? max_depth); [exact E|].
  destruct (find_hypothesis _ _ _) as [[i|]|e]; cbn [fbind] in E |- *;
    [exact E| |exact E].
  destruct (FormulaType_eqb (type target) IMPL).
  - destruct (index (children target) 0) as [left_|e]; cbn [fbind] in E |- *;
      [|exact E].
    destruct (index (children target) 1) as [right_|e]; cbn [fbind] in E |- *;
      [|exact E].
    destruct (prove fuel self right_ _ _ _) as [[[[proof_right|] self1]|e]|] eqn:E1;
      cbn [fbind] in E |- *; try discriminate;
      rewrite (IH fuel' _ _ _ _ _ _ E1 Hle'); cbn [fbind] in E |- *;
      [exact E| |exact E].
    destruct (mp_loop _ self1 _ _ _) as [r2|] eqn:E2; [|discriminate].
    rewrite (mp_loop_mono _
               (fun self left_ => prove fuel' self left_ hypotheses (depth + 1) max_depth)
               (fun s l r0 E0 => IH fuel' s l hypotheses (depth + 1) max_depth r0 E0 Hle')
               _ _ _ _ _ E2).
    exact E.
  - cbn [fbind] in E |- *.
    destruct (mp_loop _ self _ _ _) as [r2|] eqn:E2; [|discriminate].
    rewrite (mp_loop_mono _
               (fun self left_ => prove fuel' self left_ hypotheses (depth + 1) max_depth)
               (fun s l r0 E0 => IH fuel' s l hypotheses (depth + 1) max_depth r0 E0 Hle')
               _ _ _ _ _ E2).
    exact E.
Qed.
End ProveLemmas.

(** ** The search on well-formed formulas raises nothing *)

Lemma well_formed_impl_children hyp :
  well_formed hyp = true -> type hyp = IMPL ->
  exists a b v, hyp = mkFormula IMPL [a; b] v /\
                well_formed a = true /\ well_formed b = true.
Proof.
  intros Hw Ht. destruct (well_formed_view hyp Hw) as [v|c v Hc|t l r v Hb Hl Hr];
    simpl in Ht; try discriminate. subst t. eauto 10.
Qed.

Section ProveSafe.
Context `{PyHash}.

Lemma mp_loop_safe prove_left :
  (forall self left_ res,
     prover_well_formed self -> well_formed left_ = true ->
     prove_left self left_ = Some res -> safe_result self res) ->
  forall rest self i target res,
  forallb well_formed rest = true -> well_formed target = true ->
  prover_well_formed self ->
  mp_loop prove_left self rest i target = Some res -> safe_result self res.
Proof.
  intros Hrec. induction rest as [|hyp rest IH];
    intros self i target res Hrest Ht Hself; cbn [mp_loop].
  - intros [= <-]. exists None, self. auto.
  - simpl in Hrest. apply andb_prop in Hrest as [Hhyp Hrest]. unfold lift, detaches.
    destruct (FormulaType_eqb (type hyp) IMPL) eqn:Ei; cbn [fbind];
      [|apply IH; assumption].
    apply bool_decide_eq_true_1 in Ei.
    destruct (well_formed_impl_children hyp Hhyp Ei) as (a & b & v & -> & Ha & Hb).
    simpl. rewrite (is_equal_total b Hb target Ht). cbn [fbind].
    destruct (equal b target); [|apply IH; assumption].
    destruct (prove_left self a) as [res1|] eqn:E1; [|discriminate].
    destruct (Hrec self a res1 Hself Ha E1) as (pl & self1 & -> & W1 & A1).
    cbn [fbind]. destruct pl as [proof_left|].
    + intros [= <-]. exists (Some (i, proof_left)), self1. auto.
    + intros E2. destruct (IH self1 (S i) target res Hrest Ht W1 E2)
        as (r & self2 & -> & W2 & A2).
      exists r, self2. split; [reflexivity|]. split; [exact W2|congruence].
Qed.

Lemma prove_safe fuel : forall self target hypotheses depth max_depth res,
  prover_well_formed self ->
  well_formed target = true -> forallb well_formed hypotheses = true ->
  prove fuel self target hypotheses depth max_depth = Some res ->
  safe_result self res.
Proof.
  induction fuel as [|fuel IH];
    intros self target hypotheses depth max_depth res Hself Ht Hh; [discriminate|].
  assert (Hk : key_well_formed (mkKey target hypotheses depth) = true)
    by (unfold key_well_formed; simpl; rewrite Ht, Hh; reflexivity).
  assert (Hstore : forall self1 proof res',
            prover_well_formed self1 -> axioms self1 = axioms self ->
            (let+ self2 := lift (remember self1 (mkKey target hypotheses depth) proof) in
             Some (Ok (Some proof, self2))) = Some res' ->
            safe_result self res').
  { intros self1 proof res' W1 A1. unfold lift.
    destruct (remember_total self1 _ proof W1 Hk) as (self2 & -> & W2 & A2).
    cbn [fbind]. intros [= <-]. exists (Some proof), self2.
    split; [reflexivity|]. split; [exact W2|congruence]. }
  cbn [prove]. unfold lift.
  destruct (dict_get_total _ _ Hself Hk) as [cached ->]. cbn [fbind].
  destruct cached as [proof|].
  { intros [= <-]. exists (Some proof), self. auto. }
  destruct (depth >? max_depth).
  { intros [= <-]. exists None, self. auto. }
  destruct (find_hypothesis_total hypotheses target 0%nat Hh Ht) as [found ->].
  cbn [fbind]. destruct found as [i|]; [apply Hstore; auto|].
  match goal with
  | |- fbind ?m _ = Some res -> _ =>
    assert (Hded : m = None \/ exists d self1, m = Some (Ok (d, self1)) /\
                     prover_well_formed self1 /\ axioms self1 = axioms self)
  end.
  { destruct (FormulaType_eqb (type target) IMPL) eqn:Ei;
      [|right; exists None, self; auto].
    apply bool_decide_eq_true_1 in Ei.
    destruct (well_formed_impl_children target Ht Ei) as (a & b & v & -> & Ha & Hb).
    simpl. cbn [fbind].
    destruct (prove fuel self b (hypotheses ++ [a]) (depth + 1) max_depth)
      as [res1|] eqn:E1; [|left; reflexivity].
    apply IH in E1 as (pr & self1 & -> & W1 & A1); [|exact Hself|exact Hb|].
    2: { rewrite forallb_app. simpl. rewrite Hh, Ha. reflexivity. }
    right. cbn [fbind]. destruct pr; eexists _, self1; auto. }
  destruct Hded as [->|(d & self1 & -> & W1 & A1)]; [discriminate|].
  cbn [fbind]. destruct d as [proof|]; [apply Hstore; auto|].
  destruct (mp_loop _ self1 hypotheses 0%nat target) as [res2|] eqn:E2; [|discriminate].
  apply mp_loop_safe in E2 as (m & self2 & -> & W2 & A2); try assumption.
  2: { intros s l r Ws Wl E. apply (IH s l hypotheses (depth + 1) max_depth r Ws Wl Hh E). }
  cbn [fbind]. destruct m as [[i proof_left]|];
    [apply Hstore; [exact W2|congruence]|].
  destruct (match_axioms_total (axioms self2) target 0%nat Ht) as [matched ->].
  cbn [fbind]. destruct matched as [[axiom_idx substitution]|];
    [apply Hstore; [exact W2|congruence]|].
  intros [= <-]. exists None, self2. split; [reflexivity|].
  split; [exact W2|congruence].
Qed.
End ProveSafe.

(** ** The order of the rules *)





(** The modus ponens loop stops at the first hypothesis that detaches the
    target and whose antecedent is proved. *)
Lemma mp_loop_first prove_left before hyp after target antecedent proof_left self self' :
  forall i,
  Forall (fun hyp' => detaches hyp' target = Ok false) before ->
  detaches hyp target = Ok true ->
  index (children hyp) 0 = Ok antecedent ->
  prove_left self antecedent = Some (Ok (Some proof_left, self')) ->
  mp_loop prove_left self (before ++ hyp :: after) i target =
  Some (Ok (Some ((i + length before)%nat, proof_left), self')).
Proof.
  induction before as [|b before IH]; intros i Hno Hhyp Ha Hrec.
  - cbn [app mp_loop]. unfold lift. rewrite Hhyp. cbn [fbind].
    rewrite Ha. cbn [fbind]. rewrite Hrec. cbn [fbind].
    do 5 f_equal. simpl. lia.
  - apply Forall_cons in Hno as [Hb Hno]. cbn [app mp_loop]. unfold lift.
    rewrite Hb. cbn [fbind]. rewrite (IH (S i) Hno Hhyp Ha Hrec).
    do 5 f_equal. simpl. lia.
Qed.

Section RuleOrder.
Context `{PyHash}.
Variables (fuel : nat) (self : Prover) (target : Formula).
Variables (hypotheses : list Formula) (depth max_depth : Z).

Let cache_key := mkKey target hypotheses depth.

(** The call is neither answered from the cache nor refused for its
    depth. *)
Hypothesis Hmiss : dict_get (proof_cache self) cache_key = Ok None.
Hypothesis Hdepth : depth <= max_depth.

(** What [prove] returns once a rule has produced [proof] in the prover
    state [self1]: the proof, stored in the cache. *)
Let returns (self1 : Prover) (proof : list ProofStep) :=
  let+ self2 := lift (remember self1 cache_key proof) in
  Some (Ok (Some proof, self2)).

Lemma prove_by_hypothesis i :
  find_hypothesis hypotheses target 0 = Ok (Some i) ->
  prove (S fuel) self target hypotheses depth max_depth =
  returns self [hypothesis i target].
Proof.
  intros Hfind. cbn [prove]. fold cache_key. unfold lift. rewrite Hmiss. cbn [fbind].
  replace (depth >? max_depth) with false by lia.
  rewrite Hfind. reflexivity.
Qed.

Lemma prove_by_deduction left_ right_ proof_right self1 :
  find_hypothesis hypotheses target 0 = Ok None ->
  type target = IMPL ->
  index (children target) 0 = Ok left_ ->
  index (children target) 1 = Ok right_ ->
  prove fuel self right_ (hypotheses ++ [left_]) (depth + 1) max_depth =
    Some (Ok (Some proof_right, self1)) ->
  prove (S fuel) self target hypotheses depth max_depth =
  returns self1 [deduction left_ right_ proof_right].
Proof.
  intros Hfind Ht Hl Hr Hrec. cbn [prove]. fold cache_key. unfold lift.
  rewrite Hmiss. cbn [fbind].
  replace (depth >? max_depth) with false by lia.
  rewrite Hfind. cbn [fbind]. rewrite Ht. cbn [FormulaType_eqb].
  replace (FormulaType_eqb IMPL IMPL) with true by reflexivity.
  rewrite Hl, Hr. cbn [fbind]. rewrite Hrec. reflexivity.
Qed.


(** On well-formed input the proof is stored and returned. *)
Lemma returns_well_formed self1 proof :
  well_formed target = true -> forallb well_formed hypotheses = true ->
  prover_well_formed self1 ->
  exists self2, returns self1 proof = Some (Ok (Some proof, self2)).
Proof.
  intros Ht Hh W1.
  assert (Hk : key_well_formed cache_key = true)
    by (unfold key_well_formed; simpl; rewrite Ht, Hh; reflexivity).
  unfold returns, lift.
  destruct (remember_total self1 cache_key proof W1 Hk) as (self2 & -> & _).
  exists self2. reflexivity.
Qed.
End RuleOrder.

(** ** The fresh prover *)

Lemma Prover_init_ok : Prover_init = Some (Ok initial_prover).
Proof. vm_compute. reflexivity. Qed.

Lemma initial_prover_well_formed : prover_well_formed initial_prover.
Proof. reflexivity. Qed.

Lemma parse_implies_A_A :
  parse "(implies A A)" = Some (Ok (mkFormula IMPL [Var "A"; Var "A"] "implies")).
Proof. reflexivity. Qed.

(** The search for [A -> A] from the fresh prover: the deduction rule
    succeeds, through the hypothesis rule one level down. *)
Lemma prove_implies_A_A_steps `{PyHash} :
  exists self1 self2,
    prove (S 1000) initial_prover (Var "A") [Var "A"] 1 1000 =
      Some (Ok (Some [hypothesis 0 (Var "A")], self1)) /\
    prove (S (S 1000)) initial_prover
      (mkFormula IMPL [Var "A"; Var "A"] "implies") [] 0 1000 =
      Some (Ok (Some [deduction (Var "A") (Var "A") [hypothesis 0 (Var "A")]], self2)).
Proof.
  destruct (returns_well_formed (Var "A") [Var "A"] 1 initial_prover
              [hypothesis 0 (Var "A")] eq_refl eq_refl initial_prover_well_formed)
    as [self1 E1].
  assert (P1 : prove (S 1000) initial_prover (Var "A") [Var "A"] 1 1000 =
               Some (Ok (Some [hypothesis 0 (Var "A")], self1))).
  { rewrite (prove_by_hypothesis 1000 initial_prover (Var "A") [Var "A"] 1 1000
               eq_refl ltac:(lia) 0%nat eq_refl).
    exact E1. }
  destruct (prove_safe (S 1000) initial_prover (Var "A") [Var "A"] 1 1000 _
              initial_prover_well_formed eq_refl eq_refl P1)
    as (? & ? & [= <- <-] & W1 & _).
  destruct (returns_well_formed (mkFormula IMPL [Var "A"; Var "A"] "implies") [] 0 self1
              [deduction (Var "A") (Var "A") [hypothesis 0 (Var "A")]]
              eq_refl eq_refl W1)
    as [self2 E2].
  exists self1, self2. split; [exact P1|].
  rewrite (prove_by_deduction (S 1000) initial_prover
             (mkFormula IMPL [Var "A"; Var "A"] "implies") [] 0 1000
             eq_refl ltac:(lia) (Var "A") (Var "A") [hypothesis 0 (Var "A")] self1
             eq_refl eq_refl eq_refl eq_refl P1).
  exact E2.
Qed.

(** ** A failed search stores nothing *)

Lemma mp_loop_none prove_left :
  (forall self left_ self1,
     prove_left self left_ = Some (Ok (None, self1)) -> self1 = self) ->
  forall rest self i target self2,
  mp_loop prove_left self rest i target = Some (Ok (None, self2)) -> self2 = self.
Proof.
  intros Hrec. induction rest as [|hyp rest IH]; intros self i target self2;
    cbn [mp_loop].
  - intros [= <-]. reflexivity.
  - unfold lift. destruct (detaches hyp target) as [[|]|]; cbn [fbind];
      [|apply IH|discriminate].
    destruct (index (children hyp) 0) as [left_|]; cbn [fbind]; [|discriminate].
    destruct (prove_left self left_) as [[[r self1]|]|] eqn:E; cbn [fbind];
      try discriminate.
    destruct r as [proof_left|]; [discriminate|].
    rewrite (Hrec _ _ _ E). apply IH.
Qed.

Section Failure.
Context `{PyHash}.

Lemma prove_none_unchanged fuel : forall self target hypotheses depth max_depth self',
  prove fuel self target hypotheses depth max_depth = Some (Ok (None, self')) ->
  self' = self.
Proof.
  induction fuel as [|fuel IH]; intros self target hypotheses depth max_depth self';
    [discriminate|].
  assert (Hstore : forall self1 proof,
            (let+ self2 := lift (remember self1 (mkKey target hypotheses depth) proof) in
             Some (Ok (Some proof, self2))) = Some (Ok (None, self')) -> self' = self).
  { intros self1 proof. unfold lift.
    destruct (remember _ _ _); cbn [fbind]; discriminate. }
  cbn [prove]. unfold lift.
  destruct (dict_get _ _) as [[cached|]|]; cbn [fbind]; try discriminate.
  destruct (depth >? max_depth); [intros [= <-]; reflexivity|].
  destruct (find_hypothesis _ _ _) as [[i|]|]; cbn [fbind]; try discriminate;
    [apply Hstore|].
  match goal with
  | |- fbind ?m _ = _ -> _ =>
    assert (Hded : forall self1, m = Some (Ok (None, self1)) -> self1 = self)
  end.
  { intros self1.
    destruct (FormulaType_eqb (type target) IMPL); [|intros [= <-]; reflexivity].
    destruct (index (children target) 0); cbn [fbind]; [|discriminate].
    destruct (index (children target) 1); cbn [fbind]; [|discriminate].
    destruct (prove fuel self _ _ _ _) as [[[pr self2]|]|] eqn:E; cbn [fbind];
      try discriminate.
    destruct pr; [discriminate|]. intros [= <-]. apply (IH _ _ _ _ _ _ E). }
  match goal with
  | |- fbind ?m _ = _ -> _ => destruct m as [[[d self1]|]|]
  end; cbn [fbind]; try discriminate.
  destruct d as [proof|]; [apply Hstore|].
  rewrite (Hded self1 eq_refl).
  destruct (mp_loop _ self hypotheses 0%nat target) as [[[m self2]|]|] eqn:E2;
    cbn [fbind]; try discriminate.
  destruct m as [[i proof_left]|]; [apply Hstore|].
  apply mp_loop_none in E2; [|intros s l s1 E; apply (IH _ _ _ _ _ _ E)].
  destruct (match_axioms _ _ _) as [[[axiom_idx substitution]|]|]; cbn [fbind];
    try discriminate; [apply Hstore|].
  intros [= <-]. exact E2.
Qed.

Lemma prove_none_cache_miss fuel self target hypotheses depth max_depth self' :
  prove fuel self target hypotheses depth max_depth = Some (Ok (None, self')) ->
  dict_get (proof_cache self) (mkKey target hypotheses depth) = Ok None.
Proof.
  destruct fuel as [|fuel]; [discriminate|]. cbn [prove]. unfold lift.
  destruct (dict_get _ _) as [[cached|]|]; cbn [fbind]; try discriminate.
  reflexivity.
Qed.
End Failure.

(** ** The modus ponens loop, hypothesis by hypothesis *)

Section LoopByHypothesis.
Context `{PyHash}.
Variables (fuel : nat) (target : Formula).
Variables (hypotheses : list Formula) (depth max_depth : Z).

Let prove_left := fun self left_ => prove fuel self left_ hypotheses (depth + 1) max_depth.


End LoopByHypothesis.

(** ** Truth values are kept *)

Lemma eval_not v c name : eval v (mkFormula NOT [c] name) = negb (eval v c).
Proof. reflexivity. Qed.

Lemma equal_eval a :
  well_formed a = true ->
  forall b, well_formed b = true -> equal a b = true ->
  forall v, eval v a = eval v b.
Proof.
  intros Ha. wf_induction a Ha;
    [intros x|intros c x Hc IHc|intros t l r x Ht Hl Hr IHl IHr];
    intros b Hb E v; pose proof (equal_type _ _ E) as T;
    destruct (well_formed_view b Hb) as [w|d w Hd|u l' r' w Hu Hl' Hr'];
    simpl in T; subst; try discriminate.
  - rewrite equal_var in E. apply String.eqb_eq in E. subst. reflexivity.
  - rewrite equal_not in E. simpl. rewrite (IHc d Hd E v). reflexivity.
  - destruct u; try discriminate;
      rewrite ?equal_and, ?equal_or, ?equal_impl in E by assumption;
      repeat match goal with
             | H : _ || _ = true |- _ => apply orb_prop in H as [H|H]
             | H : _ && _ = true |- _ => apply andb_prop in H as [? ?]
             end;
      simpl;
      repeat match goal with
             | E : equal l ?y = true |- _ =>
               rewrite (IHl y ltac:(assumption) E v); clear E
             | E : equal r ?y = true |- _ =>
               rewrite (IHr y ltac:(assumption) E v); clear E
             end;
      first [reflexivity | apply andb_comm | apply orb_comm].
Qed.

Lemma normalize_formula_eval f :
  well_formed f = true ->
  forall g, normalize_formula_node f = Ok g -> forall v, eval v g = eval v f.
Proof.
  intros Hf. wf_induction f Hf;
    [intros x|intros c x Hc _|intros t l r x Ht Hl Hr IHl IHr]; intros g E v.
  - injection E as <-. reflexivity.
  - injection E as <-. reflexivity.
  - destruct (normalize_formula_total l Hl) as (nl & El & _).
    destruct (normalize_formula_total r Hr) as (nr & Er & _).
    destruct t; try discriminate.
    + rewrite normalize_formula_and, El, Er in E. injection E as <-. simpl.
      rewrite (IHl nl El v), (IHr nr Er v).
      destruct (eval v l), (eval v r); reflexivity.
    + rewrite normalize_formula_or, El, Er in E. injection E as <-. simpl.
      rewrite (IHl nl El v), (IHr nr Er v).
      destruct (eval v l), (eval v r); reflexivity.
    + injection E as <-. reflexivity.
Qed.

(** The truth value of an instance of a pattern is the truth value of the
    pattern under the bindings. *)
Lemma apply_substitution_eval pattern s v :
  eval v (apply_substitution pattern s) = eval (subst_valuation v s) pattern.
Proof.
  induction pattern as [t ch name IH] using Formula_children_ind.
  cbn [apply_substitution].
  destruct (FormulaType_eqb t VAR) eqn:Et.
  - apply bool_decide_eq_true_1 in Et. subst t. unfold subst_valuation. simpl.
    destruct (s !! name); [rewrite copy_formula_id|]; reflexivity.
  - destruct t; try discriminate;
      destruct IH as [|c0 ch0 H0 [|c1 ch1 H1 _]]; simpl; rewrite ?H0, ?H1; reflexivity.
Qed.

(** ** The axioms and their instances *)

Lemma initial_axioms_tautologies : Forall tautology (axioms initial_prover).
Proof.
  repeat constructor; intros v; simpl;
    destruct (v "A"), (v "B"), (v "C"); reflexivity.
Qed.

Lemma match_pattern_tautology ax target s :
  well_formed target = true -> tautology ax ->
  match_pattern ax target ∅ = Ok (Some s) -> tautology target.
Proof.
  intros Ht Hax Hm v.
  destruct (match_pattern_sound ax target ∅ s Ht) as (_ & _ & _ & Wa & Ea);
    [intros k f Hk; rewrite lookup_empty in Hk; discriminate|exact Hm|].
  rewrite <- (equal_eval _ Wa _ Ht Ea v), apply_substitution_eval. apply Hax.
Qed.

Lemma match_axioms_tautology axioms target : forall i r,
  well_formed target = true -> Forall tautology axioms ->
  match_axioms axioms target i = Ok (Some r) -> tautology target.
Proof.
  induction axioms as [|ax rest IH]; intros i r Ht Hax; [discriminate|].
  apply Forall_cons in Hax as [Hax Hrest]. cbn [match_axioms].
  destruct (match_pattern ax target ∅) as [[s|]|e] eqn:E; simpl; try discriminate.
  - intros _. apply (match_pattern_tautology ax target s Ht Hax E).
  - apply IH; assumption.
Qed.

(** ** The cache holds true sequents *)

Lemma tuple_eq_eval v : forall w,
  forallb well_formed v = true -> forallb well_formed w = true ->
  tuple_eq v w = Ok true ->
  forall val, forallb (eval val) v = forallb (eval val) w.
Proof.
  induction v as [|x v IH]; intros [|y w] Hv Hw; simpl; try discriminate;
    [reflexivity|].
  simpl in Hv, Hw. apply andb_prop in Hv as [Hx Hv]. apply andb_prop in Hw as [Hy Hw].
  rewrite (is_equal_total _ Hx _ Hy). simpl.
  destruct (equal x y) eqn:E; [|discriminate].
  intros Ht val. rewrite (equal_eval x Hx y Hy E val), (IH w Hv Hw Ht val). reflexivity.
Qed.

Lemma key_eq_entails k1 k2 :
  key_well_formed k1 = true -> key_well_formed k2 = true ->
  key_eq k1 k2 = Ok true ->
  entails (key_hypotheses k1) (key_target k1) ->
  entails (key_hypotheses k2) (key_target k2).
Proof.
  unfold key_well_formed, key_eq. intros H1 H2.
  apply andb_prop in H1 as [T1 L1]. apply andb_prop in H2 as [T2 L2].
  simpl. rewrite (is_equal_total _ T1 _ T2). simpl.
  destruct (equal _ _) eqn:Et; simpl; [|discriminate].
  destruct (tuple_eq _ _) as [[|]|] eqn:Eh; simpl; try discriminate.
  intros _ Hent v Hv.
  rewrite <- (equal_eval _ T1 _ T2 Et v). apply Hent.
  rewrite (tuple_eq_eval _ _ L1 L2 Eh v). exact Hv.
Qed.

Lemma dict_find_found cache h key e :
  dict_find cache h key = Ok (Some e) ->
  In e cache /\ key_eq (me_key e) key = Ok true.
Proof.
  induction cache as [|e' cache IH]; simpl; [discriminate|].
  destruct (me_hash e' =? h).
  - destruct (key_eq (me_key e') key) as [[|]|] eqn:Ek; simpl; try discriminate.
    + intros [= ->]. auto.
    + intros E. destruct (IH E); auto.
  - intros E. destruct (IH E); auto.
Qed.

Lemma cache_well_formed_In cache e :
  cache_well_formed cache = true -> In e cache -> key_well_formed (me_key e) = true.
Proof.
  unfold cache_well_formed. rewrite forallb_forall. intros Hc He. apply (Hc e He).
Qed.

Section CacheSound.
Context `{PyHash}.

Lemma dict_get_sound cache key proof :
  cache_well_formed cache = true -> cache_sound cache ->
  key_well_formed key = true ->
  dict_get cache key = Ok (Some proof) ->
  entails (key_hypotheses key) (key_target key).
Proof.
  intros Wc Sc Wk. unfold dict_get.
  destruct (hash_key key) as [h|]; simpl; [|discriminate].
  destruct (dict_find cache h key) as [[e|]|] eqn:E; simpl; try discriminate.
  intros _. apply dict_find_found in E as [He Ek].
  apply (key_eq_entails (me_key e) key); [|exact Wk|exact Ek|].
  - apply (cache_well_formed_In cache e Wc He).
  - unfold cache_sound in Sc. rewrite Forall_forall in Sc. apply Sc.
    apply list_elem_of_In. exact He.
Qed.

Lemma dict_replace_sound cache h key v : forall cache',
  cache_sound cache ->
  dict_replace cache h key v = Ok (Some cache') -> cache_sound cache'.
Proof.
  induction cache as [|e cache IH]; intros cache' Sc; simpl; [discriminate|].
  apply Forall_cons in Sc as [Se Sc].
  destruct (if me_hash e =? h then key_eq (me_key e) key else Ok false) as [[|]|];
    simpl; try discriminate.
  - intros [= <-]. constructor; [exact Se|exact Sc].
  - destruct (dict_replace cache h key v) as [[c|]|]; simpl; try discriminate.
    intros [= <-]. constructor; [exact Se|]. apply IH; [exact Sc|reflexivity].
Qed.

Lemma dict_set_sound cache key v cache' :
  cache_sound cache -> entails (key_hypotheses key) (key_target key) ->
  dict_set cache key v = Ok cache' -> cache_sound cache'.
Proof.
  intros Sc Hk. unfold dict_set.
  destruct (hash_key key) as [h|]; simpl; [|discriminate].
  destruct (dict_replace cache h key v) as [[c|]|] eqn:E; simpl; try discriminate.
  - intros [= <-]. apply (dict_replace_sound cache h key v c Sc E).
  - intros [= <-]. apply Forall_app. split; [exact Sc|].
    constructor; [exact Hk|constructor].
Qed.
End CacheSound.

(** ** The search is sound *)

Lemma find_hypothesis_found hypotheses target : forall i0 i,
  find_hypothesis hypotheses target i0 = Ok (Some i) ->
  exists hyp, In hyp hypotheses /\ is_equal (Some hyp) (Some target) = Ok true.
Proof.
  induction hypotheses as [|hyp rest IH]; intros i0 i; cbn [find_hypothesis];
    [discriminate|].
  destruct (is_equal (Some hyp) (Some target)) as [[|]|] eqn:E; simpl; try discriminate.
  - intros _. exists hyp. split; [left; reflexivity|exact E].
  - intros Hrest. destruct (IH _ _ Hrest) as (h & Hin & Hh).
    exists h. split; [right; exact Hin|exact Hh].
Qed.

Lemma entails_member hypotheses hyp :
  In hyp hypotheses -> entails hypotheses hyp.
Proof.
  intros Hin v Hv. rewrite forallb_forall in Hv. apply Hv, Hin.
Qed.

Lemma entails_equal hypotheses a b :
  well_formed a = true -> well_formed b = true ->
  is_equal (Some a) (Some b) = Ok true ->
  entails hypotheses a -> entails hypotheses b.
Proof.
  intros Ha Hb. unfold is_equal. rewrite (is_equal_total a Ha b Hb). intros [= E] Hent v Hv.
  rewrite <- (equal_eval a Ha b Hb E v). apply Hent, Hv.
Qed.

Lemma entails_deduction hypotheses a b name :
  entails (hypotheses ++ [a]) b ->
  entails hypotheses (mkFormula IMPL [a; b] name).
Proof.
  intros Hent v Hv. simpl. destruct (eval v a) eqn:Ea; [|reflexivity]. simpl.
  apply Hent. rewrite forallb_app. simpl. rewrite Hv, Ea. reflexivity.
Qed.

Lemma entails_modus_ponens hypotheses a b name :
  entails hypotheses (mkFormula IMPL [a; b] name) ->
  entails hypotheses a -> entails hypotheses b.
Proof.
  intros Himp Ha v Hv. specialize (Himp v Hv). specialize (Ha v Hv).
  simpl in Himp. rewrite Ha in Himp. exact Himp.
Qed.

Section ProveSound.
Context `{PyHash}.

Lemma remember_sound self key proof :
  prover_well_formed self -> cache_sound (proof_cache self) ->
  key_well_formed key = true ->
  entails (key_hypotheses key) (key_target key) ->
  exists self', remember self key proof = Ok self' /\
    prover_well_formed self' /\ cache_sound (proof_cache self') /\
    axioms self' = axioms self.
Proof.
  intros Wc Sc Wk Hk. unfold remember.
  destruct (dict_set_total _ key proof Wc Wk) as (c & E & Wc').
  rewrite E. simpl. eexists; split; [reflexivity|].
  split; [exact Wc'|]. split; [|reflexivity].
  apply (dict_set_sound _ key proof c Sc Hk E).
Qed.

Lemma mp_loop_sound prove_left hypotheses axs :
  (forall self left_ res,
     prover_well_formed self -> cache_sound (proof_cache self) ->
     axioms self = axs -> well_formed left_ = true ->
     prove_left self left_ = Some res ->
     @sound_result (list ProofStep) self hypotheses left_ res) ->
  forall rest self i target res,
  forallb well_formed rest = true ->
  (forall hyp, In hyp rest -> entails hypotheses hyp) ->
  well_formed target = true ->
  prover_well_formed self -> cache_sound (proof_cache self) ->
  axioms self = axs ->
  mp_loop prove_left self rest i target = Some res ->
  sound_result self hypotheses target res.
Proof.
  intros Hrec. induction rest as [|hyp rest IH];
    intros self i target res Hrest Hin Ht Wself Sself Aself; cbn [mp_loop].
  - intros [= <-]. exists None, self. repeat split; auto. congruence.
  - simpl in Hrest. apply andb_prop in Hrest as [Hhyp Hrest]. unfold lift, detaches.
    assert (Hin' : forall hyp', In hyp' rest -> entails hypotheses hyp')
      by (intros hyp' Hh; apply Hin; right; exact Hh).
    destruct (FormulaType_eqb (type hyp) IMPL) eqn:Ei; cbn [fbind];
      [|apply IH; assumption].
    apply bool_decide_eq_true_1 in Ei.
    destruct (well_formed_impl_children hyp Hhyp Ei) as (a & b & name & -> & Ha & Hb).
    simpl. rewrite (is_equal_total b Hb target Ht). cbn [fbind].
    destruct (equal b target) eqn:Eb; [|apply IH; assumption].
    destruct (prove_left self a) as [res1|] eqn:E1; [|discriminate].
    destruct (Hrec self a res1 Wself Sself Aself Ha E1)
      as (pl & self1 & -> & W1 & S1 & A1 & P1).
    cbn [fbind]. destruct pl as [proof_left|].
    + intros [= <-]. exists (Some (i, proof_left)), self1.
      repeat split; auto. intros _.
      apply (entails_equal hypotheses b target Hb Ht).
      { unfold is_equal. rewrite (is_equal_total b Hb target Ht), Eb. reflexivity. }
      apply (entails_modus_ponens hypotheses a b name).
      * apply Hin. left. reflexivity.
      * apply P1. discriminate.
    + intros E2.
      destruct (IH self1 (S i) target res Hrest Hin' Ht W1 S1 ltac:(congruence) E2)
        as (r & self2 & -> & W2 & S2 & A2 & P2).
      exists r, self2. repeat split; auto. congruence.
Qed.

Lemma prove_sound fuel : forall self target hypotheses depth max_depth res,
  prover_well_formed self -> cache_sound (proof_cache self) ->
  Forall tautology (axioms self) ->
  well_formed target = true -> forallb well_formed hypotheses = true ->
  prove fuel self target hypotheses depth max_depth = Some res ->
  sound_result self hypotheses target res.
Proof.
  induction fuel as [|fuel IH];
    intros self target hypotheses depth max_depth res Wself Sself Hax Ht Hh;
    [discriminate|].
  assert (Hk : key_well_formed (mkKey target hypotheses depth) = true)
    by (unfold key_well_formed; simpl; rewrite Ht, Hh; reflexivity).
  assert (Hstore : forall self1 proof res',
            prover_well_formed self1 -> cache_sound (proof_cache self1) ->
            axioms self1 = axioms self -> entails hypotheses target ->
            (let+ self2 := lift (remember self1 (mkKey target hypotheses depth) proof) in
             Some (Ok (Some proof, self2))) = Some res' ->
            sound_result self hypotheses target res').
  { intros self1 proof res' W1 S1 A1 Hent. unfold lift.
    destruct (remember_sound self1 _ proof W1 S1 Hk Hent) as (self2 & -> & W2 & S2 & A2).
    cbn [fbind]. intros [= <-]. exists (Some proof), self2.
    repeat split; auto. congruence. }
  cbn [prove]. unfold lift.
  destruct (dict_get_total _ _ Wself Hk) as [cached Ec]. rewrite Ec. cbn [fbind].
  destruct cached as [proof|].
  { intros [= <-]. exists (Some proof), self. repeat split; auto. intros _.
    apply (dict_get_sound _ _ proof Wself Sself Hk Ec). }
  destruct (depth >? max_depth).
  { intros [= <-]. exists None, self. repeat split; auto. congruence. }
  destruct (find_hypothesis_total hypotheses target 0%nat Hh Ht) as [found Ef].
  rewrite Ef. cbn [fbind]. destruct found as [i|].
  { apply Hstore; auto.
    destruct (find_hypothesis_found _ _ _ _ Ef) as (hyp & Hin & Heq).
    apply (entails_equal hypotheses hyp target); auto.
    - rewrite forallb_forall in Hh. apply Hh, Hin.
    - apply entails_member, Hin. }
  match goal with
  | |- fbind ?m _ = Some res -> _ =>
    assert (Hded : m = None \/ exists d self1, m = Some (Ok (d, self1)) /\
                     prover_well_formed self1 /\ cache_sound (proof_cache self1) /\
                     axioms self1 = axioms self /\
                     (d <> None -> entails hypotheses target))
  end.
  { destruct (FormulaType_eqb (type target) IMPL) eqn:Ei;
      [|right; exists None, self; repeat split; auto; congruence].
    apply bool_decide_eq_true_1 in Ei.
    destruct (well_formed_impl_children target Ht Ei) as (a & b & name & -> & Ha & Hb).
    simpl. cbn [fbind].
    destruct (prove fuel self b (hypotheses ++ [a]) (depth + 1) max_depth)
      as [res1|] eqn:E1; [|left; reflexivity].
    apply IH in E1 as (pr & self1 & -> & W1 & S1 & A1 & P1); auto.
    2: { rewrite forallb_app. simpl. rewrite Hh, Ha. reflexivity. }
    right. cbn [fbind]. destruct pr as [proof_right|].
    - eexists _, self1. repeat split; auto. intros _.
      apply entails_deduction, P1. discriminate.
    - eexists _, self1. repeat split; auto. congruence. }
  destruct Hded as [->|(d & self1 & -> & W1 & S1 & A1 & P1)]; [discriminate|].
  cbn [fbind]. destruct d as [proof|];
    [apply Hstore; [exact W1|exact S1|exact A1|apply P1; discriminate]|].
  destruct (mp_loop _ self1 hypotheses 0%nat target) as [res2|] eqn:E2; [|discriminate].
  apply (mp_loop_sound _ hypotheses (axioms self)) in E2
    as (m & self2 & -> & W2 & S2 & A2 & P2); try assumption.
  2: { intros s l r Ws Ss As Wl E.
       apply (IH s l hypotheses (depth + 1) max_depth r Ws Ss); auto.
       rewrite As. exact Hax. }
  2: { intros hyp Hin. apply entails_member, Hin. }
  cbn [fbind]. destruct m as [[i proof_left]|].
  { apply Hstore; [exact W2|exact S2|congruence|apply P2; discriminate]. }
  assert (Hax2 : Forall tautology (axioms self2)) by (rewrite A2, A1; exact Hax).
  destruct (match_axioms_total (axioms self2) target 0%nat Ht) as [matched Em].
  rewrite Em. cbn [fbind]. destruct matched as [[axiom_idx substitution]|].
  { apply Hstore; [exact W2|exact S2|congruence|].
    intros v _. apply (match_axioms_tautology _ _ _ _ Ht Hax2 Em). }
  intros [= <-]. exists None, self2. repeat split; auto; congruence.
Qed.
End ProveSound.

(** ** From the text to the proof *)

Lemma parse_well_formed text f :
  parse text = Some (Ok f) -> well_formed f = true.
Proof.
  unfold parse.
  destruct (parse_formula _ _) as [[[g st]|e]|] eqn:E; cbn [fbind]; try discriminate.
  intros [= <-]. apply (parse_formula_ok _ _ _ _ E).
Qed.

Lemma normalize_formula_top f g :
  normalize_formula_node f = Ok g -> type g <> AND /\ type g <> OR.
Proof.
  destruct f as [t ch name]. destruct t; simpl.
  - destruct ch as [|c0 [|c1 rest]]; try discriminate.
    + destruct (normalize_formula_node c0); discriminate.
    + destruct (normalize_formula_node c0), (normalize_formula_node c1);
        simpl; try discriminate.
      intros [= <-]. split; discriminate.
  - destruct ch as [|c0 [|c1 rest]]; try discriminate.
    + destruct (normalize_formula_node c0); discriminate.
    + destruct (normalize_formula_node c0), (normalize_formula_node c1);
        simpl; try discriminate.
      intros [= <-]. split; discriminate.
  - intros [= <-]. split; discriminate.
  - intros [= <-]. split; discriminate.
  - intros [= <-]. split; discriminate.
Qed.

Lemma normalize_formula_fixed g :
  type g <> AND -> type g <> OR -> normalize_formula_node g = Ok g.
Proof. destruct g as [t ch name]. destruct t; simpl; intros; congruence. Qed.

(** ** Instances of a pattern *)

Lemma apply_substitution_well_formed pattern s :
  well_formed pattern = true -> bindings_well_formed s ->
  well_formed (apply_substitution pattern s) = true.
Proof.
  intros Hp Hs. wf_induction pattern Hp;
    [intros x|intros c x Hc IHc|intros t l r x Ht Hl Hr IHl IHr].
  - simpl. destruct (s !! x) as [b|] eqn:Eb; [|reflexivity].
    rewrite copy_formula_id. apply (Hs x b Eb).
  - simpl. exact IHc.
  - destruct t; try discriminate; simpl; rewrite IHl, IHr; reflexivity.
Qed.

Lemma apply_substitution_empty pattern :
  well_formed pattern = true -> apply_substitution pattern ∅ = pattern.
Proof.
  intros Hp. wf_induction pattern Hp;
    [intros x|intros c x Hc IHc|intros t l r x Ht Hl Hr IHl IHr].
  - reflexivity.
  - simpl. rewrite IHc. reflexivity.
  - destruct t; try discriminate; simpl; rewrite IHl, IHr; reflexivity.
Qed.

(** Matching a pattern against its own instance under [s] succeeds, from
    any part [acc] of [s], with a part of [s]. *)
Lemma match_pattern_instance pattern s :
  well_formed pattern = true -> bindings_well_formed s ->
  variables_bound pattern s = true ->
  forall acc, acc ⊆ s ->
  exists s', match_pattern pattern (apply_substitution pattern s) acc = Ok (Some s') /\
             acc ⊆ s' /\ s' ⊆ s.
Proof.
  intros Hp Hs. wf_induction pattern Hp;
    [intros x|intros c x Hc IHc|intros t l r x Ht Hl Hr IHl IHr];
    intros Hb acc Hacc.
  - simpl in Hb |- *. apply bool_decide_eq_true_1 in Hb as [b Eb]. rewrite Eb.
    rewrite !copy_formula_id. pose proof (Hs x b Eb) as Wb. simpl in Wb.
    destruct (acc !! x) as [b'|] eqn:Ea.
    + rewrite (lookup_weaken _ _ _ _ Ea Hacc) in Eb. injection Eb as ->.
      unfold is_equal. rewrite (is_equal_total b Wb b Wb), (equal_refl b Wb). simpl.
      exists acc. auto.
    + exists (<[x:=b]> acc). split; [reflexivity|]. split.
      * apply insert_subseteq. exact Ea.
      * apply insert_subseteq_l; assumption.
  - simpl in Hb. rewrite andb_true_r in Hb.
    destruct (IHc Hb acc Hacc) as (s' & E & S1 & S2).
    exists s'. split; [exact E|auto].
  - assert (Hb' : variables_bound l s = true /\ variables_bound r s = true).
    { destruct t; try discriminate; simpl in Hb; rewrite andb_true_r in Hb;
        apply andb_prop in Hb; exact Hb. }
    destruct Hb' as [Hbl Hbr].
    destruct (IHl Hbl acc Hacc) as (s1 & E1 & S1 & S1').
    destruct (IHr Hbr s1 S1') as (s2 & E2 & S2 & S2').
    exists s2. split; [|split; [etrans; eassumption|exact S2']].
    destruct t; try discriminate; simpl; rewrite E1; simpl; exact E2.
Qed.

(** ** White space before the text *)

Lemma skip_whitespace_from_shift k s : forall p,
  skip_whitespace_from (k + p) s = shift k (skip_whitespace_from p s).
Proof.
  induction s as [|c s IH]; intros p; simpl; [reflexivity|].
  destruct (isspace c); [|reflexivity]. rewrite <- IH, Nat.add_succ_r. reflexivity.
Qed.

Lemma read_word_shift k s : forall token p,
  read_word token (k + p) s =
  (fst (read_word token p s), shift k (snd (read_word token p s))).
Proof.
  induction s as [|c s IH]; intros token p; simpl; [reflexivity|].
  destruct (Ascii.eqb c " " || is_paren c); [reflexivity|].
  rewrite <- IH, Nat.add_succ_r. reflexivity.
Qed.

Lemma read_token_shift k self :
  read_token (shift k self) =
  (fst (read_token self), shift k (snd (read_token self))).
Proof.
  unfold read_token, skip_whitespace. simpl. rewrite skip_whitespace_from_shift.
  destruct (skip_whitespace_from (pos self) (unread self)) as [p s]. simpl.
  destruct s as [|c s]; [reflexivity|].
  destruct (is_paren c); [|apply read_word_shift].
  unfold shift. simpl. rewrite Nat.add_succ_r. reflexivity.
Qed.

Lemma read_close_shift {A : Type} k self (a : A) :
  same_parse k (read_close self a) (read_close (shift k self) a).
Proof.
  unfold read_close. rewrite read_token_shift.
  destruct (read_token self) as [close_paren st]. simpl.
  destruct (negb (String.eqb close_paren ")")); simpl; auto.
Qed.

Lemma parse_formula_shift k fuel : forall self,
  same_parse k (parse_formula fuel self) (parse_formula fuel (shift k self)).
Proof.
  induction fuel as [|fuel IH]; intros self; [exact I|].
  cbn [parse_formula]. rewrite read_token_shift.
  destruct (read_token self) as [token st1]. cbn [fst snd].
  destruct (String.eqb token "(");
    [|destruct (String.eqb token ""); simpl; auto].
  rewrite read_token_shift. destruct (read_token st1) as [op_token st2]. cbn [fst snd].
  destruct (str2type op_token).
  1, 2, 4:
    pose proof (IH st2) as H2;
    destruct (parse_formula fuel st2) as [[[l st3]|e3]|],
             (parse_formula fuel (shift k st2)) as [[[l' st3']|e3']|];
      simpl in H2; try contradiction; cbn [fbind]; try exact I;
    destruct H2 as [-> ->];
    pose proof (IH st3) as H3;
    destruct (parse_formula fuel st3) as [[[r st4]|e4]|],
             (parse_formula fuel (shift k st3)) as [[[r' st4']|e4']|];
      simpl in H3; try contradiction; cbn [fbind]; try exact I;
    destruct H3 as [-> ->]; apply read_close_shift.
  - pose proof (IH st2) as H2.
    destruct (parse_formula fuel st2) as [[[c st3]|e3]|],
             (parse_formula fuel (shift k st2)) as [[[c' st3']|e3']|];
      simpl in H2; try contradiction; cbn [fbind]; try exact I.
    destruct H2 as [-> ->]. apply read_close_shift.
  - apply read_close_shift.
Qed.

Lemma skip_whitespace_from_space ws text : forall p,
  all_space ws = true ->
  skip_whitespace_from p (ws +:+ text) =
  skip_whitespace_from (String.length ws + p) text.
Proof.
  induction ws as [|c ws IH]; intros p Hws; [reflexivity|].
  simpl in Hws. apply andb_prop in Hws as [Hc Hws].
  rewrite append_cons. simpl. rewrite Hc, (IH _ Hws), Nat.add_succ_r. reflexivity.
Qed.

Lemma parse_formula_space fuel ws text p :
  all_space ws = true ->
  parse_formula fuel (mkParser p (ws +:+ text)) =
  parse_formula fuel (shift (String.length ws) (mkParser p text)).
Proof.
  intros Hws. destruct fuel as [|fuel]; [reflexivity|].
  cbn [parse_formula]. unfold read_token at 1 3, skip_whitespace, shift. simpl.
  rewrite (skip_whitespace_from_space ws text p Hws). reflexivity.
Qed.

(** The parser on a text and on the text after white space. *)
Lemma parse_space ws text :
  all_space ws = true ->
  exists r r',
    parse_formula (S (String.length text)) (Parser_init text) = Some r /\
    parse_formula (S (String.length (ws +:+ text))) (Parser_init (ws +:+ text)) =
      Some r' /\
    same_parse (String.length ws) (Some r) (Some r').
Proof.
  intros Hws.
  destruct (parse_formula_total (S (String.length text)) (Parser_init text))
    as [r E]; [simpl; lia|].
  exists r. unfold Parser_init in *.
  rewrite (parse_formula_space _ ws text 0 Hws).
  pose proof (parse_formula_shift (String.length ws) (S (String.length (ws +:+ text)))
                (mkParser 0 text)) as Hs.
  rewrite (parse_formula_mono _ _ _ (S (String.length (ws +:+ text))) E) in Hs
    by (rewrite length_append; lia).
  destruct (parse_formula _ (shift _ _)) as [r'|]; [|destruct r as [[? ?]|?]; destruct Hs].
  exists r'. auto.
Qed.

(** ** A stored proof is found again *)

Lemma tuple_eq_refl v :
  forallb well_formed v = true -> tuple_eq v v = Ok true.
Proof.
  induction v as [|x v IH]; simpl; [reflexivity|]. intros Hv.
  apply andb_prop in Hv as [Hx Hv].
  rewrite (is_equal_total x Hx x Hx), (equal_refl x Hx). simpl. apply IH, Hv.
Qed.

Lemma key_eq_refl k : key_well_formed k = true -> key_eq k k = Ok true.
Proof.
  unfold key_well_formed, key_eq. intros Hk. apply andb_prop in Hk as [Ht Hl].
  simpl. rewrite (is_equal_total _ Ht _ Ht), (equal_refl _ Ht). simpl.
  rewrite (tuple_eq_refl _ Hl). simpl. rewrite Z.eqb_refl. reflexivity.
Qed.

Lemma dict_find_replaced cache h key v : forall cache',
  dict_replace cache h key v = Ok (Some cache') ->
  exists e, dict_find cache' h key = Ok (Some e) /\ me_value e = v.
Proof.
  induction cache as [|e cache IH]; intros cache'; simpl; [discriminate|].
  destruct (me_hash e =? h) eqn:Eh.
  - destruct (key_eq (me_key e) key) as [[|]|] eqn:Ek; simpl; try discriminate.
    + intros [= <-]. simpl. rewrite Eh, Ek. simpl. eexists; split; reflexivity.
    + destruct (dict_replace cache h key v) as [[c|]|]; simpl; try discriminate.
      intros [= <-]. simpl. rewrite Eh, Ek. simpl. apply IH. reflexivity.
  - simpl. destruct (dict_replace cache h key v) as [[c|]|]; simpl; try discriminate.
    intros [= <-]. simpl. rewrite Eh. apply IH. reflexivity.
Qed.

Lemma dict_find_appended cache h key v :
  key_eq key key = Ok true ->
  dict_replace cache h key v = Ok None ->
  dict_find (cache ++ [mkEntry h key v]) h key = Ok (Some (mkEntry h key v)).
Proof.
  intros Hrefl. induction cache as [|e cache IH]; simpl.
  - intros _. rewrite Z.eqb_refl, Hrefl. reflexivity.
  - destruct (me_hash e =? h).
    + destruct (key_eq (me_key e) key) as [[|]|]; simpl; try discriminate.
      destruct (dict_replace cache h key v) as [[c|]|]; simpl; try discriminate.
      intros _. apply IH. reflexivity.
    + simpl. destruct (dict_replace cache h key v) as [[c|]|]; simpl; try discriminate.
      intros _. apply IH. reflexivity.
Qed.

Section Memo.
Context `{PyHash}.

(** [cache[key] = v] followed by [cache[key]] gives [v]. *)
Lemma dict_get_set cache key v cache' :
  key_well_formed key = true ->
  dict_set cache key v = Ok cache' ->
  dict_get cache' key = Ok (Some v).
Proof.
  intros Wk. unfold dict_set, dict_get.
  destruct (hash_key key) as [h|]; simpl; [|discriminate].
  destruct (dict_replace cache h key v) as [[c|]|] eqn:E; simpl; try discriminate.
  - intros [= <-]. destruct (dict_find_replaced cache h key v c E) as (e & -> & <-).
    reflexivity.
  - intros [= <-]. rewrite (dict_find_appended cache h key v (key_eq_refl key Wk) E).
    reflexivity.
Qed.


(** A proof that [prove] returns is in the cache it leaves, under the key
    of the call. *)
Lemma prove_remembers fuel self target hypotheses depth max_depth proof self' :
  well_formed target = true -> forallb well_formed hypotheses = true ->
  prove fuel self target hypotheses depth max_depth = Some (Ok (Some proof, self')) ->
  dict_get (proof_cache self') (mkKey target hypotheses depth) = Ok (Some proof).
Proof.
  intros Ht Hh. destruct fuel as [|fuel]; [discriminate|].
  assert (Hk : key_well_formed (mkKey target hypotheses depth) = true)
    by (unfold key_well_formed; simpl; rewrite Ht, Hh; reflexivity).
  assert (Hstore : forall self1 proof1,
            (let+ self2 := lift (remember self1 (mkKey target hypotheses depth) proof1) in
             Some (Ok (Some proof1, self2))) = Some (Ok (Some proof, self')) ->
            dict_get (proof_cache self') (mkKey target hypotheses depth) =
            Ok (Some proof)).
  { intros self1 proof1. unfold lift, remember.
    destruct (dict_set _ _ _) as [c|] eqn:E; simpl; [|discriminate].
    intros [= <- <-]. simpl. apply (dict_get_set _ _ _ _ Hk E). }
  cbn [prove]. unfold lift.
  destruct (dict_get (proof_cache self) _) as [[cached|]|] eqn:Ec; cbn [fbind];
    try discriminate.
  { intros [= <- <-]. exact Ec. }
  destruct (depth >? max_depth); [discriminate|].
  destruct (find_hypothesis _ _ _) as [[i|]|]; cbn [fbind]; try discriminate;
    [apply Hstore|].
  match goal with
  | |- fbind ?m _ = _ -> _ => destruct m as [[[[d|] self1]|]|]
  end; cbn [fbind]; try discriminate; [apply Hstore|].
  destruct (mp_loop _ _ _ _ _) as [[[[[i proof_left]|] self2]|]|]; cbn [fbind];
    try discriminate; [apply Hstore|].
  destruct (match_axioms _ _ _) as [[[axiom_idx substitution]|]|]; cbn [fbind];
    try discriminate. apply Hstore.
Qed.
End Memo.

(** ** The search at the depth bound *)

Lemma mp_loop_no_progress prove_left self :
  (forall left_ r self1,
     prove_left self left_ = Some (Ok (r, self1)) -> r = None /\ self1 = self) ->
  forall rest i target m self2,
  mp_loop prove_left self rest i target = Some (Ok (m, self2)) ->
  m = None /\ self2 = self.
Proof.
  intros Hrec. induction rest as [|hyp rest IH]; intros i target m self2;
    cbn [mp_loop].
  - intros [= <- <-]. auto.
  - unfold lift. destruct (detaches hyp target) as [[|]|]; cbn [fbind];
      [|apply IH|discriminate].
    destruct (index (children hyp) 0) as [left_|]; cbn [fbind]; [|discriminate].
    destruct (prove_left self left_) as [[[r self1]|]|] eqn:E; cbn [fbind];
      try discriminate.
    destruct (Hrec left_ r self1 E) as [-> ->]. apply IH.
Qed.

Section DepthBound.
Context `{PyHash}.

Lemma prove_beyond_depth fuel self target hypotheses depth max_depth r self' :
  proof_cache self = [] -> depth > max_depth ->
  prove fuel self target hypotheses depth max_depth = Some (Ok (r, self')) ->
  r = None /\ self' = self.
Proof.
  intros Hc Hd. destruct fuel as [|fuel]; [discriminate|].
  cbn [prove]. unfold lift, dict_get. rewrite Hc.
  destruct (hash_key _) as [h|]; cbn [bind dict_find fbind fmap option_fmap option_map];
    [|discriminate].
  replace (depth >? max_depth) with true by lia.
  intros [= <- <-]. auto.
Qed.
End DepthBound.

(** ** Tokens *)

Lemma read_word_word w : forall token p rest,
  all_word_chars w = true -> delimited rest = true ->
  read_word token p (w +:+ rest) =
  (token +:+ w, mkParser (p + String.length w) rest).
Proof.
  induction w as [|c w IH]; intros token p rest Hw Hr.
  - rewrite append_nil_r, Nat.add_0_r. simpl.
    destruct rest as [|d rest]; [reflexivity|].
    simpl in Hr |- *. rewrite Hr. reflexivity.
  - simpl in Hw. apply andb_prop in Hw as [Hc Hw].
    rewrite append_cons. simpl. unfold word_char in Hc.
    apply negb_true_iff in Hc. rewrite Hc.
    rewrite (IH _ _ _ Hw Hr), append_assoc, append_cons.
    f_equal. f_equal. lia.
Qed.

Lemma read_token_word w p rest :
  is_word w = true -> delimited rest = true ->
  read_token (mkParser p (w +:+ rest)) = (w, mkParser (p + String.length w) rest).
Proof.
  destruct w as [|c w]; [discriminate|]. unfold is_word. intros Hw Hr.
  apply andb_prop in Hw as [Hc Hw]. apply negb_true_iff in Hc.
  pose proof Hw as Hw'. simpl in Hw'. apply andb_prop in Hw' as [Hc' _].
  unfold word_char in Hc'. apply negb_true_iff in Hc'. apply orb_false_elim in Hc' as [_ Hp].
  unfold read_token, skip_whitespace. rewrite append_cons.
  cbn [pos unread skip_whitespace_from]. rewrite Hc. cbn [pos unread]. rewrite Hp.
  rewrite <- append_cons. apply (read_word_word _ "" p rest Hw Hr).
Qed.

(** ** Names alone and in parentheses *)

Lemma valid_name_not_open name : valid_name name = true -> String.eqb name "(" = false.
Proof.
  intros Hn. destruct (String.eqb name "(") eqn:E; [|reflexivity].
  apply String.eqb_eq in E. subst name. discriminate.
Qed.

Lemma valid_name_not_empty name : valid_name name = true -> String.eqb name "" = false.
Proof.
  intros Hn. destruct (String.eqb name "") eqn:E; [|reflexivity].
  apply String.eqb_eq in E. subst name. discriminate.
Qed.

Lemma parse_formula_parenthesized name :
  valid_name name = true -> str2type name = VAR ->
  parse_formula 1 (Parser_init ("(" +:+ name +:+ ")")) =
  Some (Ok (Var name, mkParser (S (S (String.length name))) "")).
Proof.
  intros Hn Hv. unfold Parser_init. cbn [parse_formula].
  change ("(" +:+ name +:+ ")") with (String "(" (name +:+ ")")).
  rewrite read_token_open. cbn [String.eqb Ascii.eqb Bool.eqb].
  rewrite (read_token_name name 1 ")" Hn eq_refl), Hv.
  reflexivity.
Qed.

(** ** Printing is injective up to equality *)

Lemma formula2str_equal f g s :
  well_formed f = true -> names_valid f = true ->
  well_formed g = true -> names_valid g = true ->
  formula2str f = Ok s -> formula2str g = Ok s ->
  equal f g = true.
Proof.
  intros Wf Nf Wg Ng Ef Eg.
  destruct (parse_formula_print f Wf Nf) as (s1 & f' & n1 & Es1 & Wf' & Ef' & Hp1 & _).
  destruct (parse_formula_print g Wg Ng) as (s2 & g' & n2 & Es2 & Wg' & Eg' & Hp2 & _).
  rewrite Ef in Es1. injection Es1 as <-. rewrite Eg in Es2. injection Es2 as <-.
  pose proof (Hp1 (Nat.max n1 n2) 0%nat "" ltac:(lia) eq_refl) as P1.
  pose proof (Hp2 (Nat.max n1 n2) 0%nat "" ltac:(lia) eq_refl) as P2.
  rewrite P1 in P2. injection P2 as <-.
  apply (equal_trans f Wf f' g Wf' Wg); [|exact Eg'].
  rewrite (equal_sym f Wf f' Wf'). exact Ef'.
Qed.

(** ** A search that finds nothing *)

Lemma find_hypothesis_none_inv hypotheses target : forall i,
  find_hypothesis hypotheses target i = Ok None ->
  forall hyp, In hyp hypotheses -> is_equal (Some hyp) (Some target) = Ok false.
Proof.
  induction hypotheses as [|h rest IH]; intros i E hyp Hin; [destruct Hin|].
  cbn [find_hypothesis] in E.
  destruct (is_equal (Some h) (Some target)) as [[|]|] eqn:Eh; simpl in E;
    try discriminate.
  destruct Hin as [<-|Hin]; [exact Eh|]. apply (IH _ E hyp Hin).
Qed.

Lemma match_axioms_none_inv axioms target : forall i,
  match_axioms axioms target i = Ok None ->
  forall ax, In ax axioms -> match_pattern ax target ∅ = Ok None.
Proof.
  induction axioms as [|a rest IH]; intros i E ax Hin; [destruct Hin|].
  cbn [match_axioms] in E.
  destruct (match_pattern a target ∅) as [[s|]|] eqn:Ea; simpl in E; try discriminate.
  destruct Hin as [<-|Hin]; [exact Ea|]. apply (IH _ E ax Hin).
Qed.

Section NoProof.
Context `{PyHash}.

(** When a call that reaches the rules returns "no proof found", no
    hypothesis is equal to the target and no axiom matches it. *)
Lemma prove_none_inv fuel self target hypotheses depth max_depth self' :
  depth <= max_depth ->
  prove fuel self target hypotheses depth max_depth = Some (Ok (None, self')) ->
  find_hypothesis hypotheses target 0 = Ok None /\
  match_axioms (axioms self) target 0 = Ok None.
Proof.
  intros Hd. destruct fuel as [|fuel]; [discriminate|].
  assert (Hstore : forall self1 proof,
            (let+ self2 := lift (remember self1 (mkKey target hypotheses depth) proof) in
             Some (Ok (Some proof, self2))) = Some (Ok (None, self')) -> False).
  { intros self1 proof. unfold lift.
    destruct (remember _ _ _); cbn [fbind]; discriminate. }
  cbn [prove]. unfold lift.
  destruct (dict_get _ _) as [[cached|]|]; cbn [fbind]; try discriminate.
  replace (depth >? max_depth) with false by lia.
  destruct (find_hypothesis _ _ _) as [[i|]|] eqn:Ef; cbn [fbind]; try discriminate.
  { intros E. destruct (Hstore _ _ E). }
  match goal with
  | |- fbind ?m _ = _ -> _ =>
    assert (Hded : forall self1, m = Some (Ok (None, self1)) -> self1 = self)
  end.
  { intros self1.
    destruct (FormulaType_eqb (type target) IMPL); [|intros [= <-]; reflexivity].
    destruct (index (children target) 0); cbn [fbind]; [|discriminate].
    destruct (index (children target) 1); cbn [fbind]; [|discriminate].
    destruct (prove fuel self _ _ _ _) as [[[pr self2]|]|] eqn:E; cbn [fbind];
      try discriminate.
    destruct pr; [discriminate|]. intros [= <-].
    apply (prove_none_unchanged _ _ _ _ _ _ _ E). }
  match goal with
  | |- fbind ?m _ = _ -> _ => destruct m as [[[d self1]|]|]
  end; cbn [fbind]; try discriminate.
  destruct d as [proof|]; [intros E; destruct (Hstore _ _ E)|].
  rewrite (Hded self1 eq_refl).
  destruct (mp_loop _ self hypotheses 0%nat target) as [[[m self2]|]|] eqn:E2;
    cbn [fbind]; try discriminate.
  destruct m as [[i proof_left]|]; [intros E; destruct (Hstore _ _ E)|].
  apply mp_loop_none in E2;
    [|intros s l s1 E; apply (prove_none_unchanged _ _ _ _ _ _ _ E)].
  subst self2.
  destruct (match_axioms (axioms self) target 0) as [[[axiom_idx substitution]|]|];
    cbn [fbind]; try discriminate.
  { intros E. destruct (Hstore _ _ E). }
  intros _. split; reflexivity.
Qed.
End NoProof.

(** ** The cache grows at its end *)

Lemma cache_extended_refl d cache : cache_extended_from d cache cache.
Proof. exists []. rewrite app_nil_r. auto. Qed.

Lemma cache_extended_trans d c1 c2 c3 :
  cache_extended_from d c1 c2 -> cache_extended_from d c2 c3 ->
  cache_extended_from d c1 c3.
Proof.
  intros (a12 & -> & F12) (a23 & -> & F23). exists (a12 ++ a23).
  rewrite app_assoc. split; [reflexivity|]. apply Forall_app. auto.
Qed.

Lemma cache_extended_weaken d d' c1 c2 :
  d <= d' -> cache_extended_from d' c1 c2 -> cache_extended_from d c1 c2.
Proof.
  intros Hd (added & -> & F). exists added. split; [reflexivity|].
  eapply Forall_impl; [exact F|]. intros e He. simpl in He. lia.
Qed.

Lemma key_eq_depth k1 k2 b :
  key_eq k1 k2 = Ok b -> key_depth k1 <> key_depth k2 -> b = false.
Proof.
  unfold key_eq. intros E Hd.
  destruct (is_equal _ _) as [[|]|]; simpl in E; try discriminate; [|congruence].
  destruct (tuple_eq _ _) as [[|]|]; simpl in E; try discriminate; [|congruence].
  injection E as <-. apply Z.eqb_neq. exact Hd.
Qed.

(** A key that the cache does not hold is not found among entries of
    another depth either. *)
Lemma dict_find_extended cache cache' h key :
  cache_well_formed cache' = true -> key_well_formed key = true ->
  cache_extended_from (key_depth key + 1) cache cache' ->
  dict_find cache h key = Ok None ->
  dict_find cache' h key = Ok None.
Proof.
  intros Wc Wk (added & -> & F) Hnone.
  assert (Hadded : forall e, In e added -> key_eq (me_key e) key = Ok false).
  { intros e He.
    destruct (key_eq_total (me_key e) key) as [b Eb];
      [apply (cache_well_formed_In (cache ++ added) e Wc), in_or_app; auto|exact Wk|].
    rewrite Eb. f_equal. apply (key_eq_depth _ _ _ Eb).
    apply List.Forall_forall with (x := e) in F; [|exact He]. simpl in F. lia. }
  clear Wc F. induction cache as [|e cache IH]; simpl.
  - clear Hnone. induction added as [|e added IH]; simpl; [reflexivity|].
    rewrite (Hadded e (or_introl eq_refl)).
    destruct (me_hash e =? h); simpl; apply IH; intros e' He'; apply Hadded; right;
      exact He'.
  - simpl in Hnone. destruct (me_hash e =? h); [|apply IH, Hnone].
    destruct (key_eq (me_key e) key) as [[|]|]; simpl in *; try discriminate.
    apply IH, Hnone.
Qed.

Lemma dict_replace_none cache h key v :
  dict_find cache h key = Ok None -> dict_replace cache h key v = Ok None.
Proof.
  induction cache as [|e cache IH]; simpl; [reflexivity|].
  destruct (me_hash e =? h).
  - destruct (key_eq (me_key e) key) as [[|]|]; simpl; try discriminate.
    intros E. rewrite (IH E). reflexivity.
  - simpl. intros E. rewrite (IH E). reflexivity.
Qed.

Lemma dict_find_app_some cache added h key e :
  dict_find cache h key = Ok (Some e) ->
  dict_find (cache ++ added) h key = Ok (Some e).
Proof.
  induction cache as [|e0 cache IH]; simpl; [discriminate|].
  destruct (me_hash e0 =? h); [|exact IH].
  destruct (key_eq (me_key e0) key) as [[|]|]; simpl; auto.
Qed.

Section Extended.
Context `{PyHash}.

Lemma dict_get_app_some cache added key proof :
  dict_get cache key = Ok (Some proof) ->
  dict_get (cache ++ added) key = Ok (Some proof).
Proof.
  unfold dict_get. destruct (hash_key key) as [h|]; simpl; [|discriminate].
  destruct (dict_find cache h key) as [[e|]|] eqn:Ef; simpl; try discriminate.
  rewrite (dict_find_app_some cache added h key e Ef). auto.
Qed.

Lemma remember_appends self key proof self' :
  dict_get (proof_cache self) key = Ok None ->
  remember self key proof = Ok self' ->
  cache_extended_from (key_depth key) (proof_cache self) (proof_cache self').
Proof.
  unfold dict_get, remember, dict_set.
  destruct (hash_key key) as [h|]; simpl; [|discriminate].
  destruct (dict_find (proof_cache self) h key) as [[e|]|] eqn:Ef; simpl;
    try discriminate.
  intros _. rewrite (dict_replace_none _ h key proof Ef). simpl. intros [= <-]. simpl.
  exists [mkEntry h key proof]. split; [reflexivity|].
  constructor; [simpl; lia|constructor].
Qed.

Lemma dict_get_extended cache cache' key :
  cache_well_formed cache' = true -> key_well_formed key = true ->
  cache_extended_from (key_depth key + 1) cache cache' ->
  dict_get cache key = Ok None -> dict_get cache' key = Ok None.
Proof.
  intros Wc Wk G. unfold dict_get.
  destruct (hash_key key) as [h|]; simpl; [|discriminate].
  destruct (dict_find cache h key) as [[e|]|] eqn:Ef; simpl; try discriminate.
  intros _. rewrite (dict_find_extended cache cache' h key Wc Wk G Ef). reflexivity.
Qed.

Lemma mp_loop_extended prove_left d :
  (forall self left_ r self1,
     prover_well_formed self -> well_formed left_ = true ->
     prove_left self left_ = Some (Ok (r, self1)) ->
     prover_well_formed self1 /\
     cache_extended_from d (proof_cache self) (proof_cache self1)) ->
  forall rest self i target m self2,
  forallb well_formed rest = true -> well_formed target = true ->
  prover_well_formed self ->
  mp_loop prove_left self rest i target = Some (Ok (m, self2)) ->
  prover_well_formed self2 /\
  cache_extended_from d (proof_cache self) (proof_cache self2).
Proof.
  intros Hrec. induction rest as [|hyp rest IH];
    intros self i target m self2 Hrest Ht Wself; cbn [mp_loop].
  - intros [= <- <-]. split; [exact Wself|apply cache_extended_refl].
  - simpl in Hrest. apply andb_prop in Hrest as [Hhyp Hrest]. unfold lift, detaches.
    destruct (FormulaType_eqb (type hyp) IMPL) eqn:Ei; cbn [fbind];
      [|apply IH; assumption].
    apply bool_decide_eq_true_1 in Ei.
    destruct (well_formed_impl_children hyp Hhyp Ei) as (a & b & v & -> & Ha & Hb).
    simpl. rewrite (is_equal_total b Hb target Ht). cbn [fbind].
    destruct (equal b target); [|apply IH; assumption].
    destruct (prove_left self a) as [[[r self1]|]|] eqn:E1; cbn [fbind];
      try discriminate.
    destruct (Hrec self a r self1 Wself Ha E1) as [W1 G1].
    destruct r as [proof_left|].
    + intros [= <- <-]. auto.
    + intros E2. destruct (IH self1 (S i) target m self2 Hrest Ht W1 E2) as [W2 G2].
      split; [exact W2|]. apply (cache_extended_trans d _ _ _ G1 G2).
Qed.

(** A call at [depth] leaves the entries of the cache as they are and adds
    entries of that depth or deeper at its end. *)
Lemma prove_extended fuel : forall self target hypotheses depth max_depth r self',
  prover_well_formed self ->
  well_formed target = true -> forallb well_formed hypotheses = true ->
  prove fuel self target hypotheses depth max_depth = Some (Ok (r, self')) ->
  prover_well_formed self' /\
  cache_extended_from depth (proof_cache self) (proof_cache self').
Proof.
  induction fuel as [|fuel IH];
    intros self target hypotheses depth max_depth r self' Wself Ht Hh; [discriminate|].
  assert (Hk : key_well_formed (mkKey target hypotheses depth) = true)
    by (unfold key_well_formed; simpl; rewrite Ht, Hh; reflexivity).
  intros E. split.
  { destruct (prove_safe (S fuel) self target hypotheses depth max_depth _ Wself Ht Hh E)
      as (? & ? & [= <- <-] & W' & _). exact W'. }
  revert E. cbn [prove]. unfold lift.
  destruct (dict_get (proof_cache self) _) as [[cached|]|] eqn:Ec; cbn [fbind];
    try discriminate.
  { intros [= <- <-]. apply cache_extended_refl. }
  assert (Hstore : forall self1 proof,
            prover_well_formed self1 ->
            cache_extended_from (depth + 1) (proof_cache self) (proof_cache self1) ->
            (let+ self2 := lift (remember self1 (mkKey target hypotheses depth) proof) in
             Some (Ok (Some proof, self2))) = Some (Ok (r, self')) ->
            cache_extended_from depth (proof_cache self) (proof_cache self')).
  { intros self1 proof W1 G1. unfold lift.
    destruct (remember _ _ _) as [self2|] eqn:E; cbn [fbind]; [|discriminate].
    intros [= <- <-].
    apply (cache_extended_trans depth _ (proof_cache self1)).
    - apply (cache_extended_weaken depth (depth + 1)); [lia|exact G1].
    - apply (remember_appends self1 (mkKey target hypotheses depth) proof self2);
        [|exact E].
      apply (dict_get_extended (proof_cache self) _ _ W1 Hk G1 Ec). }
  destruct (depth >? max_depth).
  { intros [= <- <-]. apply cache_extended_refl. }
  destruct (find_hypothesis _ _ _) as [[i|]|]; cbn [fbind]; try discriminate.
  { apply Hstore; [exact Wself|apply cache_extended_refl]. }
  match goal with
  | |- fbind ?m _ = _ -> _ =>
    assert (Hded : forall d self1, m = Some (Ok (d, self1)) ->
              prover_well_formed self1 /\
              cache_extended_from (depth + 1) (proof_cache self) (proof_cache self1))
  end.
  { intros d self1.
    destruct (FormulaType_eqb (type target) IMPL) eqn:Ei;
      [|intros [= <- <-]; split; [exact Wself|apply cache_extended_refl]].
    apply bool_decide_eq_true_1 in Ei.
    destruct (well_formed_impl_children target Ht Ei) as (a & b & v & -> & Ha & Hb).
    simpl. cbn [fbind].
    destruct (prove fuel self b (hypotheses ++ [a]) (depth + 1) max_depth)
      as [[[pr self2]|]|] eqn:E1; cbn [fbind]; try discriminate.
    apply IH in E1; [|exact Wself|exact Hb|].
    2: { rewrite forallb_app. simpl. rewrite Hh, Ha. reflexivity. }
    destruct pr; intros [= <- <-]; exact E1. }
  match goal with
  | |- fbind ?m _ = _ -> _ => destruct m as [[[d self1]|]|]
  end; cbn [fbind]; try discriminate.
  destruct (Hded d self1 eq_refl) as [W1 G1].
  destruct d as [proof|]; [apply Hstore; assumption|].
  destruct (mp_loop _ self1 hypotheses 0%nat target) as [[[m self2]|]|] eqn:E2;
    cbn [fbind]; try discriminate.
  apply (mp_loop_extended _ (depth + 1)) in E2 as [W2 G2]; try assumption.
  2: { intros s l r0 s1 Ws Wl E. apply (IH _ _ _ _ _ _ _ Ws Wl Hh E). }
  pose proof (cache_extended_trans _ _ _ _ G1 G2) as G.
  destruct m as [[i proof_left]|]; [apply Hstore; assumption|].
  destruct (match_axioms _ _ _) as [[[axiom_idx substitution]|]|]; cbn [fbind];
    try discriminate; [apply Hstore; assumption|].
  intros [= <- <-]. apply (cache_extended_weaken depth (depth + 1)); [lia|exact G].
Qed.
End Extended.

(** ** A call on a prover that has answered it before *)

Section WarmCache.
Context `{PyHash}.


End WarmCache.

(** ** A larger depth bound *)

Lemma mp_loop_deeper prove_left prove_left' :
  (forall self left_ self1,
     prove_left self left_ = Some (Ok (None, self1)) -> self1 = self) ->
  (forall self left_ self1,
     prove_left' self left_ = Some (Ok (None, self1)) -> self1 = self) ->
  (forall self left_ p self1 r' self1',
     prove_left self left_ = Some (Ok (Some p, self1)) ->
     prove_left' self left_ = Some (Ok (r', self1')) -> r' <> None) ->
  forall rest self i target x self2 m' self2',
  mp_loop prove_left self rest i target = Some (Ok (Some x, self2)) ->
  mp_loop prove_left' self rest i target = Some (Ok (m', self2')) ->
  m' <> None.
Proof.
  intros Hn Hn' Hrec. induction rest as [|hyp rest IH];
    intros self i target x self2 m' self2'; cbn [mp_loop]; [discriminate|].
  unfold lift. destruct (detaches hyp target) as [[|]|]; cbn [fbind];
    [|apply IH|discriminate].
  destruct (index (children hyp) 0) as [left_|]; cbn [fbind]; [|discriminate].
  destruct (prove_left self left_) as [[[r self1]|]|] eqn:E; cbn [fbind];
    try discriminate.
  destruct (prove_left' self left_) as [[[r' self1']|]|] eqn:E'; cbn [fbind];
    try (intros _; discriminate).
  destruct r as [p|].
  - pose proof (Hrec _ _ _ _ _ _ E E') as Hr'.
    destruct r' as [p'|]; [|destruct Hr'; reflexivity].
    intros _ [= <- <-]. discriminate.
  - rewrite (Hn _ _ _ E). destruct r' as [p'|]; [intros _ [= <- <-]; discriminate|].
    rewrite (Hn' _ _ _ E'). apply IH.
Qed.

Section Deeper.
Context `{PyHash}.

(** From the same prover, a search with a larger depth bound finds a proof
    wherever the search with the smaller bound finds one. *)
Lemma prove_deeper fuel :
  forall fuel' self target hypotheses depth max_depth max_depth' p self1 r' self1',
  max_depth <= max_depth' ->
  prove fuel self target hypotheses depth max_depth = Some (Ok (Some p, self1)) ->
  prove fuel' self target hypotheses depth max_depth' = Some (Ok (r', self1')) ->
  r' <> None.
Proof.
  induction fuel as [|fuel IH];
    intros fuel' self target hypotheses depth max_depth max_depth' p self1 r' self1' Hm;
    [discriminate|].
  destruct fuel' as [|fuel']; [discriminate|].
  assert (Hstore : forall s proof,
            (let+ self2 := lift (remember s (mkKey target hypotheses depth) proof) in
             Some (Ok (Some proof, self2))) = Some (Ok (r', self1')) -> r' <> None).
  { intros s proof. unfold lift.
    destruct (remember _ _ _); cbn [fbind]; [|discriminate].
    intros [= <- <-]. discriminate. }
  cbn [prove]. unfold lift.
  destruct (dict_get _ _) as [[cached|]|]; cbn [fbind]; try discriminate.
  { intros _ [= <- <-]. discriminate. }
  destruct (depth >? max_depth) eqn:Ed; [discriminate|].
  replace (depth >? max_depth') with false by lia.
  destruct (find_hypothesis _ _ _) as [[i|]|]; cbn [fbind]; try discriminate.
  { intros _. apply Hstore. }
  match goal with
  | |- fbind ?m _ = _ -> fbind ?m' _ = _ -> _ =>
    assert (Hded : forall d s d' s',
              m = Some (Ok (d, s)) -> m' = Some (Ok (d', s')) ->
              (d <> None -> d' <> None) /\ (d = None -> s = self) /\
              (d' = None -> s' = self))
  end.
  { intros d s d' s'.
    destruct (FormulaType_eqb (type target) IMPL);
      [|intros [= <- <-] [= <- <-]; auto].
    destruct (index (children target) 0); cbn [fbind]; [|discriminate].
    destruct (index (children target) 1); cbn [fbind]; [|discriminate].
    destruct (prove fuel self _ _ _ _) as [[[pr s0]|]|] eqn:E; cbn [fbind];
      try discriminate.
    destruct (prove fuel' self _ _ _ _) as [[[pr' s0']|]|] eqn:E'; cbn [fbind];
      try (intros _; discriminate).
    assert (Hpr : pr <> None -> pr' <> None).
    { destruct pr as [q|]; [|intros Hq; destruct Hq; reflexivity].
      intros _. apply (IH _ _ _ _ _ _ _ _ _ _ _ Hm E E'). }
    assert (Hs : pr = None -> s0 = self).
    { intros ->. apply (prove_none_unchanged _ _ _ _ _ _ _ E). }
    assert (Hs' : pr' = None -> s0' = self).
    { intros ->. apply (prove_none_unchanged _ _ _ _ _ _ _ E'). }
    destruct pr, pr'; intros [= <- <-] [= <- <-];
      (split; [|split]); intros Hq; try discriminate; auto;
      try (destruct Hq; reflexivity); destruct Hpr; auto; discriminate. }
  match goal with
  | |- fbind ?ded _ = _ -> fbind ?ded' _ = _ -> _ =>
    destruct ded as [[[d s]|]|]; cbn [fbind]; try discriminate;
    destruct ded' as [[[d' s']|]|]; cbn [fbind]; try (intros _; discriminate)
  end.
  destruct (Hded d s d' s' eq_refl eq_refl) as (Hd & Hs & Hs').
  destruct d as [proof|].
  { destruct d' as [proof'|]; [intros _; apply Hstore|].
    destruct Hd; [discriminate|reflexivity]. }
  rewrite (Hs eq_refl).
  destruct d' as [proof'|]; [intros _; apply Hstore|].
  rewrite (Hs' eq_refl).
  destruct (mp_loop _ self hypotheses 0%nat target) as [[[m s2]|]|] eqn:E2;
    cbn [fbind]; try discriminate.
  match goal with
  | |- _ -> fbind ?loop _ = _ -> _ =>
    destruct loop as [[[m' s2']|]|] eqn:E2'; cbn [fbind]; try (intros _; discriminate)
  end.
  assert (Hnone : forall fuel0 max_depth0 (s0 : Prover) (l : Formula) (s1 : Prover),
            prove fuel0 s0 l hypotheses (depth + 1) max_depth0 = Some (Ok (None, s1)) ->
            s1 = s0).
  { intros fuel0 max_depth0 s0 l s1 E. apply (prove_none_unchanged _ _ _ _ _ _ _ E). }
  destruct m as [[i proof_left]|].
  { assert (Hm' : m' <> None).
    { apply (mp_loop_deeper _ _ (Hnone fuel max_depth) (Hnone fuel' max_depth')
               (fun s0 l q s1 r0 s1' E E' => IH _ _ _ _ _ _ _ _ _ _ _ Hm E E')
               _ _ _ _ _ _ _ _ E2 E2'). }
    destruct m' as [[i' proof_left']|]; [intros _; apply Hstore|].
    destruct Hm'; reflexivity. }
  apply mp_loop_none in E2; [|apply Hnone]. subst s2.
  destruct m' as [[i' proof_left']|]; [intros _; apply Hstore|].
  apply mp_loop_none in E2'; [|apply Hnone]. subst s2'.
  destruct (match_axioms _ _ _) as [[[axiom_idx substitution]|]|]; cbn [fbind];
    try discriminate.
  intros _. apply Hstore.
Qed.
End Deeper.

(** ** How deep the recursion goes *)

Section Chain.
Context `{PyHash}.

Lemma dict_get_empty key :
  key_well_formed key = true -> dict_get [] key = Ok None.
Proof.
  intros Wk. unfold dict_get. destruct (hash_key_total key Wk) as [h ->]. reflexivity.
Qed.

(** The target [A] under the hypothesis [A -> A]: modus ponens asks for
    [A] again, one level deeper each time, until the depth is beyond the
    bound. *)
Lemma prove_chain name max_depth fuel : forall depth,
  depth <= max_depth + 1 ->
  prove fuel initial_prover (Var name) [Impl (Var name) (Var name)] depth max_depth =
  if Z.of_nat fuel <=? max_depth + 1 - depth then None
  else Some (Ok (None, initial_prover)).
Proof.
  induction fuel as [|fuel IH]; intros depth Hd.
  - destruct (Z.leb_spec (Z.of_nat 0) (max_depth + 1 - depth)); [reflexivity|lia].
  - cbn [prove]. unfold lift.
    rewrite dict_get_empty by reflexivity. cbn [fbind].
    destruct (Z.gtb_spec depth max_depth) as [Ed|Ed].
    + destruct (Z.leb_spec (Z.of_nat (S fuel)) (max_depth + 1 - depth));
        [lia|reflexivity].
    + assert (Hfind : find_hypothesis [Impl (Var name) (Var name)] (Var name) 0 =
                      Ok None) by reflexivity.
      rewrite Hfind. cbn [fbind].
      change (FormulaType_eqb (type (Var name)) IMPL) with false.
      cbn [fbind mp_loop]. unfold lift.
      assert (Hdet : detaches (Impl (Var name) (Var name)) (Var name) = Ok true).
      { unfold detaches. simpl. rewrite String.eqb_refl. reflexivity. }
      rewrite Hdet. cbn [fbind].
      change (index (children (Impl (Var name) (Var name))) 0) with (Ok (Var name)).
      cbn [fbind]. rewrite (IH (depth + 1)) by lia.
      destruct (Z.leb_spec (Z.of_nat fuel) (max_depth + 1 - (depth + 1))),
               (Z.leb_spec (Z.of_nat (S fuel)) (max_depth + 1 - depth)); try lia;
        [reflexivity|].
      cbn [fbind]. reflexivity.
Qed.
End Chain.

(** * The specification, claim by claim *)

(** ** Equality and hashing *)

(** C10.  The commutative-aware equality [is_equal] is an equivalence
    relation on well-formed formulas: it is reflexive, symmetric and
    transitive, and on such formulas it raises nothing.  Transitivity goes
    through the two orders in which [AND] and [OR] compare their children. *)
Theorem is_equal_equivalence :
  (forall f, well_formed f = true -> is_equal (Some f) (Some f) = Ok true) /\
  (forall a b, well_formed a = true -> well_formed b = true ->
     is_equal (Some a) (Some b) = Ok true ->
     is_equal (Some b) (Some a) = Ok true) /\
  (forall a b c,
     well_formed a = true -> well_formed b = true -> well_formed c = true ->
     is_equal (Some a) (Some b) = Ok true ->
     is_equal (Some b) (Some c) = Ok true ->
     is_equal (Some a) (Some c) = Ok true).
Proof.
  unfold is_equal. repeat split.
  - intros f Hf. rewrite (is_equal_total f Hf f Hf), (equal_refl f Hf). reflexivity.
  - intros a b Ha Hb. rewrite (is_equal_total a Ha b Hb), (is_equal_total b Hb a Ha).
    rewrite (equal_sym a Ha b Hb). auto.
  - intros a b c Ha Hb Hc.
    rewrite (is_equal_total a Ha b Hb), (is_equal_total b Hb c Hc),
      (is_equal_total a Ha c Hc).
    intros [= E1] [= E2]. rewrite (equal_trans a Ha b c Hb Hc E1 E2). reflexivity.
Qed.

Lemma is_equal_equivalence_witness :
  is_equal (Some or_and_not) (Some or_not_and_swapped) = Ok true.
Proof.
  apply (proj2 (proj2 is_equal_equivalence) or_and_not or_not_and or_not_and_swapped);
    reflexivity.
Defined.

(** C5.  For well-formed [a] and [b], [And(a,b)] is equal to [And(b,a)]
    and [Or(a,b)] to [Or(b,a)], whatever the [value] fields of the nodes;
    the equality of [Implies(a,b)] and [Implies(b,a)] is the equality of
    [a] and [b], so it is false unless [a] and [b] are equal. *)
Theorem is_equal_commutative (a b : Formula) (v w : string) :
  well_formed a = true -> well_formed b = true ->
  is_equal (Some (mkFormula AND [a; b] v)) (Some (mkFormula AND [b; a] w)) = Ok true /\
  is_equal (Some (mkFormula OR [a; b] v)) (Some (mkFormula OR [b; a] w)) = Ok true /\
  (exists e, is_equal (Some a) (Some b) = Ok e /\
     is_equal (Some (mkFormula IMPL [a; b] v)) (Some (mkFormula IMPL [b; a] w)) = Ok e).
Proof.
  intros Ha Hb. unfold is_equal.
  assert (Wab : forall t u, is_binary t = true ->
                  well_formed (mkFormula t [a; b] u) = true /\
                  well_formed (mkFormula t [b; a] u) = true).
  { intros t u Ht. destruct t; try discriminate; simpl; rewrite Ha, Hb; auto. }
  repeat split.
  - destruct (Wab AND v eq_refl) as [W1 _], (Wab AND w eq_refl) as [_ W2].
    rewrite (is_equal_total _ W1 _ W2), equal_and by assumption.
    rewrite (equal_refl a Ha), (equal_refl b Hb), orb_true_r. reflexivity.
  - destruct (Wab OR v eq_refl) as [W1 _], (Wab OR w eq_refl) as [_ W2].
    rewrite (is_equal_total _ W1 _ W2), equal_or by assumption.
    rewrite (equal_refl a Ha), (equal_refl b Hb), orb_true_r. reflexivity.
  - exists (equal a b). split; [apply is_equal_total; assumption|].
    destruct (Wab IMPL v eq_refl) as [W1 _], (Wab IMPL w eq_refl) as [_ W2].
    rewrite (is_equal_total _ W1 _ W2), equal_impl by assumption.
    rewrite (equal_sym b Hb a Ha), andb_diag. reflexivity.
Qed.

Lemma is_equal_commutative_witness :
  is_equal (Some (mkFormula AND [Var "A"; Not (Var "B")] "and"))
           (Some (mkFormula AND [Not (Var "B"); Var "A"] "")) = Ok true.
Proof.
  apply (is_equal_commutative (Var "A") (Not (Var "B")) "and" ""); reflexivity.
Defined.

(** C4.  Equal well-formed formulas have the same hash, whatever Python's
    [hash] is on strings, integers and tuples; so formulas that differ by
    swapped operands of [AND] and [OR], at any depth, hash identically. *)
Theorem equal_formulas_hash_equal `{PyHash} (a b : Formula) :
  well_formed a = true -> well_formed b = true ->
  is_equal (Some a) (Some b) = Ok true ->
  exists h, hash_formula a = Ok h /\ hash_formula b = Ok h.
Proof.
  intros Ha Hb. unfold is_equal. rewrite (is_equal_total a Ha b Hb). intros [= E].
  destruct (hash_formula_total a Ha) as [h Eh]. exists h. split; [exact Eh|].
  rewrite <- (equal_hash a Ha b Hb E). exact Eh.
Qed.

Lemma equal_formulas_hash_equal_witness :
  exists h, @hash_formula sample_hash or_and_not = Ok h /\
            @hash_formula sample_hash or_not_and_swapped = Ok h.
Proof.
  apply (@equal_formulas_hash_equal sample_hash or_and_not or_not_and_swapped);
    reflexivity.
Defined.

(** ** The normalizer *)

(** C7.  [normalize_formula] rewrites [And(a,b)] to
    [Not(Implies(normalize(a), Not(normalize(b))))] and [Or(a,b)] to
    [Implies(Not(normalize(a)), normalize(b))], normalizing the two
    operands; it returns a formula whose type is [VAR], [NOT] or [IMPL] as
    it is, without looking at its children; and it returns [None] for
    [None]. *)
Theorem normalize_formula_spec :
  (forall a b v,
     normalize_formula (Some (mkFormula AND [a; b] v)) =
     let* na := normalize_formula_node a in
     let* nb := normalize_formula_node b in
     Ok (Some (mkFormula NOT
                 [mkFormula IMPL [na; mkFormula NOT [nb] "not"] "implies"] "not"))) /\
  (forall a b v,
     normalize_formula (Some (mkFormula OR [a; b] v)) =
     let* na := normalize_formula_node a in
     let* nb := normalize_formula_node b in
     Ok (Some (mkFormula IMPL [mkFormula NOT [na] "not"; nb] "implies"))) /\
  (forall ch v,
     normalize_formula (Some (mkFormula VAR ch v)) = Ok (Some (mkFormula VAR ch v))) /\
  (forall ch v,
     normalize_formula (Some (mkFormula NOT ch v)) = Ok (Some (mkFormula NOT ch v))) /\
  (forall ch v,
     normalize_formula (Some (mkFormula IMPL ch v)) = Ok (Some (mkFormula IMPL ch v))) /\
  normalize_formula None = Ok None.
Proof.
  repeat split; try reflexivity.
  - intros a b v. unfold normalize_formula. rewrite normalize_formula_and.
    destruct (normalize_formula_node a), (normalize_formula_node b); reflexivity.
  - intros a b v. unfold normalize_formula. rewrite normalize_formula_or.
    destruct (normalize_formula_node a), (normalize_formula_node b); reflexivity.
Qed.

(** An [AND] below a [NOT] is left as it is, and a nested [OR] below an
    [AND] is rewritten. *)
Example normalize_formula_scope :
  normalize_formula (Some (Not (mkFormula AND [Var "A"; Var "B"] "and"))) =
    Ok (Some (Not (mkFormula AND [Var "A"; Var "B"] "and"))) /\
  normalize_formula
    (Some (mkFormula AND [mkFormula OR [Var "A"; Var "B"] "or"; Var "C"] "and")) =
    Ok (Some (mkFormula NOT
      [mkFormula IMPL
         [mkFormula IMPL [mkFormula NOT [Var "A"] "not"; Var "B"] "implies";
          mkFormula NOT [Var "C"] "not"] "implies"] "not")).
Proof. split; reflexivity. Qed.

(** ** Matching and substitution *)

(** C6.  When [match_pattern(pattern, target)], started on the empty
    substitution, succeeds with [s] on a well-formed target, the instance
    [apply_substitution(pattern, s)] is equal to the target. *)
Theorem match_then_apply_equal (pattern target : Formula) (s : gmap string Formula) :
  well_formed target = true ->
  match_pattern pattern target ∅ = Ok (Some s) ->
  is_equal (Some (apply_substitution pattern s)) (Some target) = Ok true.
Proof.
  intros Ht Hm.
  destruct (match_pattern_sound pattern target ∅ s Ht) as (_ & _ & _ & Wa & Ea);
    [intros k f Hk; rewrite lookup_empty in Hk; discriminate|exact Hm|].
  unfold is_equal. rewrite (is_equal_total _ Wa _ Ht), Ea. reflexivity.
Qed.

Lemma match_then_apply_equal_witness :
  is_equal (Some (apply_substitution pattern_k subst_k)) (Some target_k) = Ok true.
Proof.
  apply (match_then_apply_equal pattern_k target_k subst_k); [reflexivity|].
  vm_compute. reflexivity.
Defined.

(** ** The parser *)

(** C8.  For every well-formed formula whose variable names are
    identifiers (not empty, without white space or parentheses), parsing
    its printed text returns a formula equal to it. *)
Theorem parse_print_round_trip (f : Formula) :
  well_formed f = true -> names_valid f = true ->
  exists s g,
    formula2str f = Ok s /\ parse s = Some (Ok g) /\
    is_equal (Some g) (Some f) = Ok true.
Proof.
  intros Hf Hn.
  destruct (parse_formula_print f Hf Hn) as (s & g & n & Es & Wg & Eg & Hp & _).
  exists s, g. split; [exact Es|]. split.
  - unfold parse.
    rewrite (parse_any_fuel s n (Ok (g, mkParser (0 + String.length s) ""))).
    + reflexivity.
    + unfold Parser_init. rewrite <- (append_nil_r s) at 1.
      apply Hp; [lia|reflexivity].
  - unfold is_equal. rewrite (is_equal_total g Wg f Hf), Eg. reflexivity.
Qed.

Lemma parse_print_round_trip_witness :
  exists s g,
    formula2str target_k = Ok s /\ parse s = Some (Ok g) /\
    is_equal (Some g) (Some target_k) = Ok true.
Proof. apply (parse_print_round_trip target_k); reflexivity. Defined.




(** ** The prover *)

(** C1, as the prover has it.  [prove] on the formula parsed from
    ["(implies A A)"], with no hypotheses, [depth = 0] and
    [max_depth = 1000] on a fresh prover, returns the deduction of [A]
    from the hypothesis [A]: the deduction rule is tried before the
    axioms.  Axiom 4 does match the target, with [{A: Var("A")}], and is
    not reached. *)
Theorem prove_implies_A_A `{PyHash} :
  prove_text "(implies A A)" =
    Some (Ok (Some [deduction (Var "A") (Var "A") [hypothesis 0 (Var "A")]])) /\
  match_axioms (axioms initial_prover)
    (mkFormula IMPL [Var "A"; Var "A"] "implies") 0 =
    Ok (Some (4%nat, {[ "A" := Var "A" ]})).
Proof.
  split; [|vm_compute; reflexivity].
  unfold prove_text. rewrite Prover_init_ok, parse_implies_A_A. cbn [fbind].
  change (prove_fuel 0 1000) with (S (S 1000)).
  destruct prove_implies_A_A_steps as (self1 & self2 & _ & ->). reflexivity.
Qed.

(** C1 fails as it is stated: under no hash function is the first step of
    the returned proof an axiom step. *)
Lemma prove_implies_A_A_not_by_axiom :
  ~ (exists (H : PyHash) idx s t rest,
       @prove_text H "(implies A A)" = Some (Ok (Some (axiom idx s t :: rest)))).
Proof.
  intros (H & idx & s & t & rest & E). revert E.
  unfold prove_text. rewrite Prover_init_ok, parse_implies_A_A. cbn [fbind].
  change (prove_fuel 0 1000) with (S (S 1000)).
  destruct prove_implies_A_A_steps as (self1 & self2 & _ & ->). discriminate.
Qed.




(** C9, as the prover has it.  From every state of the prover and for
    every target, list of hypotheses, depth and [max_depth], [prove]
    returns or raises: the recursive calls are made at [depth + 1] only,
    so fuel [max_depth + 2 - depth] is enough, and more fuel gives the
    same result.  A call with [depth > max_depth] makes no recursive call:
    it returns "no proof found" and leaves the prover as it is when the
    cache holds nothing for its key, and it returns the cached proof when
    the cache holds one. *)
Theorem prove_terminates `{PyHash} (self : Prover) (target : Formula)
    (hypotheses : list Formula) (depth max_depth : Z) :
  (forall fuel, (prove_fuel depth max_depth <= fuel)%nat ->
     exists r,
       prove fuel self target hypotheses depth max_depth = Some r /\
       prove (prove_fuel depth max_depth) self target hypotheses depth max_depth =
       Some r) /\
  (depth > max_depth ->
   forall fuel,
     (dict_get (proof_cache self) (mkKey target hypotheses depth) = Ok None ->
      prove (S fuel) self target hypotheses depth max_depth = Some (Ok (None, self))) /\
     (forall proof,
        dict_get (proof_cache self) (mkKey target hypotheses depth) = Ok (Some proof) ->
        prove (S fuel) self target hypotheses depth max_depth =
        Some (Ok (Some proof, self)))).
Proof.
  split.
  - intros fuel Hfuel.
    destruct (prove_total (prove_fuel depth max_depth) self target hypotheses
                depth max_depth) as [r E]; [unfold prove_fuel; lia|].
    exists r. split; [|exact E].
    apply (prove_mono _ fuel _ _ _ _ _ _ E Hfuel).
  - intros Hdepth fuel. split.
    + intros Hmiss. cbn [prove]. unfold lift. rewrite Hmiss. cbn [fbind].
      replace (depth >? max_depth) with true by lia. reflexivity.
    + intros proof Hhit. cbn [prove]. unfold lift. rewrite Hhit. reflexivity.
Qed.

Lemma prove_terminates_witness :
  @prove sample_hash 1 initial_prover (Var "A") [Var "A"] 1 0 =
  Some (Ok (None, initial_prover)).
Proof.
  apply (proj1 (proj2 (@prove_terminates sample_hash initial_prover
                         (Var "A") [Var "A"] 1 0) ltac:(lia) 0%nat)).
  reflexivity.
Defined.

(** C9 fails as it is stated: the cache is looked up before the depth is
    checked.  Once the prover has proved [A] from [A] at depth 1, the same
    call with [max_depth = 0] returns the cached proof, under every hash
    function, although its depth is beyond [max_depth]. *)
Lemma prove_again_returns_cached_proof :
  ~ (exists H : PyHash, @prove_again H = Some (Ok None)).
Proof.
  intros [[hs hi ht] E]. revert E.
  unfold prove_again. rewrite Prover_init_ok. cbn [fbind].
  cbv -[Z.eqb]. rewrite Z.eqb_refl. discriminate.
Qed.

(** * Further properties of the code *)

(** ** The prover is sound *)

(** X1.  A proof returned by [prove] stands for a true sequent: when the
    formulas are well-formed, the axioms of the prover are tautologies and
    the cache holds true sequents only, the target is true under every
    valuation that makes the hypotheses true.  The call leaves a prover of
    the same kind, so the property carries over to the next call. *)
Theorem prove_returns_true_sequents `{PyHash} (fuel : nat) (self self' : Prover)
    (target : Formula) (hypotheses : list Formula) (depth max_depth : Z)
    (proof : list ProofStep) :
  prover_well_formed self -> cache_sound (proof_cache self) ->
  Forall tautology (axioms self) ->
  well_formed target = true -> forallb well_formed hypotheses = true ->
  prove fuel self target hypotheses depth max_depth = Some (Ok (Some proof, self')) ->
  entails hypotheses target /\
  prover_well_formed self' /\ cache_sound (proof_cache self') /\
  Forall tautology (axioms self').
Proof.
  intros Wself Sself Hax Ht Hh E.
  destruct (prove_sound fuel self target hypotheses depth max_depth _
              Wself Sself Hax Ht Hh E) as (r & s & [= <- <-] & W & S & A & P).
  split; [apply P; discriminate|]. split; [exact W|]. split; [exact S|].
  rewrite A. exact Hax.
Qed.

Lemma prove_returns_true_sequents_witness :
  entails [Var "A"; Impl (Var "A") (Var "B")] (Var "B").
Proof.
  eapply (@prove_returns_true_sequents sample_hash (prove_fuel 0 1000) initial_prover _
            (Var "B") [Var "A"; Impl (Var "A") (Var "B")] 0 1000).
  - reflexivity.
  - constructor.
  - apply initial_axioms_tautologies.
  - reflexivity.
  - reflexivity.
  - vm_compute. reflexivity.
Defined.

(** X2.  Whatever the text, a proof printed by [main] means that the
    parsed formula is a tautology: the parser returns a well-formed
    formula, the normalizer keeps its truth values, and the fresh prover
    has an empty cache and four tautologies as axioms. *)
Theorem main_proves_tautologies `{PyHash} (exp : string) (proof : list ProofStep) :
  main_with exp = Some (Ok (Some proof)) ->
  exists f, parse exp = Some (Ok f) /\ tautology f.
Proof.
  unfold main_with.
  destruct (parse exp) as [[f|e]|] eqn:Ep; cbn [fbind]; try discriminate.
  pose proof (parse_well_formed exp f Ep) as Wf.
  destruct (normalize_formula_total f Wf) as (g & Eg & Wg).
  unfold lift. rewrite Eg, Prover_init_ok. cbn [fbind].
  destruct (prove _ _ _ _ _ _) as [[[r self']|e]|] eqn:E; cbn [fbind]; try discriminate.
  intros [= ->]. exists f. split; [reflexivity|].
  destruct (prove_sound (prove_fuel 0 1000) initial_prover g [] 0 1000 _
              initial_prover_well_formed
              ltac:(constructor) initial_axioms_tautologies Wg eq_refl E)
    as (r & s & [= <- <-] & _ & _ & _ & P).
  intros v. rewrite <- (normalize_formula_eval f Wf g Eg v).
  apply P; [discriminate|reflexivity].
Qed.

Lemma main_proves_tautologies_witness :
  exists f, parse "(implies A (implies B A))" = Some (Ok f) /\ tautology f.
Proof.
  eapply (@main_proves_tautologies sample_hash "(implies A (implies B A))").
  vm_compute. reflexivity.
Defined.

(** X3.  [prove] raises no exception of its own.  The fuel of the model
    stands for the room that the interpreter's call stack has for nested
    calls of [prove]; where the stack is exhausted Python raises
    [RecursionError], which the code does not catch.  On well-formed
    formulas and a well-formed cache, a call that comes to an end within
    that room ends in no [IndexError] and no [RuntimeError]: it returns a
    proof or "no proof found", and it leaves a well-formed cache and the
    same axioms. *)
Theorem prove_ends_without_exception `{PyHash} (fuel : nat) (self : Prover)
    (target : Formula) (hypotheses : list Formula) (depth max_depth : Z)
    (res : result (option (list ProofStep) * Prover)) :
  prover_well_formed self ->
  well_formed target = true -> forallb well_formed hypotheses = true ->
  prove fuel self target hypotheses depth max_depth = Some res ->
  exists r self',
    res = Ok (r, self') /\
    prover_well_formed self' /\ axioms self' = axioms self.
Proof.
  intros Wself Ht Hh E.
  apply (prove_safe fuel self target hypotheses depth max_depth res Wself Ht Hh E).
Qed.

Lemma prove_ends_without_exception_witness :
  exists r self',
    (Ok (None, initial_prover) : result (option (list ProofStep) * Prover)) =
      Ok (r, self') /\
    prover_well_formed self' /\ axioms self' = axioms initial_prover.
Proof.
  apply (@prove_ends_without_exception sample_hash 3 initial_prover
           (Impl (Not (Var "A")) (Var "A")) [] 0 1); [reflexivity..|].
  vm_compute. reflexivity.
Defined.

(** ** Equality and the normalizer keep truth values *)

(** X4.  Formulas that [is_equal] takes for equal have the same truth
    value under every valuation: swapping the operands of [AND] and [OR]
    does not change the meaning. *)
Theorem is_equal_same_truth_value (a b : Formula) (v : string -> bool) :
  well_formed a = true -> well_formed b = true ->
  is_equal (Some a) (Some b) = Ok true ->
  eval v a = eval v b.
Proof.
  intros Ha Hb. unfold is_equal. rewrite (is_equal_total a Ha b Hb). intros [= E].
  apply (equal_eval a Ha b Hb E v).
Qed.

Lemma is_equal_same_truth_value_witness :
  eval (fun name => String.eqb name "A") or_and_not =
  eval (fun name => String.eqb name "A") or_not_and_swapped.
Proof.
  apply (is_equal_same_truth_value or_and_not or_not_and_swapped); reflexivity.
Defined.

(** X5.  On a well-formed formula [normalize_formula] raises nothing and
    returns a well-formed formula with the same truth value under every
    valuation. *)
Theorem normalize_formula_keeps_truth_value (f : Formula) :
  well_formed f = true ->
  exists g,
    normalize_formula (Some f) = Ok (Some g) /\ well_formed g = true /\
    forall v, eval v g = eval v f.
Proof.
  intros Hf. destruct (normalize_formula_total f Hf) as (g & Eg & Wg).
  exists g. split; [unfold normalize_formula; rewrite Eg; reflexivity|].
  split; [exact Wg|]. apply (normalize_formula_eval f Hf g Eg).
Qed.

Lemma normalize_formula_keeps_truth_value_witness :
  exists g,
    normalize_formula (Some or_and_not) = Ok (Some g) /\ well_formed g = true /\
    forall v, eval v g = eval v or_and_not.
Proof. apply (normalize_formula_keeps_truth_value or_and_not). reflexivity. Defined.

(** X6.  The result of [normalize_formula] is never an [AND] or an [OR]
    node, and normalizing it again returns it unchanged. *)
Theorem normalize_formula_idempotent (f g : Formula) :
  normalize_formula (Some f) = Ok (Some g) ->
  type g <> AND /\ type g <> OR /\ normalize_formula (Some g) = Ok (Some g).
Proof.
  unfold normalize_formula.
  destruct (normalize_formula_node f) as [g'|] eqn:E; simpl; [|discriminate].
  intros [= <-]. destruct (normalize_formula_top f g' E) as [Ha Ho].
  split; [exact Ha|]. split; [exact Ho|].
  rewrite (normalize_formula_fixed g' Ha Ho). reflexivity.
Qed.

Lemma normalize_formula_idempotent_witness :
  normalize_formula
    (Some (mkFormula IMPL [mkFormula NOT [Var "A"] "not"; Var "B"] "implies")) =
  Ok (Some (mkFormula IMPL [mkFormula NOT [Var "A"] "not"; Var "B"] "implies")).
Proof.
  apply (normalize_formula_idempotent (mkFormula OR [Var "A"; Var "B"] "or")).
  reflexivity.
Defined.

(** ** Matching and instances *)

(** X7.  On a well-formed target and well-formed bindings [match_pattern]
    raises nothing: it returns "no match" or a substitution, which extends
    the given one and has well-formed bindings. *)
Theorem match_pattern_extends (pattern target : Formula) (s : gmap string Formula) :
  well_formed target = true -> bindings_well_formed s ->
  exists r, match_pattern pattern target s = Ok r /\
    forall s', r = Some s' -> s ⊆ s' /\ bindings_well_formed s'.
Proof.
  intros Ht Hs. destruct (match_pattern_total pattern target s Ht Hs) as [r E].
  exists r. split; [exact E|]. intros s' ->.
  destruct (match_pattern_sound pattern target s s' Ht Hs E) as (W & Sub & _).
  auto.
Qed.

Lemma match_pattern_extends_witness :
  exists r, match_pattern pattern_k target_k (<["P" := Var "A"]> ∅) = Ok r /\
    forall s', r = Some s' ->
      <["P" := Var "A"]> ∅ ⊆ s' /\ bindings_well_formed s'.
Proof.
  apply (match_pattern_extends pattern_k target_k (<["P" := Var "A"]> ∅)).
  - reflexivity.
  - apply map_Forall_insert_2; [reflexivity|apply map_Forall_empty].
Defined.

(** X8.  Matching a well-formed pattern against its own instance
    succeeds: when [s] has well-formed bindings for all variables of the
    pattern, [match_pattern(pattern, apply_substitution(pattern, s))]
    returns a part of [s] that gives the same instance. *)
Theorem match_pattern_finds_instance (pattern : Formula) (s : gmap string Formula) :
  well_formed pattern = true -> bindings_well_formed s ->
  variables_bound pattern s = true ->
  exists s',
    match_pattern pattern (apply_substitution pattern s) ∅ = Ok (Some s') /\
    s' ⊆ s /\
    apply_substitution pattern s' = apply_substitution pattern s.
Proof.
  intros Hp Hs Hb.
  destruct (match_pattern_instance pattern s Hp Hs Hb ∅ (map_empty_subseteq s))
    as (s' & E & _ & Sub).
  exists s'. split; [exact E|]. split; [exact Sub|].
  destruct (match_pattern_sound pattern (apply_substitution pattern s) ∅ s')
    as (_ & _ & Stable & _).
  - apply apply_substitution_well_formed; assumption.
  - apply map_Forall_empty.
  - exact E.
  - symmetry. apply Stable, Sub.
Qed.

Lemma match_pattern_finds_instance_witness :
  exists s',
    match_pattern pattern_k (apply_substitution pattern_k subst_k) ∅ = Ok (Some s') /\
    s' ⊆ subst_k /\
    apply_substitution pattern_k s' = apply_substitution pattern_k subst_k.
Proof.
  apply (match_pattern_finds_instance pattern_k subst_k).
  - reflexivity.
  - apply map_Forall_insert_2; [reflexivity|].
    apply map_Forall_insert_2; [reflexivity|apply map_Forall_empty].
  - reflexivity.
Defined.

(** X9.  [apply_substitution] on a well-formed pattern with well-formed
    bindings returns a well-formed formula, and with no binding at all it
    returns the pattern. *)
Theorem apply_substitution_keeps_well_formed (pattern : Formula)
    (s : gmap string Formula) :
  well_formed pattern = true -> bindings_well_formed s ->
  well_formed (apply_substitution pattern s) = true /\
  apply_substitution pattern ∅ = pattern.
Proof.
  intros Hp Hs. split.
  - apply apply_substitution_well_formed; assumption.
  - apply apply_substitution_empty, Hp.
Qed.

Lemma apply_substitution_keeps_well_formed_witness :
  well_formed (apply_substitution pattern_k subst_k) = true /\
  apply_substitution pattern_k ∅ = pattern_k.
Proof.
  apply (apply_substitution_keeps_well_formed pattern_k subst_k).
  - reflexivity.
  - apply map_Forall_insert_2; [reflexivity|].
    apply map_Forall_insert_2; [reflexivity|apply map_Forall_empty].
Defined.

(** ** The cache and the depth bound *)

(** X10.  A proof that [prove] returns for well-formed formulas is
    remembered: the same call on the prover it leaves, with any
    [max_depth], returns the same proof from the cache and leaves the
    prover as it is. *)
Theorem prove_is_memoized `{PyHash} (fuel fuel' : nat) (self self' : Prover)
    (target : Formula) (hypotheses : list Formula) (depth max_depth max_depth' : Z)
    (proof : list ProofStep) :
  well_formed target = true -> forallb well_formed hypotheses = true ->
  prove fuel self target hypotheses depth max_depth = Some (Ok (Some proof, self')) ->
  prove (S fuel') self' target hypotheses depth max_depth' =
  Some (Ok (Some proof, self')).
Proof.
  intros Ht Hh E.
  pose proof (prove_remembers fuel self target hypotheses depth max_depth proof self'
                Ht Hh E) as Hget.
  cbn [prove]. unfold lift. rewrite Hget. reflexivity.
Qed.

Lemma prove_is_memoized_witness :
  exists self',
    @prove sample_hash (prove_fuel 0 1000) initial_prover target_k [] 0 1000 =
      Some (Ok (Some [deduction (Var "A") (Impl (Not (Var "B")) (Var "A"))
                        [deduction (Not (Var "B")) (Var "A")
                           [hypothesis 0 (Var "A")]]], self')) /\
    @prove sample_hash 1 self' target_k [] 0 (-1) =
      Some (Ok (Some [deduction (Var "A") (Impl (Not (Var "B")) (Var "A"))
                        [deduction (Not (Var "B")) (Var "A")
                           [hypothesis 0 (Var "A")]]], self')).
Proof.
  eexists. split.
  - vm_compute. reflexivity.
  - eapply (@prove_is_memoized sample_hash (prove_fuel 0 1000) 0 initial_prover _
              target_k [] 0 1000 (-1)); [reflexivity|reflexivity|].
    vm_compute. reflexivity.
Defined.

(** X11.  At the depth bound a prover with an empty cache uses no
    recursive rule: a proof returned by [prove] with [depth = max_depth] is
    a single hypothesis step or a single axiom step. *)
Theorem prove_at_depth_bound `{PyHash} (fuel : nat) (self self' : Prover)
    (target : Formula) (hypotheses : list Formula) (max_depth : Z)
    (proof : list ProofStep) :
  proof_cache self = [] ->
  prove fuel self target hypotheses max_depth max_depth =
    Some (Ok (Some proof, self')) ->
  (exists i, proof = [hypothesis i target]) \/
  (exists axiom_idx substitution, proof = [axiom axiom_idx substitution target]).
Proof.
  intros Hc. destruct fuel as [|fuel]; [discriminate|].
  assert (Hstore : forall self1 proof1,
            (let+ self2 := lift (remember self1 (mkKey target hypotheses max_depth) proof1) in
             Some (Ok (Some proof1, self2))) = Some (Ok (Some proof, self')) ->
            proof1 = proof).
  { intros self1 proof1. unfold lift.
    destruct (remember _ _ _); cbn [fbind]; [|discriminate]. congruence. }
  assert (Hrec : forall t l r self1,
            prove fuel self t l (max_depth + 1) max_depth = Some (Ok (r, self1)) ->
            r = None /\ self1 = self).
  { intros t l r self1 E.
    apply (prove_beyond_depth fuel self t l (max_depth + 1) max_depth r self1 Hc);
      [lia|exact E]. }
  cbn [prove]. unfold lift, dict_get. rewrite Hc.
  destruct (hash_key _) as [h|]; cbn [bind dict_find fbind fmap option_fmap option_map];
    [|discriminate].
  replace (max_depth >? max_depth) with false by lia.
  destruct (find_hypothesis _ _ _) as [[i|]|]; cbn [fbind]; try discriminate.
  { intros E. apply Hstore in E. left. exists i. congruence. }
  match goal with
  | |- fbind ?m _ = _ -> _ =>
    assert (Hded : forall d self1, m = Some (Ok (d, self1)) -> d = None /\ self1 = self)
  end.
  { intros d self1.
    destruct (FormulaType_eqb (type target) IMPL); [|intros [= <- <-]; auto].
    destruct (index (children target) 0); cbn [fbind]; [|discriminate].
    destruct (index (children target) 1); cbn [fbind]; [|discriminate].
    destruct (prove fuel self _ _ _ _) as [[[r self2]|]|] eqn:E; cbn [fbind];
      try discriminate.
    destruct (Hrec _ _ _ _ E) as [-> ->]. intros [= <- <-]. auto. }
  match goal with
  | |- fbind ?m _ = _ -> _ => destruct m as [[[d self1]|]|]
  end; cbn [fbind]; try discriminate.
  destruct (Hded d self1 eq_refl) as [-> ->].
  destruct (mp_loop _ _ _ _ _) as [[[m self2]|]|] eqn:Em; cbn [fbind]; try discriminate.
  apply mp_loop_no_progress in Em as [-> ->];
    [|intros l r s E; apply (Hrec _ _ _ _ E)].
  destruct (match_axioms _ _ _) as [[[axiom_idx substitution]|]|]; cbn [fbind];
    try discriminate.
  intros E. apply Hstore in E. right. exists axiom_idx, substitution. congruence.
Qed.

Lemma prove_at_depth_bound_witness :
  (exists i, [axiom 4 {[ "A" := Var "A" ]} (Impl (Var "A") (Var "A"))] =
             [hypothesis i (Impl (Var "A") (Var "A"))]) \/
  (exists axiom_idx substitution,
     [axiom 4 {[ "A" := Var "A" ]} (Impl (Var "A") (Var "A"))] =
     [axiom axiom_idx substitution (Impl (Var "A") (Var "A"))]).
Proof.
  eapply (@prove_at_depth_bound sample_hash 2 initial_prover _
            (Impl (Var "A") (Var "A")) [] 0); [reflexivity|].
  vm_compute. reflexivity.
Defined.

(** ** The tokenizer, the parser and the printer *)

(** X12.  [read_token] ends a token at a space, at a parenthesis or at the
    end of the text, and nowhere else: a tab or a line break inside a run
    of characters is part of the token, although [skip_whitespace] skips
    such characters in front of a token. *)
Theorem read_token_ends_at_space_or_parenthesis (w rest : string) (p : nat) :
  is_word w = true -> delimited rest = true ->
  read_token (mkParser p (w +:+ rest)) = (w, mkParser (p + String.length w) rest).
Proof. intros Hw Hr. apply (read_token_word w p rest Hw Hr). Qed.

Lemma read_token_ends_at_space_or_parenthesis_witness :
  read_token (mkParser 4 (String "A" (String "009" "B") +:+ ")")) =
  (String "A" (String "009" "B"), mkParser 7 ")").
Proof.
  apply (read_token_ends_at_space_or_parenthesis (String "A" (String "009" "B")) ")" 4);
    reflexivity.
Defined.

(** X13.  A name that is no keyword is read as the variable of that name
    when it stands alone and when it stands in parentheses. *)
Theorem parse_reads_names (name : string) :
  valid_name name = true -> str2type name = VAR ->
  parse name = Some (Ok (Var name)) /\
  parse ("(" +:+ name +:+ ")") = Some (Ok (Var name)).
Proof.
  intros Hn Hv. unfold parse. split.
  - rewrite (parse_any_fuel name 1
               (Ok (Var name, mkParser (0 + String.length name) ""))); [reflexivity|].
    unfold Parser_init. cbn [parse_formula].
    rewrite <- (append_nil_r name) at 1.
    rewrite (read_token_name name 0 "" Hn eq_refl).
    rewrite (valid_name_not_open name Hn), (valid_name_not_empty name Hn). reflexivity.
  - rewrite (parse_any_fuel _ 1 _ (parse_formula_parenthesized name Hn Hv)).
    reflexivity.
Qed.

Lemma parse_reads_names_witness :
  parse "x1" = Some (Ok (Var "x1")) /\ parse ("(" +:+ "x1" +:+ ")") = Some (Ok (Var "x1")).
Proof. apply (parse_reads_names "x1"); reflexivity. Defined.

(** X14.  Two well-formed formulas with valid names and the same printed
    text are equal: [formula2str] tells apart all formulas that [is_equal]
    tells apart. *)
Theorem formula2str_injective (f g : Formula) (s : string) :
  well_formed f = true -> names_valid f = true ->
  well_formed g = true -> names_valid g = true ->
  formula2str f = Ok s -> formula2str g = Ok s ->
  is_equal (Some f) (Some g) = Ok true.
Proof.
  intros Wf Nf Wg Ng Ef Eg. unfold is_equal.
  rewrite (is_equal_total f Wf g Wg), (formula2str_equal f g s Wf Nf Wg Ng Ef Eg).
  reflexivity.
Qed.

Lemma formula2str_injective_witness :
  is_equal (Some (Impl (Var "A") (Not (Var "B"))))
           (Some (mkFormula IMPL [Var "A"; mkFormula NOT [Var "B"] "not"] "implies")) =
  Ok true.
Proof.
  apply (formula2str_injective _ _ "(implies A (not B))"); reflexivity.
Defined.

(** ** What the search never misses *)

(** X15.  Within the depth bound [prove] never answers "no proof found"
    for a target that is equal to a hypothesis or that an axiom of the
    prover matches: a call that returns, returns a proof. *)
Theorem prove_never_misses_hypothesis_or_axiom `{PyHash} (fuel : nat)
    (self self' : Prover) (target : Formula) (hypotheses : list Formula)
    (depth max_depth : Z) (r : option (list ProofStep)) :
  depth <= max_depth ->
  (exists hyp, In hyp hypotheses /\ is_equal (Some hyp) (Some target) = Ok true) \/
  (exists ax s, In ax (axioms self) /\ match_pattern ax target ∅ = Ok (Some s)) ->
  prove fuel self target hypotheses depth max_depth = Some (Ok (r, self')) ->
  exists proof, r = Some proof.
Proof.
  intros Hd Hbase E.
  destruct r as [proof|]; [exists proof; reflexivity|]. exfalso.
  destruct (prove_none_inv fuel self target hypotheses depth max_depth self' Hd E)
    as [Hf Hm].
  destruct Hbase as [(hyp & Hin & Heq)|(ax & s & Hin & Hmatch)].
  - rewrite (find_hypothesis_none_inv _ _ _ Hf hyp Hin) in Heq. discriminate.
  - rewrite (match_axioms_none_inv _ _ _ Hm ax Hin) in Hmatch. discriminate.
Qed.

Lemma prove_never_misses_hypothesis_or_axiom_witness :
  exists proof,
    Some [axiom 1 (<["B" := Var "Q"]> (<["A" := Not (Var "P")]> ∅))
            (mkFormula IMPL [Not (Var "P"); mkFormula IMPL [Var "Q"; Not (Var "P")] ""] "")] =
    Some proof.
Proof.
  eapply (@prove_never_misses_hypothesis_or_axiom sample_hash 2 initial_prover _
            (mkFormula IMPL [Not (Var "P"); mkFormula IMPL [Var "Q"; Not (Var "P")] ""] "")
            [] 0 0); [lia| |vm_compute; reflexivity].
  right. eexists _, _. split; [left; reflexivity|]. vm_compute. reflexivity.
Defined.

(** ** What the search stores *)

(** X16.  A search that finds no proof stores nothing: [prove] leaves the
    prover as it was, its recursive calls included, and the cache holds
    nothing under the key of the call, so that the same call searches
    again. *)
Theorem prove_failure_stores_nothing `{PyHash} (fuel : nat) (self self' : Prover)
    (target : Formula) (hypotheses : list Formula) (depth max_depth : Z) :
  prove fuel self target hypotheses depth max_depth = Some (Ok (None, self')) ->
  self' = self /\
  dict_get (proof_cache self') (mkKey target hypotheses depth) = Ok None.
Proof.
  intros E.
  pose proof (prove_none_unchanged fuel self target hypotheses depth max_depth self' E)
    as ->.
  split; [reflexivity|].
  apply (prove_none_cache_miss fuel self target hypotheses depth max_depth self E).
Qed.

Lemma prove_failure_stores_nothing_witness :
  initial_prover = initial_prover /\
  @dict_get sample_hash (proof_cache initial_prover)
    (mkKey (Impl (Var "A") (Var "B")) [Impl (Var "C") (Var "B")] 0) = Ok None.
Proof.
  apply (@prove_failure_stores_nothing sample_hash 4 initial_prover initial_prover
           (Impl (Var "A") (Var "B")) [Impl (Var "C") (Var "B")] 0 2).
  vm_compute. reflexivity.
Defined.

(** X17.  [prove] never replaces or removes a cached proof.  On
    well-formed formulas and a well-formed cache, the cache that a call
    leaves is the cache it found followed by new entries, all of them for
    keys of the depth of the call or deeper; a lookup that gave a proof
    before the call gives the same proof after it. *)
Theorem prove_appends_to_cache `{PyHash} (fuel : nat) (self self' : Prover)
    (target : Formula) (hypotheses : list Formula) (depth max_depth : Z)
    (r : option (list ProofStep)) :
  prover_well_formed self ->
  well_formed target = true -> forallb well_formed hypotheses = true ->
  prove fuel self target hypotheses depth max_depth = Some (Ok (r, self')) ->
  (exists added,
     proof_cache self' = proof_cache self ++ added /\
     Forall (fun e => depth <= key_depth (me_key e)) added) /\
  (forall key proof,
     dict_get (proof_cache self) key = Ok (Some proof) ->
     dict_get (proof_cache self') key = Ok (Some proof)).
Proof.
  intros Wself Ht Hh E.
  destruct (prove_extended fuel self target hypotheses depth max_depth r self'
              Wself Ht Hh E) as [_ (added & Eadded & F)].
  split; [exists added; auto|].
  intros key proof Hget. rewrite Eadded. apply dict_get_app_some, Hget.
Qed.

Lemma prove_appends_to_cache_witness :
  exists r self',
    @prove sample_hash 4 initial_prover
      (Impl (Var "A") (Impl (Var "B") (Var "A"))) [] 0 2 = Some (Ok (r, self')) /\
    (exists added,
       proof_cache self' = proof_cache initial_prover ++ added /\
       Forall (fun e => 0 <= key_depth (me_key e)) added) /\
    (forall key proof,
       @dict_get sample_hash (proof_cache initial_prover) key = Ok (Some proof) ->
       @dict_get sample_hash (proof_cache self') key = Ok (Some proof)).
Proof.
  eexists _, _. split; [vm_compute; reflexivity|].
  eapply (@prove_appends_to_cache sample_hash 4 initial_prover _
            (Impl (Var "A") (Impl (Var "B") (Var "A"))) [] 0 2);
    [reflexivity|reflexivity|reflexivity|vm_compute; reflexivity].
Defined.

(** X18.  Raising [max_depth] never turns a proof into "no proof found":
    when [prove] finds a proof within one depth bound, the same call on
    the same prover with a larger bound, if it returns, returns a proof
    too, though not always the same one. *)
Theorem prove_larger_bound_never_none `{PyHash} (fuel fuel' : nat)
    (self self1 self1' : Prover) (target : Formula) (hypotheses : list Formula)
    (depth max_depth max_depth' : Z) (proof : list ProofStep)
    (r' : option (list ProofStep)) :
  max_depth <= max_depth' ->
  prove fuel self target hypotheses depth max_depth = Some (Ok (Some proof, self1)) ->
  prove fuel' self target hypotheses depth max_depth' = Some (Ok (r', self1')) ->
  exists proof', r' = Some proof'.
Proof.
  intros Hm E E'.
  pose proof (prove_deeper fuel fuel' self target hypotheses depth max_depth max_depth'
                proof self1 r' self1' Hm E E') as Hr'.
  destruct r' as [proof'|]; [exists proof'; reflexivity|].
  destruct Hr'; reflexivity.
Qed.

Lemma prove_larger_bound_never_none_witness :
  exists proof',
    Some [deduction (Var "A") (Impl (Not (Var "B")) (Var "A"))
            [deduction (Not (Var "B")) (Var "A") [hypothesis 0 (Var "A")]]] =
    Some proof'.
Proof.
  eapply (@prove_larger_bound_never_none sample_hash 2 4 initial_prover _ _
            target_k [] 0 0 2); [lia| |]; vm_compute; reflexivity.
Defined.

(** ** White space before the formula *)

(** X19.  White space before the text is skipped: [parse] returns the same
    formula with it and without it, and raises with it exactly when it
    raises without it. *)
Theorem parse_skips_leading_white_space (ws text : string) :
  all_space ws = true ->
  (forall f, parse (ws +:+ text) = Some (Ok f) <-> parse text = Some (Ok f)) /\
  ((exists e, parse (ws +:+ text) = Some (Raise e)) <->
   (exists e, parse text = Some (Raise e))).
Proof.
  intros Hws. destruct (parse_space ws text Hws) as (r & r' & E & E' & Hs).
  unfold parse. rewrite E, E'.
  destruct r as [[f0 st]|e], r' as [[f0' st']|e']; simpl in Hs; try contradiction;
    simpl.
  - destruct Hs as [-> _]. split; [intros f; tauto|].
    split; intros [e He]; discriminate.
  - split; [intros f; split; discriminate|].
    split; intros _; eexists; reflexivity.
Qed.

Lemma parse_skips_leading_white_space_witness :
  (forall f,
     parse (String "009" (String "010" " ") +:+ "(not A)") = Some (Ok f) <->
     parse "(not A)" = Some (Ok f)) /\
  ((exists e, parse (String "009" (String "010" " ") +:+ "(not A)") = Some (Raise e)) <->
   (exists e, parse "(not A)" = Some (Raise e))).
Proof.
  apply (parse_skips_leading_white_space (String "009" (String "010" " ")) "(not A)").
  reflexivity.
Defined.

(** ** How deep the recursion goes *)

(** X20.  The recursion of [prove] goes as deep as the bound lets it.  On
    a fresh prover, for the target [A] and the single hypothesis [A -> A],
    modus ponens asks for [A] again one level deeper, down to depth
    [max_depth + 1]: the call needs room for [max_depth + 2 - depth] nested
    calls of [prove].  With less fuel the model has no result; with that
    much it returns "no proof found".  For [depth = 0] and the default
    [max_depth = 1000] these are 1002 nested calls, more than the 1000
    frames of the interpreter's default recursion limit. *)
Theorem prove_nests_to_depth_bound `{PyHash} (name : string) (depth max_depth : Z)
    (fuel : nat) :
  depth <= max_depth + 1 ->
  prove fuel initial_prover (Var name) [Impl (Var name) (Var name)] depth max_depth =
  if Z.of_nat fuel <=? max_depth + 1 - depth then None
  else Some (Ok (None, initial_prover)).
Proof. intros Hd. apply (prove_chain name max_depth fuel depth Hd). Qed.

Lemma prove_nests_to_depth_bound_witness :
  @prove sample_hash 1001 initial_prover (Var "A") [Impl (Var "A") (Var "A")] 0 1000 =
  (if Z.of_nat 1001 <=? 1000 + 1 - 0 then None else Some (Ok (None, initial_prover))).
Proof.
  apply (@prove_nests_to_depth_bound sample_hash "A" 0 1000 1001). lia.
Defined.
